(** * An event-sourced inventory ledger with a write-ahead log

    A shallow embedding of the ledger core of the repository
    ([back/transaction.h], [back/memory_database.cpp],
    [back/persistence.cpp]) and the proofs of its specified properties.

    Conventions of the embedding.
    - [std::string] is [string]; comparison of strings is the bytewise
      lexicographic order ([String.compare]).
    - [int] is [Z]; a sum or difference of [int]s is reduced to the 32-bit
      two's complement range by [wrap_int], which is what the usual targets
      compute where C++ leaves the overflow undefined.  The statements
      about such sums are made within the range of [int].
    - [size_t] values occur as container sizes and published counts and
      are [nat]; the one [size_t] product, in [getSystemStatus], is reduced
      to 64 bits.
    - [double] is IEEE 754 binary64, as [spec_float] with the operations of
      [SpecFloat] at precision 53 and maximal exponent 1024.
    - [std::unordered_map] and [std::map] are [gmap]; where the code
      iterates a [std::map] the entries are visited in key order.
    - The file system, the clock and the faults of a write (an exception
      raised by the runtime, a stream that fails) are explicit arguments
      and results.
    - Logging, timers and metrics have no effect on the modelled state and
      are left out; memory exhaustion is outside the model. *)

From Stdlib Require Import ZArith Lia Bool List.
From Stdlib Require Ascii String.
From Stdlib Require Import SpecFloat Decimal DecimalString DecimalZ.
From stdpp Require Import gmap strings list fin_maps sorting.
Import Stdlib.Strings.Ascii (ascii(..)).
Import (notations) Stdlib.Strings.Ascii.

Local Open Scope Z_scope.

(** ** Strings *)

Module Str.

(** [s.empty()] *)
Definition empty (s : string) : bool :=
  match s with EmptyString => true | String _ _ => false end.

(** [a == b], [a < b], [a > b] on [std::string] *)
Definition eqb (a b : string) : bool := String.eqb a b.
Definition ltb (a b : string) : bool := String.ltb a b.
Definition gtb (a b : string) : bool := String.ltb b a.

(** Whether the character [c] occurs in [s]. *)
Fixpoint contains (c : ascii) (s : string) : bool :=
  match s with
  | EmptyString => false
  | String a s' => Ascii.eqb a c || contains c s'
  end.

(** [s.ends_with(suffix)] *)
Definition ends_with (s suffix : string) : bool :=
  let n := String.length s in
  let k := String.length suffix in
  (k <=? n)%nat && String.eqb (String.substring (n - k) k s) suffix.

(** The loop [while (std::getline(in, token, delim)) out.push_back(token)]
    over the characters [s] of the input stream.  Each call of
    [std::getline] extracts characters up to and including the next
    [delim] (which is dropped) or up to the end of the input; a call that
    extracts nothing fails and ends the loop.  Hence an input that ends
    with [delim] does not produce a final empty token. *)
Fixpoint getlines (delim : ascii) (s : string) : list string :=
  match s with
  | EmptyString => []
  | String c s' =>
      if Ascii.eqb c delim then EmptyString :: getlines delim s'
      else match getlines delim s' with
           | [] => [String c EmptyString]
           | t :: ts => String c t :: ts
           end
  end.

(** [a + b + ...]: concatenation of the pieces with [sep] between them,
    as the chain of [<<] of the serializer produces it. *)
Fixpoint join (sep : ascii) (l : list string) : string :=
  match l with
  | [] => EmptyString
  | [x] => x
  | x :: l' => x +:+ String sep (join sep l')
  end.

End Str.

(** ** Machine numbers *)

Definition INT_MIN : Z := -2147483648.
Definition INT_MAX : Z := 2147483647.

(** The values of the type [int]. *)
Definition in_int (z : Z) : Prop := INT_MIN <= z <= INT_MAX.

(** Reduction of an arithmetic result to [int] (two's complement). *)
Definition wrap_int (z : Z) : Z := (z + 2147483648) mod 4294967296 - 2147483648.

Definition int_add (a b : Z) : Z := wrap_int (a + b).
Definition int_sub (a b : Z) : Z := wrap_int (a - b).

Definition prec : Z := 53.
Definition emax : Z := 1024.

(** [double] *)
Definition double : Type := spec_float.

Definition d_zero : double := S754_zero false.
Definition d_add : double -> double -> double := SFadd prec emax.
Definition d_mul : double -> double -> double := SFmul prec emax.
Definition d_div : double -> double -> double := SFdiv prec emax.

(** The implicit conversion of an [int] to [double] (always exact). *)
Definition double_of_int (z : Z) : double := binary_normalize prec emax z 0 false.

(** Decimal numerals *)
Definition dec (z : Z) : string := NilZero.string_of_int (Z.to_int z).

(** ** Formatting and parsing numbers (the C++ standard library) *)

Module Num.

(** [isspace] and [isdigit] in the "C" locale *)
Definition is_space (c : ascii) : bool :=
  let n := Ascii.N_of_ascii c in
  ((n =? 32) || ((9 <=? n) && (n <=? 13)))%N.

Definition is_digit (c : ascii) : bool :=
  let n := Ascii.N_of_ascii c in ((48 <=? n) && (n <=? 57))%N.

Fixpoint skip_space (s : string) : string :=
  match s with
  | String c s' => if is_space c then skip_space s' else s
  | EmptyString => s
  end.

(** The longest prefix of decimal digits, and what follows it. *)
Fixpoint take_digits (s : string) : string :=
  match s with
  | String c s' => if is_digit c then String c (take_digits s') else EmptyString
  | EmptyString => EmptyString
  end.

Fixpoint drop_digits (s : string) : string :=
  match s with
  | String c s' => if is_digit c then drop_digits s' else s
  | EmptyString => s
  end.

(** An optional sign: [true] for [-]. *)
Definition parse_sign (s : string) : bool * string :=
  match s with
  | String "-"%char r => (true, r)
  | String "+"%char r => (false, r)
  | _ => (false, s)
  end.

(** The value of a string of digits; the empty string counts as zero. *)
Definition digits_value (ds : string) : Z :=
  match NilEmpty.uint_of_string ds with
  | Some u => Z.of_uint u
  | None => 0
  end.

(** [os << n] for an [int] *)
Definition put_int (z : Z) : string := dec z.

(** [std::stoi(s)]: [strtol] in base 10 on the longest numeral that starts
    [s] after leading white space; [None] stands for the exception
    ([std::invalid_argument] when there is no digit, [std::out_of_range]
    when the value is not an [int]). *)
Definition stoi (s : string) : option Z :=
  let '(neg, r) := parse_sign (skip_space s) in
  let ds := take_digits r in
  if Str.empty ds then None
  else
    let v := if neg then - digits_value ds else digits_value ds in
    if (INT_MIN <=? v) && (v <=? INT_MAX) then Some v else None.

(** The integer nearest to [m * 2^e * 100], ties to even. *)
Definition round_cents (m : positive) (e : Z) : Z :=
  if 0 <=? e then Z.pos m * 100 * 2 ^ e
  else
    let d := 2 ^ (- e) in
    let q := (Z.pos m * 100) / d in
    let r := (Z.pos m * 100) mod d in
    match 2 * r ?= d with
    | Lt => q
    | Gt => q + 1
    | Eq => if Z.even q then q else q + 1
    end.

Definition two_digits (n : Z) : string :=
  if n <? 10 then "0" +:+ dec n else dec n.

(** [os << std::fixed << std::setprecision(2) << x]: the decimal expansion
    of [x] rounded to two fractional digits.  The sign of a NaN is not
    represented in [spec_float] and is not printed. *)
Definition put_fixed2 (x : double) : string :=
  match x with
  | S754_nan => "nan"
  | S754_infinity s => if s then "-inf" else "inf"
  | S754_zero s => if s then "-0.00" else "0.00"
  | S754_finite s m e =>
      let c := round_cents m e in
      (if s then "-" else "") +:+ dec (c / 100) +:+ "." +:+ two_digits (c mod 100)
  end.

Definition lower (c : ascii) : ascii :=
  let n := Ascii.N_of_ascii c in
  if ((65 <=? n) && (n <=? 90))%N then Ascii.ascii_of_N (n + 32) else c.

(** Whether [s] starts with the lower-case word [w], ignoring case. *)
Fixpoint starts_with_ci (w s : string) : bool :=
  match w, s with
  | EmptyString, _ => true
  | String a w', String c s' => Ascii.eqb a (lower c) && starts_with_ci w' s'
  | String _ _, EmptyString => false
  end.

(** The exponent part [e[+-]digits] of a decimal numeral, zero if absent
    or without digits. *)
Definition parse_exponent (s : string) : Z :=
  match s with
  | String c r =>
      if Ascii.eqb (lower c) "e" then
        let '(neg, r') := parse_sign r in
        let v := digits_value (take_digits r') in
        if neg then - v else v
      else 0
  | EmptyString => 0
  end.

Definition is_hex_digit (c : ascii) : bool :=
  let n := Ascii.N_of_ascii (lower c) in
  is_digit c || ((97 <=? n) && (n <=? 102))%N.

Definition hex_digit_value (c : ascii) : Z :=
  let n := Z.of_N (Ascii.N_of_ascii (lower c)) in
  if is_digit c then n - 48 else n - 87.

(** The longest prefix of hexadecimal digits: its value continuing [acc],
    the number of its digits, and what follows it. *)
Fixpoint take_hex (acc : Z) (s : string) : Z * Z * string :=
  match s with
  | String c s' =>
      if is_hex_digit c then
        let '(v, k, r) := take_hex (16 * acc + hex_digit_value c) s' in (v, k + 1, r)
      else (acc, 0, s)
  | EmptyString => (acc, 0, s)
  end.

(** The binary exponent part [p[+-]digits] of a hexadecimal numeral. *)
Definition parse_binary_exponent (s : string) : Z :=
  match s with
  | String c r =>
      if Ascii.eqb (lower c) "p" then
        let '(neg, r') := parse_sign r in
        let v := digits_value (take_digits r') in
        if neg then - v else v
      else 0
  | EmptyString => 0
  end.

(** The binary64 number nearest to [(-1)^neg * num / den], ties to even,
    for [num >= 0] and [den > 0]. *)
Definition nearest_double (neg : bool) (num den : Z) : double :=
  match num, den with
  | Z.pos p, Z.pos q =>
      if (q =? 1)%positive
      then binary_normalize prec emax (if neg then Z.neg p else Z.pos p) 0 neg
      else d_div (S754_finite neg p 0) (S754_finite false q 0)
  | Z.pos _, _ => S754_nan
  | _, _ => S754_zero neg
  end.

(** Whether [m * 2^e] is [num / den]. *)
Definition is_exactly (m : positive) (e : Z) (num den : Z) : bool :=
  if 0 <=? e then Z.pos m * 2 ^ e * den =? num
  else Z.pos m * den =? num * 2 ^ (- e).

(** The result of [strtod] for the exact value [num / den] as [std::stod]
    passes it on: [None] ([std::out_of_range]) when the value overflows,
    or is not zero and rounds to zero or inexactly to a subnormal
    number. *)
Definition stod_value (neg : bool) (num den : Z) : option double :=
  match nearest_double neg num den with
  | S754_infinity _ => None
  | S754_zero sz => if num =? 0 then Some (S754_zero sz) else None
  | S754_finite sf m e =>
      if (Z.pos m <? 2 ^ (prec - 1)) && negb (is_exactly m e num den) then None
      else Some (S754_finite sf m e)
  | S754_nan => Some S754_nan
  end.

(** A value scaled by a power of a base: [n * base^x] as a fraction. *)
Definition scaled (n base x : Z) : Z * Z :=
  if 0 <=? x then (n * base ^ x, 1) else (n, base ^ (- x)).

(** The hexadecimal numeral after [0x], if there is one: at least one
    hexadecimal digit, before or after the point. *)
Definition stod_hex (neg : bool) (r : string) : option (option double) :=
  let '(ip, ki, r1) := take_hex 0 r in
  let '(v, kf, r2) :=
    match r1 with
    | String "."%char r' => take_hex ip r'
    | _ => (ip, 0, r1)
    end in
  if (ki =? 0) && (kf =? 0) then None
  else
    let '(num, den) := scaled v 2 (parse_binary_exponent r2 - 4 * kf) in
    Some (stod_value neg num den).

(** [std::stod(s)]: [strtod] on the longest numeral that starts [s] after
    leading white space: a decimal numeral with an optional fraction and
    exponent, a hexadecimal numeral, or one of the words [inf], [infinity]
    and [nan].  [None] stands for the exception: [std::invalid_argument]
    when there is no numeral, [std::out_of_range] when [strtod] reports a
    range error. *)
Definition stod (s : string) : option double :=
  let '(neg, r) := parse_sign (skip_space s) in
  if starts_with_ci "inf" r then Some (S754_infinity neg)
  else if starts_with_ci "nan" r then Some S754_nan
  else
    match (if starts_with_ci "0x" r
           then stod_hex neg (String.substring 2 (String.length r - 2) r)
           else None) with
    | Some result => result
    | None =>
        let ip := take_digits r in
        let r1 := drop_digits r in
        let '(fp, r2) :=
          match r1 with
          | String "."%char r' => (take_digits r', drop_digits r')
          | _ => (EmptyString, r1)
          end in
        if Str.empty ip && Str.empty fp then None
        else
          let '(num, den) :=
            scaled (digits_value (ip +:+ fp)) 10
              (parse_exponent r2 - Z.of_nat (String.length fp)) in
          stod_value neg num den
    end.

End Num.

(** ** The data model ([transaction.h]) *)

Module TransactionRecord.

Record t : Type := mk {
  trans_id : string;
  item_id : string;
  item_name : string;
  type : string;
  quantity : Z;
  timestamp : string;
  manager_id : string;
  note : string;
  category : string;
  model : string;
  unit : string;
  unit_price : double;
  partner_id : string;
  partner_name : string;
  warehouse_id : string;
  document_no : string
}.

(** [TransactionRecord() : quantity(0), unit_price(0.0) {}] *)
Definition default : t :=
  mk "" "" "" "" 0 "" "" "" "" "" "" d_zero "" "" "" "".

Definition getTotalAmount (tr : t) : double :=
  d_mul (double_of_int (quantity tr)) (unit_price tr).

Definition isInbound (tr : t) : bool := Str.eqb (type tr) "in".
Definition isOutbound (tr : t) : bool := Str.eqb (type tr) "out".

End TransactionRecord.

Module ItemSummary.

Record t : Type := mk {
  item_id : string;
  item_name : string;
  category : string;
  model : string;
  unit : string;
  latest_price : double;
  total_quantity : Z;
  last_updated : string
}.

End ItemSummary.

Module InventoryRecord.

Record t : Type := mk {
  item_id : string;
  warehouse_id : string;
  quantity : Z;
  avg_price : double
}.

End InventoryRecord.

Abbreviation Transaction := TransactionRecord.t.

(** ** Ordered maps: iteration of a [std::map] in key order *)

(** [operator<] of [std::pair<std::string, std::string>] *)
Definition pair_ltb (a b : string * string) : bool :=
  Str.ltb a.1 b.1 || (negb (Str.ltb b.1 a.1) && Str.ltb a.2 b.2).

Definition key_le {V : Type} (a b : (string * string) * V) : Prop :=
  Is_true (negb (pair_ltb b.1 a.1)).

#[global] Instance key_le_dec {V : Type} (a b : (string * string) * V) :
  Decision (key_le a b).
Proof. unfold key_le. apply _. Defined.

(** The entries of a [std::map] keyed by pairs of strings, in the order in
    which a range-[for] visits them. *)
Definition in_key_order {V : Type} (m : gmap (string * string) V) :
  list ((string * string) * V) :=
  merge_sort key_le (map_to_list m).

(** ** Derived views ([memory_database.cpp]) *)

(** One iteration of the loop of [MemoryDatabase::calculateInventory]:
    [inventory_map[key]] is created with quantity 0 and price 0.0 when the
    key is new, then updated in place. *)
Definition inventory_step
    (inventory_map : gmap (string * string) InventoryRecord.t)
    (trans : Transaction) : gmap (string * string) InventoryRecord.t :=
  let key := (TransactionRecord.warehouse_id trans, TransactionRecord.item_id trans) in
  let record :=
    match inventory_map !! key with
    | Some r => r
    | None => InventoryRecord.mk (TransactionRecord.item_id trans)
                (TransactionRecord.warehouse_id trans) 0 d_zero
    end in
  let record' :=
    if TransactionRecord.isInbound trans then
      let total_value :=
        d_add (d_mul (double_of_int (InventoryRecord.quantity record))
                     (InventoryRecord.avg_price record))
              (d_mul (double_of_int (TransactionRecord.quantity trans))
                     (TransactionRecord.unit_price trans)) in
      let q := int_add (InventoryRecord.quantity record) (TransactionRecord.quantity trans) in
      InventoryRecord.mk (InventoryRecord.item_id record) (InventoryRecord.warehouse_id record) q
        (if 0 <? q then d_div total_value (double_of_int q)
         else InventoryRecord.avg_price record)
    else
      InventoryRecord.mk (InventoryRecord.item_id record) (InventoryRecord.warehouse_id record)
        (int_sub (InventoryRecord.quantity record) (TransactionRecord.quantity trans))
        (InventoryRecord.avg_price record) in
  <[key := record']> inventory_map.

(** [result[pair.first.first].push_back(pair.second)] under the guard
    [pair.second.quantity > 0] *)
Definition inventory_group
    (result : gmap string (list InventoryRecord.t))
    (p : (string * string) * InventoryRecord.t) : gmap string (list InventoryRecord.t) :=
  if 0 <? InventoryRecord.quantity p.2
  then <[p.1.1 := default [] (result !! p.1.1) ++ [p.2]]> result
  else result.

(** The body of [calculateInventory] after the transactions were read. *)
Definition inventory_of (transactions : list Transaction) :
  gmap string (list InventoryRecord.t) :=
  let inventory_map := fold_left inventory_step transactions ∅ in
  fold_left inventory_group (in_key_order inventory_map) ∅.

(** One iteration of the loop of [MemoryDatabase::buildItemSummaryMap]. *)
Definition item_summary_step
    (item_map : gmap string ItemSummary.t) (trans : Transaction) :
  gmap string ItemSummary.t :=
  let key := TransactionRecord.item_id trans in
  let summary :=
    match item_map !! key with
    | Some s => s
    | None =>
        ItemSummary.mk (TransactionRecord.item_id trans)
          (TransactionRecord.item_name trans) (TransactionRecord.category trans)
          (TransactionRecord.model trans) (TransactionRecord.unit trans)
          (TransactionRecord.unit_price trans) 0 (TransactionRecord.timestamp trans)
    end in
  let q :=
    if TransactionRecord.isInbound trans
    then int_add (ItemSummary.total_quantity summary) (TransactionRecord.quantity trans)
    else int_sub (ItemSummary.total_quantity summary) (TransactionRecord.quantity trans) in
  let summary' :=
    if Str.gtb (TransactionRecord.timestamp trans) (ItemSummary.last_updated summary) then
      ItemSummary.mk (ItemSummary.item_id summary)
        (TransactionRecord.item_name trans) (TransactionRecord.category trans)
        (TransactionRecord.model trans) (TransactionRecord.unit trans)
        (TransactionRecord.unit_price trans) q (TransactionRecord.timestamp trans)
    else
      ItemSummary.mk (ItemSummary.item_id summary)
        (ItemSummary.item_name summary) (ItemSummary.category summary)
        (ItemSummary.model summary) (ItemSummary.unit summary)
        (ItemSummary.latest_price summary) q (ItemSummary.last_updated summary) in
  <[key := summary']> item_map.

Definition buildItemSummaryMap (transactions : list Transaction) :
  gmap string ItemSummary.t :=
  fold_left item_summary_step transactions ∅.

(** ** Errors and results ([error_handling.h]) *)

Inductive ErrorCode : Type :=
| SUCCESS
| UNKNOWN_ERROR
| INVALID_PARAMETER
| MEMORY_ALLOCATION_FAILED
| OPERATION_TIMEOUT
| OPERATION_CANCELLED
| DATABASE_INIT_FAILED
| TRANSACTION_VALIDATION_FAILED
| MANAGER_NOT_FOUND
| DUPLICATE_TRANSACTION_ID
| INVALID_TRANSACTION_TYPE
| INSUFFICIENT_INVENTORY
| ITEM_NOT_FOUND
| INVENTORY_CALCULATION_FAILED
| PERSISTENCE_INIT_FAILED
| WAL_WRITE_FAILED
| WAL_READ_FAILED
| SNAPSHOT_CREATE_FAILED
| SNAPSHOT_LOAD_FAILED
| DATA_CORRUPTION_DETECTED
| FILE_LOCK_FAILED
| DISK_SPACE_INSUFFICIENT
| HTTP_SERVER_INIT_FAILED
| HTTP_PARSE_ERROR
| HTTP_INVALID_REQUEST
| HTTP_ROUTE_NOT_FOUND
| HTTP_METHOD_NOT_ALLOWED
| JSON_PARSE_ERROR
| JSON_SERIALIZE_ERROR
| NETWORK_CONNECTION_FAILED
| NETWORK_TIMEOUT
| NETWORK_DISCONNECTED
| SOCKET_CREATE_FAILED
| SOCKET_BIND_FAILED
| SOCKET_LISTEN_FAILED.

(** [Result<void>]: success, or an error code with its message (the error
    context only serves diagnostics and is left out). *)
Inductive Result : Type :=
| Success
| Error (code : ErrorCode) (message : string).

Definition isSuccess (r : Result) : bool :=
  match r with Success => true | Error _ _ => false end.

(** ** The data directory, the clock and faults *)

(** The regular files of the data directory: file name to content. *)
Abbreviation Dir := (gmap string string).

Definition newline : ascii := "010"%char.
Definition bar : ascii := "|"%char.

(** What goes wrong inside the [try] block of [writeToWAL].

    A [std::exception] raised by the runtime: before anything was written
    (while the line is built), or after the line was written and flushed
    (while the size of the segment is examined).

    Or the write to the stream fails, [FaultInWrite written]: of the
    characters of the line and its line feed only the first [written] reach
    the file.  The stream is opened with an empty exception mask and its
    state is never tested, so nothing is raised and the call goes on.  A
    stream that has failed stays failed: the calls that follow then come
    with [FaultInWrite 0]. *)
Inductive Fault : Type :=
  | NoFault
  | FaultBeforeWrite
  | FaultAfterFlush
  | FaultInWrite (written : nat).

(** What reaches the file of the text handed to the stream. *)
Definition written_text (f : Fault) (text : string) : string :=
  match f with
  | FaultInWrite written => String.substring 0 written text
  | _ => text
  end.

(** A reading of the system clock:
    [std::chrono::system_clock::now()] as [std::gmtime] breaks it down, and
    the milliseconds within the second. *)
Record Clock : Type := mkClock {
  year : Z;
  month : Z;
  day : Z;
  hour : Z;
  minute : Z;
  second : Z;
  millis : Z
}.

Fixpoint zeros (n : nat) : string :=
  match n with
  | O => EmptyString
  | S k => String "0"%char (zeros k)
  end.

(** A number padded with [0] on the left to the width [w], as
    [std::setfill('0') << std::setw(w)] and the conversions [%m], [%d],
    [%H], [%M] and [%S] of [std::put_time] print it. *)
Definition put_width (w : nat) (z : Z) : string :=
  zeros (w - String.length (dec z)) +:+ dec z.

(** [getCurrentTimestamp]: [%Y-%m-%dT%H:%M:%S], a dot, the milliseconds in
    three digits, and [Z]. *)
Definition getCurrentTimestamp (c : Clock) : string :=
  dec (year c) +:+ "-" +:+ put_width 2 (month c) +:+ "-" +:+ put_width 2 (day c)
  +:+ "T" +:+ put_width 2 (hour c) +:+ ":" +:+ put_width 2 (minute c)
  +:+ ":" +:+ put_width 2 (second c) +:+ "." +:+ put_width 3 (millis c) +:+ "Z".

(** [generateWALFilename], without the directory: [wal_%Y%m%d_%H%M%S.log]. *)
Definition generateWALFilename (c : Clock) : string :=
  "wal_" +:+ dec (year c) +:+ put_width 2 (month c) +:+ put_width 2 (day c)
  +:+ "_" +:+ put_width 2 (hour c) +:+ put_width 2 (minute c)
  +:+ put_width 2 (second c) +:+ ".log".

(** What one call reads from its environment: the clock, and the fault
    that occurs, if any. *)
Record Env : Type := mkEnv {
  clock : Clock;
  fault : Fault
}.

(** The time of the call as [getCurrentTimestamp] returns it. *)
Definition now (env : Env) : string := getCurrentTimestamp (clock env).

(** Opening [f] for appending creates it when it does not exist; writing
    appends [text]. *)
Definition appendToFile (f text : string) (fs : Dir) : Dir :=
  <[f := default "" (fs !! f) +:+ text]> fs.

(** ** The persistence manager ([persistence.cpp]) *)

Module PersistenceManager.

(** [wal_file_path_] is kept relative to [data_dir_]; [wal_is_open] is
    [wal_stream_ && wal_stream_->is_open()]. *)
Record t : Type := mk {
  data_dir_ : string;
  wal_file_path_ : string;
  wal_is_open : bool;
  snapshot_interval_ : Z;
  wal_size_limit_ : Z;
  last_snapshot_time_ : string
}.

End PersistenceManager.

Definition serializeTransaction (c : Clock) (manager_id : string)
    (trans : Transaction) : string :=
  Str.join bar
    [ getCurrentTimestamp c;
      manager_id;
      TransactionRecord.trans_id trans;
      TransactionRecord.item_id trans;
      TransactionRecord.item_name trans;
      TransactionRecord.type trans;
      Num.put_int (TransactionRecord.quantity trans);
      Num.put_fixed2 (TransactionRecord.unit_price trans);
      TransactionRecord.category trans;
      TransactionRecord.model trans;
      TransactionRecord.unit trans;
      TransactionRecord.partner_id trans;
      TransactionRecord.partner_name trans;
      TransactionRecord.warehouse_id trans;
      TransactionRecord.document_no trans;
      TransactionRecord.note trans ].

(** [deserializeTransaction(line, manager_id, trans)] on a default
    constructed [trans]: [None] for [false], otherwise the two outputs.
    The member [manager_id] of [trans] is not assigned. *)
Definition deserializeTransaction (line : string) : option (string * Transaction) :=
  let fields := Str.getlines bar line in
  if negb (length fields =? 16)%nat then None
  else
    match fields with
    | [f0; f1; f2; f3; f4; f5; f6; f7; f8; f9; f10; f11; f12; f13; f14; f15] =>
        match Num.stoi f6 with
        | None => None
        | Some q =>
            match Num.stod f7 with
            | None => None
            | Some p =>
                Some (f1,
                      TransactionRecord.mk f2 f3 f4 f5 q f0
                        (TransactionRecord.manager_id TransactionRecord.default)
                        f15 f8 f9 f10 p f11 f12 f13 f14)
            end
        end
    | _ => None
    end.

Definition shouldCreateSnapshot (pm : PersistenceManager.t) (fs : Dir) : bool :=
  match fs !! PersistenceManager.wal_file_path_ pm with
  | Some content =>
      PersistenceManager.wal_size_limit_ pm <? Z.of_nat (String.length content)
  | None => false
  end.

(** Modelled from the spec: [PersistenceManager::rotateWALFile], which
    [persistence.h] declares and [writeToWAL] calls, is not defined in the
    sources.  "When the active WAL segment exceeds a configured size
    threshold, a new segment file is started; old segments are retained":
    the stream is reopened on the file that [generateWALFilename] names. *)
Definition rotateWALFile (env : Env) (pm : PersistenceManager.t) (fs : Dir) :
  PersistenceManager.t * Dir :=
  (PersistenceManager.mk
     (PersistenceManager.data_dir_ pm) (generateWALFilename (clock env))
     (PersistenceManager.wal_is_open pm)
     (PersistenceManager.snapshot_interval_ pm)
     (PersistenceManager.wal_size_limit_ pm)
     (PersistenceManager.last_snapshot_time_ pm),
   appendToFile (generateWALFilename (clock env)) "" fs).

(** [writeToWAL]: the result, the manager and the directory afterwards.
    The state of the stream is tested nowhere: when the write fails, the
    call carries on and returns [true] like one whose line is in the file. *)
Definition writeToWAL (env : Env) (pm : PersistenceManager.t) (fs : Dir)
    (manager_id : string) (trans : Transaction) :
  bool * PersistenceManager.t * Dir :=
  if negb (PersistenceManager.wal_is_open pm) then (false, pm, fs)
  else
    match fault env with
    | FaultBeforeWrite => (false, pm, fs)
    | f =>
        let line := serializeTransaction (clock env) manager_id trans in
        let fs1 :=
          appendToFile (PersistenceManager.wal_file_path_ pm)
            (written_text f (line +:+ String newline "")) fs in
        match f with
        | FaultAfterFlush => (false, pm, fs1)
        | _ =>
            if shouldCreateSnapshot pm fs1
            then let '(pm', fs2) := rotateWALFile env pm fs1 in (true, pm', fs2)
            else (true, pm, fs1)
        end
    end.

Definition is_wal_name (f : string) : bool :=
  Str.ends_with f ".wal" || Str.ends_with f ".log".

(** [getWALFiles]: the names of the segments, sorted. *)
Definition getWALFiles (fs : Dir) : list string :=
  merge_sort String.le (List.filter is_wal_name (map fst (map_to_list fs))).

(** The body of the inner loop of [recoverFromWAL] for one line. *)
Definition recover_line (data : gmap string (list Transaction)) (line : string) :
  gmap string (list Transaction) :=
  if Str.empty line then data
  else
    match deserializeTransaction line with
    | Some (manager_id, trans) =>
        <[manager_id := default [] (data !! manager_id) ++ [trans]]> data
    | None => data
    end.

(** The lines that [std::getline(file, line)] reads from a file. *)
Definition file_lines (content : string) : list string :=
  Str.getlines newline content.

Definition recover_file (fs : Dir) (data : gmap string (list Transaction))
    (wal_file : string) : gmap string (list Transaction) :=
  match fs !! wal_file with
  | Some content => fold_left recover_line (file_lines content) data
  | None => data
  end.

Definition recoverFromWAL (fs : Dir) : gmap string (list Transaction) :=
  fold_left (recover_file fs) (getWALFiles fs) ∅.

(** The first loop of [validateDataIntegrity] over one sequence: no element
    has a timestamp below the timestamp of its predecessor. *)
Fixpoint timestamps_in_order (transactions : list Transaction) : bool :=
  match transactions with
  | a :: (b :: _) as rest =>
      negb (Str.ltb (TransactionRecord.timestamp b) (TransactionRecord.timestamp a))
      && timestamps_in_order rest
  | _ => true
  end.

(** The condition of the second loop, negated. *)
Definition required_fields_ok (trans : Transaction) : bool :=
  negb (Str.empty (TransactionRecord.trans_id trans)
        || Str.empty (TransactionRecord.item_id trans)
        || (negb (Str.eqb (TransactionRecord.type trans) "in")
            && negb (Str.eqb (TransactionRecord.type trans) "out"))
        || (TransactionRecord.quantity trans <=? 0)).

Definition validateDataIntegrity (data : gmap string (list Transaction)) : bool :=
  forallb
    (fun manager_pair : string * list Transaction =>
       timestamps_in_order manager_pair.2 && forallb required_fields_ok manager_pair.2)
    (map_to_list data).

(** ** The store ([memory_database.h], [memory_database.cpp]) *)

Module ManagerData.

(** The sequence of a tenant and its published length. *)
Record t : Type := mk {
  transactions : list Transaction;
  count : nat
}.

End ManagerData.

Module MemoryDatabase.

Record t : Type := mk {
  managers_ : gmap string ManagerData.t;
  persistence_ : option PersistenceManager.t;
  persistence_enabled_ : bool
}.

End MemoryDatabase.

(** What the constructors read from their environment: whether the data
    directory could be created, whether the segment could be opened, and
    whether the lock file could be opened. *)
Record BootEnv : Type := mkBootEnv {
  dir_ok : bool;
  wal_ok : bool;
  lock_ok : bool
}.

(** [PersistenceManager::PersistenceManager(data_dir)]: [None] when the
    constructor throws.  The result of [acquireFileLock] is not examined. *)
Definition PersistenceManager_new (b : BootEnv) (data_dir : string) (fs : Dir) :
  option PersistenceManager.t * Dir :=
  if negb (dir_ok b) then (None, fs)
  else if negb (wal_ok b) then (None, fs)
  else
    let fs1 := appendToFile "current.wal" "" fs in
    let fs2 := if lock_ok b then appendToFile ".lock" "" fs1 else fs1 in
    (Some (PersistenceManager.mk data_dir "current.wal" true 3600 (100 * 1024 * 1024) ""),
     fs2).

(** The loop that restores the recovered sequences into [managers_]. *)
Definition restore (recovered_data : gmap string (list Transaction)) :
  gmap string ManagerData.t :=
  (fun transactions => ManagerData.mk transactions (length transactions))
    <$> recovered_data.

(** [MemoryDatabase::MemoryDatabase(data_dir)]; reading the directory is
    taken not to throw. *)
Definition MemoryDatabase_new (b : BootEnv) (data_dir : string) (fs : Dir) :
  MemoryDatabase.t * Dir :=
  match PersistenceManager_new b data_dir fs with
  | (Some pm, fs') =>
      let recovered_data := recoverFromWAL fs' in
      let managers :=
        if negb (size recovered_data =? 0)%nat then
          if validateDataIntegrity recovered_data
          then restore recovered_data
          else ∅
        else ∅ in
      (MemoryDatabase.mk managers (Some pm) true, fs')
  | (None, fs') => (MemoryDatabase.mk ∅ None false, fs')
  end.

(** The scan for a published transaction with the id [id]. *)
Definition has_trans_id (data : ManagerData.t) (id : string) : bool :=
  existsb (fun t => Str.eqb (TransactionRecord.trans_id t) id)
    (take (ManagerData.count data) (ManagerData.transactions data)).

(** [managers_[manager_id]], then [push_back] and [count.fetch_add(1)]. *)
Definition push_transaction (manager_id : string) (trans : Transaction)
    (managers : gmap string ManagerData.t) : gmap string ManagerData.t :=
  let data := default (ManagerData.mk [] 0) (managers !! manager_id) in
  <[manager_id :=
      ManagerData.mk (ManagerData.transactions data ++ [trans])
                     (ManagerData.count data + 1)]> managers.

(** [MemoryDatabase::appendTransaction]: the result, the store and the
    directory afterwards. *)
Definition appendTransaction (env : Env) (manager_id : string) (trans : Transaction)
    (db : MemoryDatabase.t) (fs : Dir) : Result * MemoryDatabase.t * Dir :=
  if Str.empty manager_id then
    (Error INVALID_PARAMETER "Manager ID cannot be empty", db, fs)
  else if Str.empty (TransactionRecord.trans_id trans)
          || Str.empty (TransactionRecord.item_id trans) then
    (Error INVALID_PARAMETER "Transaction ID and Item ID cannot be empty", db, fs)
  else if negb (Str.eqb (TransactionRecord.type trans) "in")
          && negb (Str.eqb (TransactionRecord.type trans) "out") then
    (Error INVALID_TRANSACTION_TYPE "Transaction type must be 'in' or 'out'", db, fs)
  else if TransactionRecord.quantity trans <=? 0 then
    (Error INVALID_PARAMETER "Quantity must be positive", db, fs)
  else if match MemoryDatabase.managers_ db !! manager_id with
          | Some data => has_trans_id data (TransactionRecord.trans_id trans)
          | None => false
          end then
    (Error DUPLICATE_TRANSACTION_ID "Transaction ID already exists", db, fs)
  else
    let append (p : option PersistenceManager.t) (fs' : Dir) :=
      (Success,
       MemoryDatabase.mk
         (push_transaction manager_id trans (MemoryDatabase.managers_ db))
         p (MemoryDatabase.persistence_enabled_ db),
       fs') in
    match MemoryDatabase.persistence_enabled_ db, MemoryDatabase.persistence_ db with
    | true, Some pm =>
        match writeToWAL env pm fs manager_id trans with
        | (true, pm', fs') => append (Some pm') fs'
        | (false, pm', fs') =>
            (Error WAL_WRITE_FAILED "Failed to write transaction to WAL",
             MemoryDatabase.mk (MemoryDatabase.managers_ db) (Some pm')
               (MemoryDatabase.persistence_enabled_ db),
             fs')
        end
    | _, _ => append (MemoryDatabase.persistence_ db) fs
    end.

Definition getTransactions (db : MemoryDatabase.t) (manager_id : string) :
  list Transaction :=
  match MemoryDatabase.managers_ db !! manager_id with
  | None => []
  | Some data => take (ManagerData.count data) (ManagerData.transactions data)
  end.

Definition getTransactionCount (db : MemoryDatabase.t) (manager_id : string) : nat :=
  match MemoryDatabase.managers_ db !! manager_id with
  | None => 0%nat
  | Some data => ManagerData.count data
  end.

Definition hasManager (db : MemoryDatabase.t) (manager_id : string) : bool :=
  bool_decide (is_Some (MemoryDatabase.managers_ db !! manager_id)).

Definition enablePersistence (enable : bool) (db : MemoryDatabase.t) : MemoryDatabase.t :=
  MemoryDatabase.mk (MemoryDatabase.managers_ db) (MemoryDatabase.persistence_ db)
    (enable && bool_decide (is_Some (MemoryDatabase.persistence_ db))).

Definition calculateInventory (db : MemoryDatabase.t) (manager_id : string) :
  gmap string (list InventoryRecord.t) :=
  inventory_of (getTransactions db manager_id).

(** ** Auxiliary notions for the statements *)

(** Whether a string consists of decimal digits. *)
Fixpoint all_digits (s : string) : bool :=
  match s with
  | EmptyString => true
  | String c s' => Num.is_digit c && all_digits s'
  end.

(** The members of an event that are strings, in the order of the WAL
    line. *)
Definition text_fields (trans : Transaction) : list string :=
  [ TransactionRecord.trans_id trans;
    TransactionRecord.item_id trans;
    TransactionRecord.item_name trans;
    TransactionRecord.type trans;
    TransactionRecord.category trans;
    TransactionRecord.model trans;
    TransactionRecord.unit trans;
    TransactionRecord.partner_id trans;
    TransactionRecord.partner_name trans;
    TransactionRecord.warehouse_id trans;
    TransactionRecord.document_no trans;
    TransactionRecord.note trans ].

(** Neither the tenant id nor a string member of the event holds the
    character [c]. *)
Definition free_of (c : ascii) (manager_id : string) (trans : Transaction) : Prop :=
  Forall (fun x => Str.contains c x = false) (manager_id :: text_fields trans).

(** The price is unchanged by printing it with two fractional digits and
    reading it back. *)
Definition price_survives (trans : Transaction) : Prop :=
  Num.stod (Num.put_fixed2 (TransactionRecord.unit_price trans))
  = Some (TransactionRecord.unit_price trans).

(** Two events agree on the members that the caller supplies and the WAL
    line carries: all members but [timestamp] and [manager_id]. *)
Definition same_caller_fields (a b : Transaction) : Prop :=
  TransactionRecord.trans_id a = TransactionRecord.trans_id b
  /\ TransactionRecord.item_id a = TransactionRecord.item_id b
  /\ TransactionRecord.item_name a = TransactionRecord.item_name b
  /\ TransactionRecord.type a = TransactionRecord.type b
  /\ TransactionRecord.quantity a = TransactionRecord.quantity b
  /\ TransactionRecord.unit_price a = TransactionRecord.unit_price b
  /\ TransactionRecord.category a = TransactionRecord.category b
  /\ TransactionRecord.model a = TransactionRecord.model b
  /\ TransactionRecord.unit a = TransactionRecord.unit b
  /\ TransactionRecord.partner_id a = TransactionRecord.partner_id b
  /\ TransactionRecord.partner_name a = TransactionRecord.partner_name b
  /\ TransactionRecord.warehouse_id a = TransactionRecord.warehouse_id b
  /\ TransactionRecord.document_no a = TransactionRecord.document_no b
  /\ TransactionRecord.note a = TransactionRecord.note b.

(** The round trip of a tenant id and an event through a WAL line written
    when the clock shows [c]: parsing succeeds and gives back the tenant id
    and the caller's members. *)
Definition wal_round_trip (c : Clock) (manager_id : string) (trans : Transaction) : Prop :=
  exists trans',
    deserializeTransaction (serializeTransaction c manager_id trans)
    = Some (manager_id, trans')
    /\ same_caller_fields trans trans'.

(** The event as a WAL line written at [now] carries it: the timestamp is
    the time of the write and the member [manager_id] is empty. *)
Definition wal_image (now : string) (trans : Transaction) : Transaction :=
  TransactionRecord.mk
    (TransactionRecord.trans_id trans) (TransactionRecord.item_id trans)
    (TransactionRecord.item_name trans) (TransactionRecord.type trans)
    (TransactionRecord.quantity trans) now ""
    (TransactionRecord.note trans) (TransactionRecord.category trans)
    (TransactionRecord.model trans) (TransactionRecord.unit trans)
    (TransactionRecord.unit_price trans) (TransactionRecord.partner_id trans)
    (TransactionRecord.partner_name trans) (TransactionRecord.warehouse_id trans)
    (TransactionRecord.document_no trans).

(** The lines of all segments in the order in which recovery reads them. *)
Definition wal_lines (fs : Dir) : list string :=
  flat_map (fun wal_file => file_lines (default "" (fs !! wal_file))) (getWALFiles fs).

(** The event that recovery appends to the sequence of the tenant
    [manager_id] for a line, if any. *)
Definition parsed_for (manager_id : string) (line : string) : option Transaction :=
  if Str.empty line then None
  else
    match deserializeTransaction line with
    | Some (m, trans) => if decide (m = manager_id) then Some trans else None
    | None => None
    end.

(** ** The records of the WAL, in the words of the format

    "One record per line, [|]-delimited, exactly 16 fields in this order:
    timestamp|tenant_id|trans_id|item_id|item_name|type|quantity|
    unit_price|category|model|unit|partner_id|partner_name|warehouse_id|
    document_no|note."  The definitions of this part follow these words
    and not the parser: they use neither [deserializeTransaction] nor the
    field loop [Str.getlines].  The properties compare recovery with
    them. *)

(** The number of occurrences of a character in a line. *)
Fixpoint count_char (c : ascii) (line : string) : nat :=
  match line with
  | EmptyString => 0%nat
  | String a line' => ((if Ascii.eqb a c then 1 else 0) + count_char c line')%nat
  end.

Fixpoint last_char (line : string) : option ascii :=
  match line with
  | EmptyString => None
  | String a line' =>
      match last_char line' with
      | None => Some a
      | Some c => Some c
      end
  end.

(** The number of fields of a line: the delimiters cut the line into one
    piece more than there are delimiters, and an empty piece after a
    final delimiter is no field; the empty line has no field. *)
Definition field_count (delim : ascii) (line : string) : nat :=
  match last_char line with
  | None => 0%nat
  | Some c =>
      if Ascii.eqb c delim then count_char delim line
      else S (count_char delim line)
  end.

Module WalRecord.

(** The sixteen fields of a record, as text. *)
Record t : Type := mk {
  timestamp : string;
  tenant_id : string;
  trans_id : string;
  item_id : string;
  item_name : string;
  type : string;
  quantity : string;
  unit_price : string;
  category : string;
  model : string;
  unit : string;
  partner_id : string;
  partner_name : string;
  warehouse_id : string;
  document_no : string;
  note : string
}.

Definition fields (r : t) : list string :=
  [ timestamp r; tenant_id r; trans_id r; item_id r; item_name r; type r;
    quantity r; unit_price r; category r; model r; unit r; partner_id r;
    partner_name r; warehouse_id r; document_no r; note r ].

(** The line of a record: its fields with the delimiter between them. *)
Definition line (r : t) : string := Str.join bar (fields r).

(** A well-formed record: no field holds the delimiter, the last field is
    not empty, the quantity is a numeral that [std::stoi] reads and the
    price one that [std::stod] reads. *)
Definition well_formed (r : t) : Prop :=
  Forall (fun f => Str.contains bar f = false) (fields r)
  /\ note r <> ""
  /\ is_Some (Num.stoi (quantity r))
  /\ is_Some (Num.stod (unit_price r)).

(** The event that a record stands for: every member is the field of its
    name, the quantity and the price as numbers.  The tenant is not a
    member of the event: [manager_id] is as the default constructor
    leaves it. *)
Definition event (r : t) : Transaction :=
  TransactionRecord.mk (trans_id r) (item_id r) (item_name r) (type r)
    (default 0 (Num.stoi (quantity r))) (timestamp r) "" (note r)
    (category r) (model r) (unit r)
    (default d_zero (Num.stod (unit_price r)))
    (partner_id r) (partner_name r) (warehouse_id r) (document_no r).

End WalRecord.

(** A line of a segment: the line of a record, or some other text. *)
Inductive WalEntry : Type :=
  | RecordLine (r : WalRecord.t)
  | OtherLine (line : string).

Definition entry_line (e : WalEntry) : string :=
  match e with
  | RecordLine r => WalRecord.line r
  | OtherLine line => line
  end.

(** A malformed line: its number of fields is not sixteen. *)
Definition malformed (line : string) : Prop := field_count bar line <> 16%nat.

(** The lines that the property of the malformed line speaks of: the
    lines of well-formed records, and malformed lines. *)
Definition record_or_malformed (e : WalEntry) : Prop :=
  match e with
  | RecordLine r => WalRecord.well_formed r
  | OtherLine line => malformed line
  end.

(** The events of the records of a tenant among lines, in the order of
    the lines. *)
Definition record_events (manager_id : string) (entries : list WalEntry) :
  list Transaction :=
  flat_map
    (fun e =>
       match e with
       | RecordLine r =>
           if decide (WalRecord.tenant_id r = manager_id)
           then [WalRecord.event r] else []
       | OtherLine _ => []
       end)
    entries.

(** ** Sample inputs *)

Definition price_2 : double := double_of_int 2.
Definition price_3 : double := double_of_int 3.
Definition price_4 : double := double_of_int 4.

Definition sample_in : Transaction :=
  TransactionRecord.mk "T1" "I1" "Widget" "in" 10 "2024-01-15T10:30:00" "manager001"
    "first batch" "tools" "W-1" "pcs" price_2 "P1" "Supplier" "WH1" "DOC1".

(** The same event without a note. *)
Definition sample_no_note : Transaction :=
  TransactionRecord.mk "T1" "I1" "Widget" "in" 10 "2024-01-15T10:30:00" "manager001"
    "" "tools" "W-1" "pcs" price_2 "P1" "Supplier" "WH1" "DOC1".

(** The same event at the price 19.999. *)
Definition price_fine : double :=
  Eval vm_compute in default d_zero (Num.stod "19.999").

Definition sample_fine_price : Transaction :=
  TransactionRecord.mk "T1" "I1" "Widget" "in" 10 "2024-01-15T10:30:00" "manager001"
    "first batch" "tools" "W-1" "pcs" price_fine "P1" "Supplier" "WH1" "DOC1".

(** Two readings of the clock and the timestamps they give. *)
Definition sample_clock : Clock := mkClock 2024 6 1 8 0 0 0.
Definition sample_clock_later : Clock := mkClock 2024 6 1 8 0 1 250.

Definition sample_now : string := "2024-06-01T08:00:00.000Z".
Definition sample_later : string := "2024-06-01T08:00:01.250Z".

Definition sample_env : Env := mkEnv sample_clock NoFault.
Definition sample_env_later : Env := mkEnv sample_clock_later NoFault.
Definition sample_boot : BootEnv := mkBootEnv true true true.

Definition sample_out : Transaction :=
  TransactionRecord.mk "T2" "I1" "Widget" "out" 4 "2024-01-16T09:00:00" "manager001"
    "sold" "tools" "W-1" "pcs" price_3 "C1" "Customer" "WH1" "DOC2".

Definition sample_line_1 : string :=
  serializeTransaction sample_clock "manager001" sample_in.
Definition sample_line_2 : string :=
  serializeTransaction sample_clock_later "manager001" sample_out.

(** A truncated record: seven fields. *)
Definition sample_bad_line : string := "2024-06-01T08:00:00.500Z|manager001|T9|I1|Widget|in|5".

(** A data directory whose segment holds a malformed line between two
    well-formed ones. *)
Definition sample_damaged_dir : Dir :=
  {[ "current.wal" :=
       sample_line_1 +:+ String newline
         (sample_bad_line +:+ String newline (sample_line_2 +:+ String newline "")) ]}.

(** The records of the two well-formed sample lines. *)
Definition sample_record_1 : WalRecord.t :=
  WalRecord.mk "2024-06-01T08:00:00.000Z" "manager001" "T1" "I1" "Widget" "in"
    "10" "2.00" "tools" "W-1" "pcs" "P1" "Supplier" "WH1" "DOC1" "first batch".

Definition sample_record_2 : WalRecord.t :=
  WalRecord.mk "2024-06-01T08:00:01.250Z" "manager001" "T2" "I1" "Widget" "out"
    "4" "3.00" "tools" "W-1" "pcs" "C1" "Customer" "WH1" "DOC2" "sold".

(** A record of another tenant, and a directory with two segments: records
    of two tenants, a truncated line, an empty line and a line with
    seventeen fields among them. *)
Definition sample_record_3 : WalRecord.t :=
  WalRecord.mk "2024-06-01T08:00:00.750Z" "manager002" "T1" "I7" "Gadget" "in"
    "3" "12.50" "parts" "G-7" "box" "P2" "Vendor" "WH2" "DOC9" "restock".

Definition sample_long_line : string := WalRecord.line sample_record_3 +:+ "|extra".

Definition sample_mixed_dir : Dir :=
  {[ "current.wal" :=
       WalRecord.line sample_record_1 +:+ String newline
         (sample_bad_line +:+ String newline
            (WalRecord.line sample_record_3 +:+ String newline ""));
     "wal_20240601_080001.wal" :=
       sample_long_line +:+ String newline
         (WalRecord.line sample_record_2 +:+ String newline "") ]}.

(** ** Runs of the store *)

(** A sequence of calls of [appendTransaction], each with what it reads
    from its environment: the results, the store and the directory at the
    end. *)
Fixpoint append_all (ops : list (Env * string * Transaction))
    (db : MemoryDatabase.t) (fs : Dir) : list Result * MemoryDatabase.t * Dir :=
  match ops with
  | [] => ([], db, fs)
  | (env, manager_id, trans) :: ops' =>
      let '(r, db1, fs1) := appendTransaction env manager_id trans db fs in
      let '(rs, db2, fs2) := append_all ops' db1 fs1 in
      (r :: rs, db2, fs2)
  end.

(** The events of the calls for the tenant [manager_id] that succeeded, in
    the order of the calls. *)
Definition accepted_for (manager_id : string)
    (ops : list (Env * string * Transaction)) (rs : list Result) : list Transaction :=
  omap (fun p : (Env * string * Transaction) * Result =>
          if isSuccess p.2 && bool_decide (p.1.1.2 = manager_id) then Some p.1.2 else None)
       (zip ops rs).

(** The stores and directories that a process reaches: it constructs the
    store on a data directory, appends, and switches persistence. *)
Inductive reachable : MemoryDatabase.t -> Dir -> Prop :=
| reach_new b data_dir fs :
    reachable (MemoryDatabase_new b data_dir fs).1 (MemoryDatabase_new b data_dir fs).2
| reach_append env manager_id trans db fs :
    reachable db fs ->
    reachable (appendTransaction env manager_id trans db fs).1.2
              (appendTransaction env manager_id trans db fs).2
| reach_enable enable db fs :
    reachable db fs -> reachable (enablePersistence enable db) fs.

(** The published length of every tenant is the length of its sequence. *)
Definition counts_match (db : MemoryDatabase.t) : Prop :=
  forall manager_id data,
    MemoryDatabase.managers_ db !! manager_id = Some data ->
    ManagerData.count data = length (ManagerData.transactions data).

(** The checks of the first step of [appendTransaction]. *)
Definition valid_event (manager_id : string) (trans : Transaction) : Prop :=
  manager_id <> ""
  /\ TransactionRecord.trans_id trans <> ""
  /\ TransactionRecord.item_id trans <> ""
  /\ (TransactionRecord.type trans = "in" \/ TransactionRecord.type trans = "out")
  /\ 0 < TransactionRecord.quantity trans.

(** The ids of the published events of a tenant. *)
Definition published_ids (db : MemoryDatabase.t) (manager_id : string) : list string :=
  map TransactionRecord.trans_id (getTransactions db manager_id).

(** C5 as it is stated: the call is answered with the duplicate error and
    leaves the store as it was. *)
Definition duplicate_rejected (env : Env) (manager_id : string) (trans : Transaction)
    (db : MemoryDatabase.t) (fs : Dir) : Prop :=
  (appendTransaction env manager_id trans db fs).1.1
  = Error DUPLICATE_TRANSACTION_ID "Transaction ID already exists"
  /\ getTransactionCount (appendTransaction env manager_id trans db fs).1.2 manager_id
     = getTransactionCount db manager_id
  /\ getTransactions (appendTransaction env manager_id trans db fs).1.2 manager_id
     = getTransactions db manager_id.

(** A store constructed on an empty directory, and the store after a first
    event was appended. *)
Definition sample_store0 : MemoryDatabase.t * Dir :=
  MemoryDatabase_new sample_boot "./data" ∅.

Definition sample_store1 : MemoryDatabase.t * Dir :=
  let r := appendTransaction sample_env "manager001" sample_in
             sample_store0.1 sample_store0.2 in
  (r.1.2, r.2).

Definition sample_pm : PersistenceManager.t :=
  PersistenceManager.mk "./data" "current.wal" true 3600 (100 * 1024 * 1024) "".

(** The clock of [sample_env] with a fault after the line was flushed. *)
Definition sample_env_fault : Env :=
  mkEnv sample_clock FaultAfterFlush.

(** An event with the id of [sample_in] and a quantity that is not
    positive. *)
Definition sample_dup_zero : Transaction :=
  TransactionRecord.mk "T1" "I1" "Widget" "in" 0 "2024-01-17T10:30:00" "manager001"
    "again" "tools" "W-1" "pcs" price_2 "P1" "Supplier" "WH1" "DOC3".

(** An event with the id of [sample_in] that passes the checks. *)
Definition sample_dup : Transaction :=
  TransactionRecord.mk "T1" "I2" "Gadget" "out" 1 "2024-01-17T10:30:00" "manager001"
    "again" "tools" "G-1" "pcs" price_4 "C1" "Customer" "WH1" "DOC3".

(** ** Notions for the integrity validation *)

(** The field rules of [validateDataIntegrity]: the rules of
    [appendTransaction] for the members of the event. *)
Definition required_fields (trans : Transaction) : Prop :=
  TransactionRecord.trans_id trans <> ""
  /\ TransactionRecord.item_id trans <> ""
  /\ (TransactionRecord.type trans = "in" \/ TransactionRecord.type trans = "out")
  /\ 0 < TransactionRecord.quantity trans.

(** The timestamps of a sequence are non-decreasing: every timestamp is at
    most every later one, in the order of strings. *)
Definition timestamps_nondecreasing (transactions : list Transaction) : Prop :=
  StronglySorted String.le (map TransactionRecord.timestamp transactions).

(** A data directory whose segment holds two well-formed lines with the
    later time first. *)
Definition sample_disordered_dir : Dir :=
  {[ "current.wal" :=
       sample_line_2 +:+ String newline (sample_line_1 +:+ String newline "") ]}.

(** ** Notions for the derived views *)

(** The key of the position that an event moves. *)
Definition position_key (trans : Transaction) : string * string :=
  (TransactionRecord.warehouse_id trans, TransactionRecord.item_id trans).

(** The position of the key of an event before the event is applied: the
    stored one, or a new one with quantity 0 and price 0.0. *)
Definition position_before
    (inventory_map : gmap (string * string) InventoryRecord.t)
    (trans : Transaction) : InventoryRecord.t :=
  default
    (InventoryRecord.mk (TransactionRecord.item_id trans)
       (TransactionRecord.warehouse_id trans) 0 d_zero)
    (inventory_map !! position_key trans).

(** [(old_qty * old_avg + qty * unit_price) / (old_qty + qty)] in [double]
    arithmetic, the quantities converted from [int]. *)
Definition weighted_average (old_qty : Z) (old_avg : double) (qty : Z)
    (unit_price : double) : double :=
  d_div (d_add (d_mul (double_of_int old_qty) old_avg)
               (d_mul (double_of_int qty) unit_price))
        (double_of_int (old_qty + qty)).

(** The positions of a tenant before the filter on the quantity. *)
Definition positions_of (db : MemoryDatabase.t) (manager_id : string) :
  gmap (string * string) InventoryRecord.t :=
  fold_left inventory_step (getTransactions db manager_id) ∅.

(** The events of the scenarios: two receipts and an issue of one item. *)
Definition scenario_A : Transaction :=
  TransactionRecord.mk "T1" "I1" "" "in" 10 "" "" "" "" "" "" price_2 "" "" "" "".
Definition scenario_B : Transaction :=
  TransactionRecord.mk "T2" "I1" "" "in" 10 "" "" "" "" "" "" price_4 "" "" "" "".
Definition scenario_C : Transaction :=
  TransactionRecord.mk "T3" "I1" "" "out" 25 "" "" "" "" "" "" d_zero "" "" "" "".

Definition scenario_AB : MemoryDatabase.t :=
  (append_all [(sample_env, "manager001", scenario_A);
               (sample_env_later, "manager001", scenario_B)]
     sample_store0.1 sample_store0.2).1.2.

Definition scenario_ABC : MemoryDatabase.t :=
  (append_all [(sample_env, "manager001", scenario_A);
               (sample_env_later, "manager001", scenario_B);
               (sample_env_later, "manager001", scenario_C)]
     sample_store0.1 sample_store0.2).1.2.

(** The members of a summary that follow the latest event, and the
    corresponding members of an event. *)
Definition latest_fields (s : ItemSummary.t) : string * string * string * string * double :=
  (ItemSummary.item_name s, ItemSummary.category s, ItemSummary.model s,
   ItemSummary.unit s, ItemSummary.latest_price s).

Definition event_fields (trans : Transaction) : string * string * string * string * double :=
  (TransactionRecord.item_name trans, TransactionRecord.category trans,
   TransactionRecord.model trans, TransactionRecord.unit trans,
   TransactionRecord.unit_price trans).

(** The events of an item, in the order of the sequence. *)
Definition events_of_item (item : string) (transactions : list Transaction) :
  list Transaction :=
  filter (fun trans => TransactionRecord.item_id trans = item) transactions.

(** Two events of one item with the same timestamp and different names,
    categories, models, units and prices. *)
Definition tie_first : Transaction :=
  TransactionRecord.mk "T1" "I1" "Old name" "in" 5 "2024-01-15T10:30:00" "manager001"
    "n" "old category" "old model" "box" price_2 "P1" "Supplier" "WH1" "DOC1".

Definition tie_later : Transaction :=
  TransactionRecord.mk "T2" "I1" "New name" "in" 5 "2024-01-15T10:30:00" "manager001"
    "n" "new category" "new model" "pcs" price_4 "P1" "Supplier" "WH1" "DOC2".

(** ** Notions for the restart *)

(** The directory holds one segment, [current.wal], with the content
    [content]. *)
Definition only_segment (fs : Dir) (content : string) : Prop :=
  fs !! "current.wal" = Some content
  /\ forall f, is_wal_name f = true -> f <> "current.wal" -> fs !! f = None.

(** The line of a call, and the text that a sequence of calls appends to
    the segment when each of them writes its line. *)
Definition line_of (op : Env * string * Transaction) : string :=
  serializeTransaction (clock op.1.1) op.1.2 op.2.

Definition wal_text (ops : list (Env * string * Transaction)) : string :=
  fold_right (fun op rest => line_of op +:+ String newline rest) "" ops.

(** The calls for one tenant. *)
Definition ops_of (manager_id : string) (ops : list (Env * string * Transaction)) :
  list (Env * string * Transaction) :=
  filter (fun op => op.1.2 = manager_id) ops.

(** What the WAL format carries of a call: the tenant id and the string
    members hold neither the delimiter nor a line feed, the note is not
    empty, the quantity is an [int] and the price survives its two
    fractional digits. *)
Definition wal_safe (op : Env * string * Transaction) : Prop :=
  free_of bar op.1.2 op.2
  /\ free_of newline op.1.2 op.2
  /\ TransactionRecord.note op.2 <> ""
  /\ in_int (TransactionRecord.quantity op.2)
  /\ price_survives op.2.

(** Whether the write to the stream fails. *)
Definition stream_fails (f : Fault) : bool :=
  match f with
  | FaultInWrite _ => true
  | _ => false
  end.

(** The write of a call reaches the file: the stream does not fail in it. *)
Definition write_reaches_file (op : Env * string * Transaction) : Prop :=
  stream_fails (fault op.1.1) = false.

(** For every tenant the times of the writes are non-decreasing. *)
Definition write_times_in_order (ops : list (Env * string * Transaction)) : Prop :=
  forall manager_id,
    StronglySorted String.le (map (fun op => now op.1.1) (ops_of manager_id ops)).

(** The directory holds no segment but [current.wal], and this segment,
    once the stream is opened on it, holds the lines of the calls
    [earlier]: the directory is new ([earlier] is empty) or as such calls
    left it. *)
Definition holds_log (fs0 : Dir) (earlier : list (Env * string * Transaction)) : Prop :=
  only_segment (appendToFile "current.wal" "" fs0) (wal_text earlier).

(** A store is constructed on the directory [fs0], the calls [ops] are
    made, and a second store is constructed on the directory as the calls
    left it: the results of the calls, the first store at the end, and the
    second store. *)
Definition run_results (b : BootEnv) (data_dir : string) (fs0 : Dir)
    (ops : list (Env * string * Transaction)) : list Result :=
  (append_all ops (MemoryDatabase_new b data_dir fs0).1
     (MemoryDatabase_new b data_dir fs0).2).1.1.

Definition store_before_restart (b : BootEnv) (data_dir : string) (fs0 : Dir)
    (ops : list (Env * string * Transaction)) : MemoryDatabase.t :=
  (append_all ops (MemoryDatabase_new b data_dir fs0).1
     (MemoryDatabase_new b data_dir fs0).2).1.2.

Definition store_after_restart (b b' : BootEnv) (data_dir : string) (fs0 : Dir)
    (ops : list (Env * string * Transaction)) : MemoryDatabase.t :=
  (MemoryDatabase_new b' data_dir
     (append_all ops (MemoryDatabase_new b data_dir fs0).1
        (MemoryDatabase_new b data_dir fs0).2).2).1.

(** C4 as it is stated: after the restart the tenant has the events it had
    before. *)
Definition recovery_is_faithful (b b' : BootEnv) (data_dir : string) (fs0 : Dir)
    (ops : list (Env * string * Transaction)) (manager_id : string) : Prop :=
  getTransactions (store_after_restart b b' data_dir fs0 ops) manager_id
  = getTransactions (store_before_restart b data_dir fs0 ops) manager_id.

(** The persistence manager as its constructor leaves it. *)
Definition fresh_manager (data_dir : string) : PersistenceManager.t :=
  PersistenceManager.mk data_dir "current.wal" true 3600 (100 * 1024 * 1024) "".

(** The event that recovery reads from the line of a call. *)
Definition recovered_event (op : Env * string * Transaction) : Transaction :=
  wal_image (now op.1.1) op.2.

(** The sample write fails in the stream: nothing of the line reaches the
    file, or its first forty characters do. *)
Definition sample_env_lost : Env := mkEnv sample_clock (FaultInWrite 0).
Definition sample_env_torn : Env := mkEnv sample_clock (FaultInWrite 40).

(** The calls of the sample run. *)
Definition sample_ops : list (Env * string * Transaction) :=
  [(sample_env, "manager001", sample_in); (sample_env_later, "manager001", sample_out)].

(** ** Documents, queries and statistics ([transaction.h], [memory_database.cpp]) *)

Module DocumentSummary.

Record t : Type := mk {
  document_no : string;
  type : string;
  partner_id : string;
  partner_name : string;
  manager_id : string;
  timestamp : string;
  total_amount : double;
  item_count : Z
}.

End DocumentSummary.

Module InOutSummary.

Record t : Type := mk {
  in_quantity : Z;
  out_quantity : Z;
  in_amount : double;
  out_amount : double
}.

(** [InOutSummary() : in_quantity(0), out_quantity(0), in_amount(0.0),
    out_amount(0.0) {}] *)
Definition default : t := mk 0 0 d_zero d_zero.

End InOutSummary.

Module SystemStatus.

(** The product in [memory_usage_kb] is a [size_t] product and is reduced
    to 64 bits. *)
Record t : Type := mk {
  total_managers : nat;
  total_transactions : nat;
  memory_usage_kb : N
}.

End SystemStatus.

(** The entries of a [std::map] keyed by strings, in the order in which a
    range-[for] visits them. *)
Definition name_le {V : Type} (a b : string * V) : Prop := String.le a.1 b.1.

#[global] Instance name_le_dec {V : Type} (a b : string * V) :
  Decision (name_le a b).
Proof. unfold name_le. apply _. Defined.

Definition in_name_order {V : Type} (m : gmap string V) : list (string * V) :=
  merge_sort name_le (map_to_list m).

(** One iteration of the loop of [MemoryDatabase::buildDocumentSummaryMap]:
    an event without a document number is passed over; the summary of a
    new document takes its header from the event, with the amount 0.0 and
    the count 0; then the amount and the count grow and the timestamp is
    lowered to the one of the event when that is smaller. *)
Definition document_summary_step
    (doc_map : gmap string DocumentSummary.t) (trans : Transaction) :
  gmap string DocumentSummary.t :=
  if Str.empty (TransactionRecord.document_no trans) then doc_map
  else
    let key := TransactionRecord.document_no trans in
    let summary :=
      match doc_map !! key with
      | Some s => s
      | None =>
          DocumentSummary.mk (TransactionRecord.document_no trans)
            (TransactionRecord.type trans) (TransactionRecord.partner_id trans)
            (TransactionRecord.partner_name trans) (TransactionRecord.manager_id trans)
            (TransactionRecord.timestamp trans) d_zero 0
      end in
    let summary' :=
      DocumentSummary.mk (DocumentSummary.document_no summary)
        (DocumentSummary.type summary) (DocumentSummary.partner_id summary)
        (DocumentSummary.partner_name summary) (DocumentSummary.manager_id summary)
        (if Str.ltb (TransactionRecord.timestamp trans) (DocumentSummary.timestamp summary)
         then TransactionRecord.timestamp trans
         else DocumentSummary.timestamp summary)
        (d_add (DocumentSummary.total_amount summary)
               (TransactionRecord.getTotalAmount trans))
        (int_add (DocumentSummary.item_count summary) 1) in
    <[key := summary']> doc_map.

Definition buildDocumentSummaryMap (transactions : list Transaction) :
  gmap string DocumentSummary.t :=
  fold_left document_summary_step transactions ∅.

(** [getCurrentItems]: the summaries with a positive quantity, in the order
    of the item ids. *)
Definition getCurrentItems (db : MemoryDatabase.t) (manager_id : string) :
  list ItemSummary.t :=
  let transactions := getTransactions db manager_id in
  let item_map := buildItemSummaryMap transactions in
  fold_left
    (fun result (pair : string * ItemSummary.t) =>
       if 0 <? ItemSummary.total_quantity pair.2 then result ++ [pair.2] else result)
    (in_name_order item_map) [].

Definition getDocuments (db : MemoryDatabase.t) (manager_id : string) :
  list DocumentSummary.t :=
  let transactions := getTransactions db manager_id in
  let doc_map := buildDocumentSummaryMap transactions in
  fold_left
    (fun result (pair : string * DocumentSummary.t) => result ++ [pair.2])
    (in_name_order doc_map) [].

(** [timestamp >= start_time && timestamp <= end_time] on [std::string] *)
Definition isTimeInRange (timestamp start_time end_time : string) : bool :=
  negb (Str.ltb timestamp start_time) && negb (Str.ltb end_time timestamp).

(** [timestamp.length() >= 19 && timestamp[4] == '-' && timestamp[7] == '-'
    && timestamp[10] == 'T'] *)
Definition isValidTimeFormat (timestamp : string) : bool :=
  (19 <=? String.length timestamp)%nat
  && bool_decide (String.get 4 timestamp = Some "-"%char)
  && bool_decide (String.get 7 timestamp = Some "-"%char)
  && bool_decide (String.get 10 timestamp = Some "T"%char).

Definition getTransactionsByTimeRange (db : MemoryDatabase.t)
    (manager_id start_time end_time : string) : list Transaction :=
  let transactions := getTransactions db manager_id in
  fold_left
    (fun result trans =>
       if isTimeInRange (TransactionRecord.timestamp trans) start_time end_time
       then result ++ [trans] else result)
    transactions [].

Definition getTransactionsByItem (db : MemoryDatabase.t)
    (manager_id item_id : string) : list Transaction :=
  let transactions := getTransactions db manager_id in
  fold_left
    (fun result trans =>
       if Str.eqb (TransactionRecord.item_id trans) item_id
       then result ++ [trans] else result)
    transactions [].

Definition getTransactionsByDocument (db : MemoryDatabase.t)
    (manager_id document_no : string) : list Transaction :=
  let transactions := getTransactions db manager_id in
  fold_left
    (fun result trans =>
       if Str.eqb (TransactionRecord.document_no trans) document_no
       then result ++ [trans] else result)
    transactions [].

Definition getTransactionsByPartner (db : MemoryDatabase.t)
    (manager_id partner_id : string) : list Transaction :=
  let transactions := getTransactions db manager_id in
  fold_left
    (fun result trans =>
       if Str.eqb (TransactionRecord.partner_id trans) partner_id
       then result ++ [trans] else result)
    transactions [].

Definition getTotalTransactionCount (db : MemoryDatabase.t) (manager_id : string) : nat :=
  getTransactionCount db manager_id.

Definition getItemTypeCount (db : MemoryDatabase.t) (manager_id : string) : nat :=
  let transactions := getTransactions db manager_id in
  let item_map := buildItemSummaryMap transactions in
  fold_left
    (fun count (pair : string * ItemSummary.t) =>
       if 0 <? ItemSummary.total_quantity pair.2 then S count else count)
    (in_name_order item_map) 0%nat.

(** One iteration of the loop of [getInOutSummary]: an event that is not
    inbound counts as outbound. *)
Definition in_out_step (summary : InOutSummary.t) (trans : Transaction) :
  InOutSummary.t :=
  if TransactionRecord.isInbound trans then
    InOutSummary.mk
      (int_add (InOutSummary.in_quantity summary) (TransactionRecord.quantity trans))
      (InOutSummary.out_quantity summary)
      (d_add (InOutSummary.in_amount summary) (TransactionRecord.getTotalAmount trans))
      (InOutSummary.out_amount summary)
  else
    InOutSummary.mk
      (InOutSummary.in_quantity summary)
      (int_add (InOutSummary.out_quantity summary) (TransactionRecord.quantity trans))
      (InOutSummary.in_amount summary)
      (d_add (InOutSummary.out_amount summary) (TransactionRecord.getTotalAmount trans)).

Definition getInOutSummary (db : MemoryDatabase.t)
    (manager_id start_time end_time : string) : InOutSummary.t :=
  let transactions := getTransactionsByTimeRange db manager_id start_time end_time in
  fold_left in_out_step transactions InOutSummary.default.

(** [result[pair.second.category] += pair.second.total_quantity] under the
    guard [pair.second.total_quantity > 0]; a new entry of the result
    starts at 0. *)
Definition category_step (result : gmap string Z) (pair : string * ItemSummary.t) :
  gmap string Z :=
  if 0 <? ItemSummary.total_quantity pair.2 then
    <[ItemSummary.category pair.2 :=
        int_add (default 0 (result !! ItemSummary.category pair.2))
                (ItemSummary.total_quantity pair.2)]> result
  else result.

Definition getInventoryByCategory (db : MemoryDatabase.t) (manager_id : string) :
  gmap string Z :=
  let transactions := getTransactions db manager_id in
  let item_map := buildItemSummaryMap transactions in
  fold_left category_step (in_name_order item_map) ∅.

(** [getAllManagerIds]: the keys in the order in which the
    [std::unordered_map] is iterated, which the language leaves open. *)
Definition getAllManagerIds (db : MemoryDatabase.t) : list string :=
  fold_left
    (fun result (pair : string * ManagerData.t) => result ++ [pair.1])
    (map_to_list (MemoryDatabase.managers_ db)) [].

Definition getSystemStatus (db : MemoryDatabase.t) : SystemStatus.t :=
  let total_managers := size (MemoryDatabase.managers_ db) in
  let total_transactions :=
    fold_left
      (fun total (pair : string * ManagerData.t) =>
         (total + ManagerData.count pair.2)%nat)
      (map_to_list (MemoryDatabase.managers_ db)) 0%nat in
  SystemStatus.mk total_managers total_transactions
    ((N.of_nat total_transactions * 500) mod 2 ^ 64 / 1024)%N.

(** [generateTransactionId]: [TXN], the reading of the clock in local time
    as [%Y%m%d%H%M%S], and the milliseconds in three digits. *)
Definition generateTransactionId (local : Clock) : string :=
  "TXN" +:+ dec (year local) +:+ put_width 2 (month local) +:+ put_width 2 (day local)
  +:+ put_width 2 (hour local) +:+ put_width 2 (minute local)
  +:+ put_width 2 (second local) +:+ put_width 3 (millis local).

(** ** Snapshots ([persistence.cpp]) *)

Definition is_snapshot_name (f : string) : bool :=
  String.prefix "snapshot_" f && Str.ends_with f ".json".

(** [getSnapshotFiles]: the names of the snapshots, sorted. *)
Definition getSnapshotFiles (fs : Dir) : list string :=
  merge_sort String.le (List.filter is_snapshot_name (map fst (map_to_list fs))).

(** The body of the loop of [recoverFromSnapshot] for one line: empty
    lines and lines that start with [#] are passed over, and for the other
    lines the body holds no statement. *)
Definition snapshot_line (data : gmap string (list Transaction)) (line : string) :
  gmap string (list Transaction) :=
  if Str.empty line || bool_decide (String.get 0 line = Some "#"%char) then data
  else data.

Definition recoverFromSnapshot (fs : Dir) : gmap string (list Transaction) :=
  match last (getSnapshotFiles fs) with
  | None => ∅
  | Some latest_snapshot =>
      match fs !! latest_snapshot with
      | None => ∅
      | Some content => fold_left snapshot_line (file_lines content) ∅
      end
  end.

(** [flushWAL]: whether the stream is open. *)
Definition flushWAL (pm : PersistenceManager.t) : bool :=
  PersistenceManager.wal_is_open pm.

(** ** Notions for the documents, queries and statistics *)

(** The quantity of an event with the sign that the summaries give it: an
    event that is not inbound is subtracted. *)
Definition signed_quantity (trans : Transaction) : Z :=
  if TransactionRecord.isInbound trans then TransactionRecord.quantity trans
  else - TransactionRecord.quantity trans.

(** The sum of the signed quantities of a sequence of events. *)
Definition net_quantity (transactions : list Transaction) : Z :=
  foldr (fun trans total => signed_quantity trans + total) 0 transactions.

(** The sum of the quantities of a list of summaries. *)
Definition total_quantity_of (items : list ItemSummary.t) : Z :=
  foldr (fun s total => ItemSummary.total_quantity s + total) 0 items.

(** The summaries of a category. *)
Definition items_of_category (category : string) (items : list ItemSummary.t) :
  list ItemSummary.t :=
  filter (fun s => ItemSummary.category s = category) items.

(** Strictly increasing item ids. *)
Definition item_id_lt (a b : ItemSummary.t) : Prop :=
  Str.ltb (ItemSummary.item_id a) (ItemSummary.item_id b) = true.

(** The events of a document, in the order of the sequence. *)
Definition events_of_document (document_no : string) (transactions : list Transaction) :
  list Transaction :=
  filter (fun trans => TransactionRecord.document_no trans = document_no) transactions.

(** The amounts of a sequence of events added one after the other to 0.0,
    in the order of the sequence. *)
Definition amount_of (transactions : list Transaction) : double :=
  fold_left (fun total trans => d_add total (TransactionRecord.getTotalAmount trans))
    transactions d_zero.

(** The members of a document summary that are taken from an event when
    the document is met for the first time, and these members of an event. *)
Definition document_header (s : DocumentSummary.t) :
  string * string * string * string * string :=
  (DocumentSummary.document_no s, DocumentSummary.type s, DocumentSummary.partner_id s,
   DocumentSummary.partner_name s, DocumentSummary.manager_id s).

Definition event_header (trans : Transaction) :
  string * string * string * string * string :=
  (TransactionRecord.document_no trans, TransactionRecord.type trans,
   TransactionRecord.partner_id trans, TransactionRecord.partner_name trans,
   TransactionRecord.manager_id trans).

(** Strictly increasing document numbers. *)
Definition document_no_lt (a b : DocumentSummary.t) : Prop :=
  Str.ltb (DocumentSummary.document_no a) (DocumentSummary.document_no b) = true.

(** Three events of two documents and one event without a document; the
    second event of the first document is the earlier one. *)
Definition doc_event_1 : Transaction :=
  TransactionRecord.mk "T1" "I1" "Widget" "in" 10 "2024-01-15T10:30:00" "manager001"
    "n" "tools" "W-1" "pcs" price_2 "P1" "Supplier" "WH1" "DOC1".
Definition doc_event_2 : Transaction :=
  TransactionRecord.mk "T2" "I2" "Gadget" "out" 3 "2024-01-14T08:00:00" "manager001"
    "n" "tools" "G-1" "pcs" price_4 "C9" "Customer" "WH1" "DOC1".
Definition doc_event_3 : Transaction :=
  TransactionRecord.mk "T3" "I1" "Widget" "in" 1 "2024-01-16T10:30:00" "manager001"
    "n" "tools" "W-1" "pcs" price_3 "P1" "Supplier" "WH1" "DOC0".
Definition doc_event_4 : Transaction :=
  TransactionRecord.mk "T4" "I1" "Widget" "in" 1 "2024-01-17T10:30:00" "manager001"
    "n" "tools" "W-1" "pcs" price_3 "P1" "Supplier" "WH1" "".

Definition doc_store : MemoryDatabase.t :=
  (append_all [(sample_env, "manager001", doc_event_1);
               (sample_env_later, "manager001", doc_event_2);
               (sample_env_later, "manager001", doc_event_3);
               (sample_env_later, "manager001", doc_event_4)]
     sample_store0.1 sample_store0.2).1.2.

(** What the summary of a document says of the events of the document:
    the header is the one of the first event, the count is the number of
    the events, the amount is the sum of their amounts, and the timestamp
    is the least of their timestamps. *)
Definition summarises (s : DocumentSummary.t) (events : list Transaction) : Prop :=
  exists first rest,
    events = first :: rest
    /\ document_header s = event_header first
    /\ DocumentSummary.item_count s = wrap_int (Z.of_nat (length events))
    /\ DocumentSummary.total_amount s = amount_of events
    /\ DocumentSummary.timestamp s ∈ map TransactionRecord.timestamp events
    /\ Forall (fun x => String.le (DocumentSummary.timestamp s)
                          (TransactionRecord.timestamp x)) events.

(** The summaries of the two documents of [doc_store]. *)
Definition doc_summary_0 : DocumentSummary.t :=
  DocumentSummary.mk "DOC0" "in" "P1" "Supplier" "manager001" "2024-01-16T10:30:00"
    (double_of_int 3) 1.
Definition doc_summary_1 : DocumentSummary.t :=
  DocumentSummary.mk "DOC1" "in" "P1" "Supplier" "manager001" "2024-01-14T08:00:00"
    (double_of_int 32) 2.

(** The entries of the store are well formed: the published length of a
    tenant is the length of its sequence, the sequence is not empty, and
    its events satisfy the field rules. *)
Definition tenants_well_formed (db : MemoryDatabase.t) : Prop :=
  forall manager_id data,
    MemoryDatabase.managers_ db !! manager_id = Some data ->
    ManagerData.count data = length (ManagerData.transactions data)
    /\ ManagerData.transactions data <> []
    /\ Forall required_fields (ManagerData.transactions data).

(** The sum of the quantities of a sequence of events. *)
Definition quantity_of (transactions : list Transaction) : Z :=
  foldr (fun trans total => TransactionRecord.quantity trans + total) 0 transactions.

(** The inbound events of a sequence, and the others. *)
Definition inbound_of (transactions : list Transaction) : list Transaction :=
  filter (fun trans => TransactionRecord.type trans = "in") transactions.

Definition not_inbound_of (transactions : list Transaction) : list Transaction :=
  filter (fun trans => TransactionRecord.type trans <> "in") transactions.

Definition outbound_of (transactions : list Transaction) : list Transaction :=
  filter (fun trans => TransactionRecord.type trans = "out") transactions.

(** The segment of [sample_disordered_dir] with one more line. *)
Definition sample_disordered_longer : Dir :=
  {[ "current.wal" :=
       sample_line_2 +:+ String newline
         (sample_line_1 +:+ String newline (sample_line_2 +:+ String newline "")) ]}.

(** The events of a position, in the order of the sequence. *)
Definition events_of_position (key : string * string) (transactions : list Transaction) :
  list Transaction :=
  filter (fun trans => position_key trans = key) transactions.

(** ** Notions for the order of the timestamps *)

(** The decimal digit [z] as a character, and the numeral of [z] in [n]
    digits. *)
Definition digit (z : Z) : ascii := Ascii.ascii_of_nat (48 + Z.to_nat z).

Fixpoint digits (n : nat) (z : Z) : string :=
  match n with
  | O => ""
  | S k => digits k (z / 10) +:+ String (digit (z mod 10)) ""
  end.

(** The lexicographic combination of two comparisons. *)
Definition lex (a b : comparison) : comparison :=
  match a with Eq => b | _ => a end.

(** The order of the readings of the clock. *)
Definition clock_compare (c1 c2 : Clock) : comparison :=
  lex (year c1 ?= year c2)
    (lex (month c1 ?= month c2)
       (lex (day c1 ?= day c2)
          (lex (hour c1 ?= hour c2)
             (lex (minute c1 ?= minute c2)
                (lex (second c1 ?= second c2) (millis c1 ?= millis c2)))))).

(** A reading whose year prints in four digits, whose milliseconds print
    in three and whose other members print in two. *)
Definition clock_in_range (c : Clock) : Prop :=
  1000 <= year c <= 9999
  /\ 0 <= month c <= 99
  /\ 0 <= day c <= 99
  /\ 0 <= hour c <= 99
  /\ 0 <= minute c <= 99
  /\ 0 <= second c <= 99
  /\ 0 <= millis c <= 999.

(** The integers [a], [a + 1], ..., [a + n - 1]. *)
Definition range (a : Z) (n : nat) : list Z :=
  map (fun k => a + Z.of_nat k) (seq 0 n).

(** Readings of the clock around the end of the year 9999. *)
Definition clock_9999 : Clock := mkClock 9999 12 31 23 59 59 999.
Definition clock_10000 : Clock := mkClock 10000 1 1 0 0 0 0.

(** The sum of the quantities of the positions of an item over the
    warehouses, before the positions that are not positive are dropped. *)
Definition item_total (item : string)
    (inventory_map : gmap (string * string) InventoryRecord.t) : Z :=
  foldr (fun (p : (string * string) * InventoryRecord.t) total =>
           InventoryRecord.quantity p.2 + total) 0
    (filter (fun p : (string * string) * InventoryRecord.t => p.1.2 = item)
       (map_to_list inventory_map)).

(** An item that is received in one warehouse and issued from another. *)
Definition split_event_1 : Transaction :=
  TransactionRecord.mk "T1" "I1" "Widget" "in" 10 "2024-01-15T10:30:00" "manager001"
    "n" "tools" "W-1" "pcs" price_2 "P1" "Supplier" "WH1" "DOC1".
Definition split_event_2 : Transaction :=
  TransactionRecord.mk "T2" "I1" "Widget" "out" 3 "2024-01-16T10:30:00" "manager001"
    "n" "tools" "W-1" "pcs" price_2 "C1" "Customer" "WH2" "DOC2".

Definition split_store : MemoryDatabase.t :=
  (append_all [(sample_env, "manager001", split_event_1);
               (sample_env_later, "manager001", split_event_2)]
     sample_store0.1 sample_store0.2).1.2.

(** * Properties *)

(** ** The model on small inputs *)

Example getlines_plain : Str.getlines "|" "a|b" = ["a"; "b"].
Proof. reflexivity. Qed.
Example getlines_trailing_delim : Str.getlines "|" "a|b|" = ["a"; "b"].
Proof. reflexivity. Qed.
Example getlines_inner_empty : Str.getlines "|" "a||b" = ["a"; ""; "b"].
Proof. reflexivity. Qed.
Example getlines_two_trailing : Str.getlines "|" "a||" = ["a"; ""].
Proof. reflexivity. Qed.
Example getlines_nothing : Str.getlines "|" "" = [].
Proof. reflexivity. Qed.
Example stoi_plain : Num.stoi "42" = Some 42. Proof. reflexivity. Qed.
Example stoi_negative : Num.stoi "  -17abc" = Some (-17). Proof. reflexivity. Qed.
Example stoi_no_digits : Num.stoi "abc" = None. Proof. reflexivity. Qed.
Example stoi_empty : Num.stoi "" = None. Proof. reflexivity. Qed.
Example stoi_too_large : Num.stoi "2147483648" = None. Proof. reflexivity. Qed.
Example sample_clock_timestamp :
  getCurrentTimestamp sample_clock = sample_now
  /\ getCurrentTimestamp sample_clock_later = sample_later
  /\ generateWALFilename sample_clock = "wal_20240601_080000.log".
Proof. vm_compute. repeat split. Qed.

Example put_fixed2_two : Num.put_fixed2 (double_of_int 2) = "2.00".
Proof. vm_compute. reflexivity. Qed.
Example stod_three_halves : Num.stod "1.50" = Some (d_div (double_of_int 3) (double_of_int 2)).
Proof. vm_compute. reflexivity. Qed.
Example stod_put_tenth :
  option_map Num.put_fixed2 (Num.stod "0.10") = Some "0.10".
Proof. vm_compute. reflexivity. Qed.
Example stod_forms :
  Num.stod "  +2.5e1xyz" = Num.stod "25"
  /\ Num.stod "0x1.8p1" = Num.stod "3"
  /\ Num.stod "0x" = Num.stod "0"
  /\ Num.stod ".5" = Num.stod "0.5"
  /\ Num.stod "." = None
  /\ Num.stod "1e400" = None
  /\ Num.stod "1e-400" = None
  /\ Num.stod "-INF" = Some (S754_infinity true).
Proof. vm_compute. repeat split. Qed.

Example put_fixed2_rounds :
  option_map Num.put_fixed2 (Num.stod "0.125") = Some "0.12"
  /\ option_map Num.put_fixed2 (Num.stod "0.375") = Some "0.38"
  /\ option_map Num.put_fixed2 (Num.stod "0.001") = Some "0.00".
Proof. vm_compute. auto. Qed.

(** ** Splitting and joining strings *)

Section Strings.

Implicit Types (s x : string) (d c : ascii).

Lemma append_cons a s1 s2 : String a s1 +:+ s2 = String a (s1 +:+ s2).
Proof. reflexivity. Qed.

Lemma append_empty_r s : s +:+ "" = s.
Proof. induction s as [|a s IH]; [done |]. by rewrite append_cons, IH. Qed.

Lemma append_assoc s1 s2 s3 : (s1 +:+ s2) +:+ s3 = s1 +:+ (s2 +:+ s3).
Proof. induction s1 as [|a s1 IH]; [done |]. by rewrite !append_cons, IH. Qed.

Lemma length_append s1 s2 :
  String.length (s1 +:+ s2) = (String.length s1 + String.length s2)%nat.
Proof. induction s1 as [|a s1 IH]; [done |]. rewrite append_cons. simpl. by rewrite IH. Qed.

Lemma empty_true s : Str.empty s = true <-> s = "".
Proof. destruct s; simpl; split; congruence. Qed.

Lemma empty_false s : Str.empty s = false <-> s <> "".
Proof. destruct s; simpl; split; congruence. Qed.

Lemma contains_append c s1 s2 :
  Str.contains c (s1 +:+ s2) = Str.contains c s1 || Str.contains c s2.
Proof.
  induction s1 as [|a s1 IH]; [done |].
  rewrite append_cons. simpl. by rewrite IH, orb_assoc.
Qed.

Lemma getlines_delim d s :
  Str.getlines d (String d s) = "" :: Str.getlines d s.
Proof. simpl. by rewrite Ascii.eqb_refl. Qed.

(** A delimiter-free prefix followed by the delimiter is one token. *)
Lemma getlines_token d x rest :
  Str.contains d x = false ->
  Str.getlines d (x +:+ String d rest) = x :: Str.getlines d rest.
Proof.
  induction x as [|a x IH]; intros Hx.
  - apply getlines_delim.
  - simpl in Hx. apply orb_false_iff in Hx as [Ha Hx].
    rewrite append_cons. cbn [Str.getlines]. rewrite Ha, (IH Hx). done.
Qed.

(** A delimiter-free, non-empty rest of the input is the last token. *)
Lemma getlines_last d x :
  Str.contains d x = false -> x <> "" -> Str.getlines d x = [x].
Proof.
  induction x as [|a x IH]; intros Hx Hne; [done |].
  simpl in Hx. apply orb_false_iff in Hx as [Ha Hx].
  cbn [Str.getlines]. rewrite Ha.
  destruct x as [|b x]; [done |].
  rewrite (IH Hx); done.
Qed.

(** The input ends right after a delimiter: no further token. *)
Lemma getlines_trailing d x :
  Str.contains d x = false -> Str.getlines d (x +:+ String d "") = [x].
Proof. intros Hx. by rewrite (getlines_token _ _ _ Hx). Qed.

Lemma join_cons d x y l :
  Str.join d (x :: y :: l) = x +:+ String d (Str.join d (y :: l)).
Proof. done. Qed.

(** Splitting undoes joining when no piece holds the delimiter and the
    last piece is not empty. *)
Lemma getlines_join d (l : list string) :
  Forall (fun x => Str.contains d x = false) l ->
  last l <> Some "" ->
  Str.getlines d (Str.join d l) = l.
Proof.
  induction l as [|x l IH]; intros Hall Hlast; [done |].
  apply Forall_cons in Hall as [Hx Hall].
  destruct l as [|y l].
  - simpl. apply getlines_last; [done |]. intros ->. by apply Hlast.
  - rewrite join_cons, (getlines_token _ _ _ Hx), IH; [done | done |].
    intros H. apply Hlast. by rewrite last_cons, H.
Qed.

Lemma contains_join d c (l : list string) :
  Ascii.eqb d c = false ->
  Forall (fun x => Str.contains c x = false) l ->
  Str.contains c (Str.join d l) = false.
Proof.
  intros Hd. induction l as [|x l IH]; intros Hall; [done |].
  apply Forall_cons in Hall as [Hx Hall].
  destruct l as [|y l]; [done |].
  rewrite join_cons, contains_append, Hx. simpl. rewrite Hd. by apply IH.
Qed.

End Strings.

(** ** Numerals *)

Section Numerals.

Implicit Types (s : string) (c : ascii) (u : uint) (z : Z).

Lemma digit_not_space_nor_sign c s :
  Num.is_digit c = true ->
  Num.is_space c = false /\ Num.parse_sign (String c s) = (false, String c s).
Proof.
  destruct c as [[] [] [] [] [] [] [] []]; intros H; try discriminate H;
    split; reflexivity.
Qed.

Lemma string_of_uint_digits u : all_digits (NilEmpty.string_of_uint u) = true.
Proof. induction u; simpl; auto. Qed.

Lemma nilzero_digits u :
  all_digits (NilZero.string_of_uint u) = true /\ NilZero.string_of_uint u <> "".
Proof.
  split.
  - destruct u; try apply string_of_uint_digits. reflexivity.
  - destruct u; discriminate.
Qed.

Lemma take_digits_all s : all_digits s = true -> Num.take_digits s = s.
Proof.
  induction s as [|c s IH]; [done |]. simpl.
  intros [Hc Hs]%andb_true_iff. rewrite Hc. by rewrite IH.
Qed.

Lemma all_digits_contains c s :
  Num.is_digit c = false -> all_digits s = true -> Str.contains c s = false.
Proof.
  intros Hc. induction s as [|a s IH]; [done |]. simpl.
  intros [Ha Hs]%andb_true_iff. rewrite (IH Hs), orb_false_r.
  destruct (Ascii.eqb_spec a c) as [-> |]; congruence.
Qed.

Lemma digits_value_uint u :
  Num.digits_value (NilZero.string_of_uint u) = Z.of_uint u.
Proof.
  destruct u; try (unfold Num.digits_value, NilZero.string_of_uint;
                   by rewrite NilEmpty.usu).
  reflexivity.
Qed.

Lemma stoi_digits s :
  all_digits s = true -> s <> "" ->
  Num.stoi s =
    if (INT_MIN <=? Num.digits_value s) && (Num.digits_value s <=? INT_MAX)
    then Some (Num.digits_value s) else None.
Proof.
  intros Hs Hne. destruct s as [|c s]; [done |].
  pose proof Hs as [Hc _]%andb_true_iff.
  destruct (digit_not_space_nor_sign c s Hc) as [Hsp Hsign].
  unfold Num.stoi. cbn [Num.skip_space]. rewrite Hsp, Hsign.
  rewrite (take_digits_all _ Hs). reflexivity.
Qed.

Lemma stoi_minus_digits s :
  all_digits s = true -> s <> "" ->
  Num.stoi (String "-" s) =
    if (INT_MIN <=? - Num.digits_value s) && (- Num.digits_value s <=? INT_MAX)
    then Some (- Num.digits_value s) else None.
Proof.
  intros Hs Hne. unfold Num.stoi. cbn [Num.skip_space].
  change (Num.is_space "-") with false. cbn [Num.parse_sign].
  rewrite (take_digits_all _ Hs).
  destruct s; [done | reflexivity].
Qed.

(** Reading back a printed [int] gives the [int]. *)
Lemma stoi_put_int z : in_int z -> Num.stoi (Num.put_int z) = Some z.
Proof.
  intros [Hlo Hhi]. unfold Num.put_int, dec.
  destruct z as [|p|p]; [reflexivity | |]; cbn [Z.to_int NilZero.string_of_int].
  - destruct (nilzero_digits (Pos.to_uint p)) as [Hd Hne].
    rewrite (stoi_digits _ Hd Hne), digits_value_uint.
    unfold Z.of_uint. rewrite DecimalPos.Unsigned.of_to. cbn [Z.of_N].
    apply Z.leb_le in Hlo, Hhi. by rewrite Hlo, Hhi.
  - destruct (nilzero_digits (Pos.to_uint p)) as [Hd Hne].
    rewrite (stoi_minus_digits _ Hd Hne), digits_value_uint.
    unfold Z.of_uint. rewrite DecimalPos.Unsigned.of_to.
    change (- Z.of_N (N.pos p)) with (Z.neg p).
    apply Z.leb_le in Hlo, Hhi. by rewrite Hlo, Hhi.
Qed.

(** A decimal numeral consists of digits and possibly a minus sign. *)
Lemma contains_dec c z :
  Num.is_digit c = false -> Ascii.eqb "-" c = false ->
  Str.contains c (dec z) = false.
Proof.
  intros Hc Hm. unfold dec.
  destruct z as [|p|p]; cbn [Z.to_int NilZero.string_of_int].
  - apply all_digits_contains; [done | reflexivity].
  - apply all_digits_contains; [done | apply nilzero_digits].
  - cbn [Str.contains]. rewrite Hm. cbn [orb].
    apply all_digits_contains; [done | apply nilzero_digits].
Qed.

(** The characters of a printed [double] are digits, a sign, a dot and the
    letters of [inf] and [nan]. *)
Lemma contains_put_fixed2 c (x : double) :
  c = bar \/ c = newline -> Str.contains c (Num.put_fixed2 x) = false.
Proof.
  intros Hc.
  assert (Num.is_digit c = false /\ Ascii.eqb "-" c = false) as [Hd Hm]
    by (destruct Hc as [-> | ->]; split; reflexivity).
  destruct x as [[]|[]| |s m e]; cbn [Num.put_fixed2];
    try (destruct Hc as [-> | ->]; reflexivity).
  rewrite !contains_append. unfold Num.two_digits.
  rewrite (contains_dec _ _ Hd Hm).
  assert (Str.contains c (if s then "-" else "") = false) as ->
    by (destruct s, Hc as [-> | ->]; reflexivity).
  assert (Str.contains c "." = false) as ->
    by (destruct Hc as [-> | ->]; reflexivity).
  destruct (_ <? 10); [rewrite contains_append |]; rewrite (contains_dec _ _ Hd Hm);
    [destruct Hc as [-> | ->] |]; reflexivity.
Qed.

Lemma contains_zeros c n : Num.is_digit c = false -> Str.contains c (zeros n) = false.
Proof.
  intros Hc. induction n as [|n IH]; [done |]. cbn [zeros Str.contains].
  rewrite IH, orb_false_r.
  destruct (Ascii.eqb_spec "0"%char c) as [<- |]; [discriminate Hc | done].
Qed.

Lemma contains_put_width c w z :
  Num.is_digit c = false -> Ascii.eqb "-" c = false ->
  Str.contains c (put_width w z) = false.
Proof.
  intros Hd Hm. unfold put_width.
  by rewrite contains_append, contains_zeros, contains_dec.
Qed.

(** A timestamp of the clock holds neither the delimiter nor a line feed. *)
Lemma contains_timestamp c (k : Clock) :
  c = bar \/ c = newline -> Str.contains c (getCurrentTimestamp k) = false.
Proof.
  intros Hc.
  assert (Num.is_digit c = false /\ Ascii.eqb "-" c = false) as [Hd Hm]
    by (destruct Hc as [-> | ->]; split; reflexivity).
  unfold getCurrentTimestamp.
  rewrite !contains_append, !contains_put_width, contains_dec by done.
  destruct Hc as [-> | ->]; reflexivity.
Qed.

End Numerals.

(** ** The WAL line format *)

Section WalLine.

Implicit Types (c : Clock) (manager_id line : string) (trans : Transaction).

(** The fields of a serialized line. *)
Lemma fields_of_line c manager_id trans :
  free_of bar manager_id trans ->
  TransactionRecord.note trans <> "" ->
  Str.getlines bar (serializeTransaction c manager_id trans) =
    [ getCurrentTimestamp c; manager_id;
      TransactionRecord.trans_id trans; TransactionRecord.item_id trans;
      TransactionRecord.item_name trans; TransactionRecord.type trans;
      Num.put_int (TransactionRecord.quantity trans);
      Num.put_fixed2 (TransactionRecord.unit_price trans);
      TransactionRecord.category trans; TransactionRecord.model trans;
      TransactionRecord.unit trans; TransactionRecord.partner_id trans;
      TransactionRecord.partner_name trans; TransactionRecord.warehouse_id trans;
      TransactionRecord.document_no trans; TransactionRecord.note trans ].
Proof.
  intros Hfree Hnote. unfold serializeTransaction.
  apply getlines_join; [| cbn; congruence].
  unfold free_of, text_fields in Hfree.
  repeat match goal with
         | H : Forall _ (_ :: _) |- _ => apply Forall_cons in H as [? H]
         end.
  repeat first [apply Forall_nil_2 | apply Forall_cons_2];
    first [assumption | apply contains_dec; reflexivity
          | apply contains_put_fixed2; by left
          | apply contains_timestamp; by left].
Qed.

Lemma deserialize_serialize c manager_id trans :
  free_of bar manager_id trans ->
  TransactionRecord.note trans <> "" ->
  in_int (TransactionRecord.quantity trans) ->
  price_survives trans ->
  deserializeTransaction (serializeTransaction c manager_id trans)
  = Some (manager_id, wal_image (getCurrentTimestamp c) trans).
Proof.
  intros Hfree Hnote Hq Hp. unfold deserializeTransaction.
  rewrite (fields_of_line _ _ _ Hfree Hnote). cbn [length Nat.eqb negb].
  rewrite (stoi_put_int _ Hq), Hp. reflexivity.
Qed.

(** An empty note makes the line end with the delimiter: fifteen fields. *)
Lemma fields_of_line_empty_note c manager_id trans :
  free_of bar manager_id trans ->
  TransactionRecord.note trans = "" ->
  length (Str.getlines bar (serializeTransaction c manager_id trans)) = 15%nat.
Proof.
  intros Hfree Hnote. unfold serializeTransaction. rewrite Hnote.
  unfold free_of, text_fields in Hfree.
  repeat match goal with
         | H : Forall _ (_ :: _) |- _ => apply Forall_cons in H as [? H]
         end.
  rewrite !join_cons.
  repeat (rewrite getlines_token;
          [| first [done | apply contains_dec; reflexivity
                   | apply contains_put_fixed2; by left
                   | apply contains_timestamp; by left]]).
  reflexivity.
Qed.

Lemma same_caller_fields_image (now : string) trans :
  same_caller_fields trans (wal_image now trans).
Proof. repeat split. Qed.

End WalLine.




Example line_of_fine_price :
  serializeTransaction sample_clock "manager001" sample_fine_price
  = "2024-06-01T08:00:00.000Z|manager001|T1|I1|Widget|in|10|20.00|tools|W-1|pcs|P1|Supplier|WH1|DOC1|first batch".
Proof. vm_compute. reflexivity. Qed.

(** Further inputs on which the round trip fails: a member that holds the
    delimiter, and an event without a note, whose line ends with the
    delimiter, splits into fifteen fields and is rejected. *)
Example round_trip_fails_on_delimiter :
  deserializeTransaction
    (serializeTransaction sample_clock "manager001"
       (TransactionRecord.mk "T1" "I1" "a|b" "in" 10 "" "" "n" "" "" "" price_2 "" "" "" ""))
  = None.
Proof. vm_compute. reflexivity. Qed.

Example round_trip_fails_without_note :
  deserializeTransaction (serializeTransaction sample_clock "manager001" sample_no_note)
  = None.
Proof. vm_compute. reflexivity. Qed.

(** ** Recovery from the WAL *)

Section Recovery.

Implicit Types (fs : Dir) (data : gmap string (list Transaction)).
Implicit Types (line manager_id : string) (lines : list string).

Lemma recover_file_lines fs data wal_file :
  recover_file fs data wal_file
  = fold_left recover_line (file_lines (default "" (fs !! wal_file))) data.
Proof. unfold recover_file. by destruct (fs !! wal_file). Qed.

(** Recovery is one fold over the lines of all segments. *)
Lemma recoverFromWAL_lines fs :
  recoverFromWAL fs = fold_left recover_line (wal_lines fs) ∅.
Proof.
  unfold recoverFromWAL, wal_lines.
  generalize (∅ : gmap string (list Transaction)).
  induction (getWALFiles fs) as [|f l IH]; intros data; [done |].
  cbn [fold_left flat_map]. rewrite fold_left_app, <- recover_file_lines. apply IH.
Qed.

(** A line that does not split into exactly sixteen fields is rejected. *)
Lemma deserialize_wrong_field_count line :
  length (Str.getlines bar line) <> 16%nat -> deserializeTransaction line = None.
Proof.
  intros H. unfold deserializeTransaction.
  apply Nat.eqb_neq in H. by rewrite H.
Qed.

Lemma recover_line_rejected data line :
  deserializeTransaction line = None -> recover_line data line = data.
Proof. intros H. unfold recover_line. rewrite H. by destruct (Str.empty line). Qed.

Lemma parsed_for_rejected manager_id line :
  deserializeTransaction line = None -> parsed_for manager_id line = None.
Proof. intros H. unfold parsed_for. rewrite H. by destruct (Str.empty line). Qed.

Lemma omap_step {A B} (f : A -> option B) x l :
  omap f (x :: l) = match f x with Some y => y :: omap f l | None => omap f l end.
Proof. reflexivity. Qed.

(** The sequence of a tenant after reading lines: what it was, followed by
    the events of the accepted lines of the tenant, in the order of the
    lines. *)
Lemma recover_lines_lookup lines data manager_id :
  default [] (fold_left recover_line lines data !! manager_id)
  = default [] (data !! manager_id) ++ omap (parsed_for manager_id) lines.
Proof.
  revert data. induction lines as [|line lines IH]; intros data.
  - cbn. by rewrite app_nil_r.
  - cbn [fold_left]. rewrite IH. clear IH.
    rewrite omap_step.
    unfold recover_line, parsed_for.
    destruct (Str.empty line); [done |].
    destruct (deserializeTransaction line) as [[m trans]|]; [| done].
    destruct (decide (m = manager_id)) as [-> | Hne].
    + rewrite lookup_insert_eq. simpl. by rewrite <- app_assoc.
    + by rewrite lookup_insert_ne.
Qed.

Lemma omap_app_skip {A B} (f : A -> option B) pre x post :
  f x = None -> omap f (pre ++ x :: post) = omap f pre ++ omap f post.
Proof. intros H. rewrite omap_app. cbn. by rewrite H. Qed.

End Recovery.

Section MalformedLine.

Implicit Types (r : WalRecord.t) (line manager_id : string) (e : WalEntry).

Lemma last_char_None line : last_char line = None -> line = "".
Proof. destruct line as [|a line]; [done |]. cbn. by destruct (last_char line). Qed.

(** The field loop reads as many fields as the line has. *)
Lemma getlines_field_count d line :
  length (Str.getlines d line) = field_count d line.
Proof.
  unfold field_count. induction line as [|a line IH]; [done |].
  cbn [Str.getlines last_char count_char].
  destruct (last_char line) as [c|] eqn:Hlast.
  - destruct (Ascii.eqb a d); cbn [length].
    + rewrite IH. by destruct (Ascii.eqb c d).
    + destruct (Str.getlines d line) as [|t ts] eqn:Hg.
      * exfalso. cbn in IH. destruct (Ascii.eqb c d); [| done].
        destruct line as [|b line]; [done |]. cbn in Hg.
        destruct (Ascii.eqb b d); [done |]. by destruct (Str.getlines d line).
      * cbn [length] in IH |- *. rewrite IH. by destruct (Ascii.eqb c d).
  - apply last_char_None in Hlast as ->. cbn. by destruct (Ascii.eqb a d).
Qed.

(** A line with fewer than sixteen pieces between its delimiters is
    malformed, and so is one with more than seventeen. *)
Lemma malformed_by_pieces line :
  (S (count_char bar line) < 16 \/ 17 < S (count_char bar line))%nat -> malformed line.
Proof.
  unfold malformed, field_count. destruct (last_char line) as [c|]; [| lia].
  destruct (Ascii.eqb c bar); lia.
Qed.

Lemma malformed_rejected line : malformed line -> deserializeTransaction line = None.
Proof.
  intros H. apply deserialize_wrong_field_count. by rewrite getlines_field_count.
Qed.

Lemma fields_of_record r :
  WalRecord.well_formed r -> Str.getlines bar (WalRecord.line r) = WalRecord.fields r.
Proof.
  intros (Hfree & Hnote & _). apply getlines_join; [done |].
  destruct r. cbn in Hnote |- *. congruence.
Qed.

(** The parser reads the line of a well-formed record as the tenant and
    the event of the record. *)
Lemma deserialize_record r :
  WalRecord.well_formed r ->
  deserializeTransaction (WalRecord.line r)
  = Some (WalRecord.tenant_id r, WalRecord.event r).
Proof.
  intros Hr. pose proof Hr as (_ & _ & [q Hq] & [p Hp]).
  unfold deserializeTransaction. rewrite (fields_of_record r Hr).
  unfold WalRecord.fields, WalRecord.event. cbn [length Nat.eqb negb].
  rewrite Hq, Hp. reflexivity.
Qed.

Lemma record_line_not_empty r : Str.empty (WalRecord.line r) = false.
Proof. destruct r as [ts]. by destruct ts. Qed.

Lemma parsed_for_entry manager_id e :
  record_or_malformed e ->
  omap (parsed_for manager_id) [entry_line e] = record_events manager_id [e].
Proof.
  destruct e as [r | line]; cbn [record_or_malformed entry_line]; intros He;
    rewrite omap_step; unfold record_events; cbn [flat_map app].
  - unfold parsed_for. rewrite record_line_not_empty, (deserialize_record r He).
    by case_decide.
  - by rewrite (parsed_for_rejected _ _ (malformed_rejected _ He)).
Qed.

(** Of lines that are lines of well-formed records or malformed, recovery
    appends the events of the records. *)
Lemma parsed_for_entries manager_id (entries : list WalEntry) :
  Forall record_or_malformed entries ->
  omap (parsed_for manager_id) (map entry_line entries)
  = record_events manager_id entries.
Proof.
  induction 1 as [|e entries He _ IH]; [done |].
  pose proof (parsed_for_entry manager_id e He) as Hone.
  rewrite omap_step in Hone. cbn [map]. rewrite omap_step, IH.
  unfold record_events in *. cbn [flat_map] in Hone |- *.
  rewrite app_nil_r in Hone. rewrite <- Hone.
  by destruct (parsed_for manager_id (entry_line e)).
Qed.

End MalformedLine.


Lemma sample_record_1_well_formed : WalRecord.well_formed sample_record_1.
Proof.
  split; [| split; [| split]].
  - vm_compute. repeat constructor.
  - discriminate.
  - vm_compute. eauto.
  - vm_compute. eauto.
Qed.

Lemma sample_record_2_well_formed : WalRecord.well_formed sample_record_2.
Proof.
  split; [| split; [| split]].
  - vm_compute. repeat constructor.
  - discriminate.
  - vm_compute. eauto.
  - vm_compute. eauto.
Qed.

Lemma sample_record_3_well_formed : WalRecord.well_formed sample_record_3.
Proof.
  split; [| split; [| split]].
  - vm_compute. repeat constructor.
  - discriminate.
  - vm_compute. eauto.
  - vm_compute. eauto.
Qed.


(** The sample records are the lines that the store wrote, and their
    events the recovered images of the appended events. *)
Example sample_records_written :
  WalRecord.line sample_record_1 = sample_line_1
  /\ WalRecord.line sample_record_2 = sample_line_2
  /\ WalRecord.event sample_record_1 = wal_image sample_now sample_in
  /\ WalRecord.event sample_record_2 = wal_image sample_later sample_out.
Proof. vm_compute. repeat split; reflexivity. Qed.

(** Two segments with records of two tenants, a truncated line and a line
    of seventeen fields: every tenant has the events of its records, in
    file order. *)
Example recovery_of_mixed_dir :
  wal_lines sample_mixed_dir
  = [ WalRecord.line sample_record_1; sample_bad_line; WalRecord.line sample_record_3;
      sample_long_line; WalRecord.line sample_record_2 ]
  /\ malformed sample_bad_line
  /\ malformed sample_long_line
  /\ recoverFromWAL sample_mixed_dir
     = {[ "manager001" := [WalRecord.event sample_record_1; WalRecord.event sample_record_2];
          "manager002" := [WalRecord.event sample_record_3] ]}.
Proof.
  split; [vm_compute; reflexivity |].
  split; [vm_compute; discriminate |].
  split; [vm_compute; discriminate |].
  vm_compute. reflexivity.
Qed.

(** How the fields are counted.  An empty piece after a final delimiter
    is no field: the line of a record followed by a delimiter has sixteen
    fields and is read as the record, and the line of a record whose last
    field is empty has fifteen fields and is skipped. *)
Example final_delimiter_ends_no_field :
  field_count bar (WalRecord.line sample_record_1 +:+ "|") = 16%nat
  /\ deserializeTransaction (WalRecord.line sample_record_1 +:+ "|")
     = Some ("manager001", WalRecord.event sample_record_1)
  /\ field_count bar (serializeTransaction sample_clock "manager001" sample_no_note)
     = 15%nat
  /\ deserializeTransaction (serializeTransaction sample_clock "manager001" sample_no_note)
     = None.
Proof. vm_compute. repeat split; reflexivity. Qed.

Example recovery_of_damaged_dir :
  recoverFromWAL sample_damaged_dir !! "manager001"
  = Some [wal_image sample_now sample_in; wal_image sample_later sample_out].
Proof. vm_compute. reflexivity. Qed.

(** ** Appending to the store *)

Section Append.

Implicit Types (env : Env) (manager_id : string) (trans : Transaction).
Implicit Types (db : MemoryDatabase.t) (fs : Dir).

Lemma str_eqb_eq (a b : string) : Str.eqb a b = true <-> a = b.
Proof. apply String.eqb_eq. Qed.

Lemma str_eqb_neq (a b : string) : Str.eqb a b = false <-> a <> b.
Proof. apply String.eqb_neq. Qed.

(** The four guards of the validation in terms of [valid_event]. *)
Lemma valid_event_guards manager_id trans :
  valid_event manager_id trans <->
  Str.empty manager_id = false
  /\ (Str.empty (TransactionRecord.trans_id trans)
      || Str.empty (TransactionRecord.item_id trans)) = false
  /\ (negb (Str.eqb (TransactionRecord.type trans) "in")
      && negb (Str.eqb (TransactionRecord.type trans) "out")) = false
  /\ (TransactionRecord.quantity trans <=? 0) = false.
Proof.
  unfold valid_event.
  rewrite orb_false_iff, !empty_false, Z.leb_gt.
  rewrite andb_false_iff, !negb_false_iff, !str_eqb_eq. tauto.
Qed.

Lemma has_trans_id_spec (data : ManagerData.t) (id : string) :
  has_trans_id data id = true <->
  id ∈ map TransactionRecord.trans_id
         (take (ManagerData.count data) (ManagerData.transactions data)).
Proof.
  unfold has_trans_id. rewrite existsb_exists, list_elem_of_fmap. split.
  - intros (t & Hin & Heq). exists t. split.
    + symmetry. by apply str_eqb_eq.
    + by apply list_elem_of_In.
  - intros (t & -> & Hin). exists t. split.
    + by apply list_elem_of_In.
    + by apply str_eqb_eq.
Qed.

(** The guard of the duplicate check in terms of the published ids. *)
Lemma duplicate_guard db manager_id (id : string) :
  match MemoryDatabase.managers_ db !! manager_id with
  | Some data => has_trans_id data id
  | None => false
  end = true <-> id ∈ published_ids db manager_id.
Proof.
  unfold published_ids, getTransactions.
  destruct (MemoryDatabase.managers_ db !! manager_id) as [data|].
  - apply has_trans_id_spec.
  - split; [done | by intros ?%elem_of_nil].
Qed.

Lemma duplicate_guard_false db manager_id (id : string) :
  match MemoryDatabase.managers_ db !! manager_id with
  | Some data => has_trans_id data id
  | None => false
  end = false <-> id ∉ published_ids db manager_id.
Proof. rewrite <- duplicate_guard. by destruct (match _ with Some _ => _ | None => _ end). Qed.

(** What [appendTransaction] does once the event passed the checks. *)
Lemma appendTransaction_checked env manager_id trans db fs :
  valid_event manager_id trans ->
  TransactionRecord.trans_id trans ∉ published_ids db manager_id ->
  appendTransaction env manager_id trans db fs =
    match MemoryDatabase.persistence_enabled_ db, MemoryDatabase.persistence_ db with
    | true, Some pm =>
        match writeToWAL env pm fs manager_id trans with
        | (true, pm', fs') =>
            (Success,
             MemoryDatabase.mk
               (push_transaction manager_id trans (MemoryDatabase.managers_ db))
               (Some pm') (MemoryDatabase.persistence_enabled_ db), fs')
        | (false, pm', fs') =>
            (Error WAL_WRITE_FAILED "Failed to write transaction to WAL",
             MemoryDatabase.mk (MemoryDatabase.managers_ db) (Some pm')
               (MemoryDatabase.persistence_enabled_ db), fs')
        end
    | _, _ =>
        (Success,
         MemoryDatabase.mk
           (push_transaction manager_id trans (MemoryDatabase.managers_ db))
           (MemoryDatabase.persistence_ db) (MemoryDatabase.persistence_enabled_ db), fs)
    end.
Proof.
  intros (H1 & H2 & H3 & H4)%valid_event_guards Hdup%duplicate_guard_false.
  unfold appendTransaction. rewrite H1, H2, H3, H4, Hdup. reflexivity.
Qed.

(** Every error leaves the sequences of all tenants as they were. *)
Lemma appendTransaction_error env manager_id trans db fs code message :
  (appendTransaction env manager_id trans db fs).1.1 = Error code message ->
  MemoryDatabase.managers_ (appendTransaction env manager_id trans db fs).1.2
  = MemoryDatabase.managers_ db.
Proof.
  unfold appendTransaction.
  repeat match goal with
         | |- context [if ?b then _ else _] => destruct b; [done |]
         end.
  destruct (MemoryDatabase.persistence_enabled_ db),
    (MemoryDatabase.persistence_ db) as [pm|]; try done.
  by destruct (writeToWAL env pm fs manager_id trans) as [[[] ?] ?].
Qed.

(** A call that succeeds passed the checks and pushed the event. *)
Lemma appendTransaction_success env manager_id trans db fs db' fs' :
  appendTransaction env manager_id trans db fs = (Success, db', fs') ->
  valid_event manager_id trans
  /\ (TransactionRecord.trans_id trans ∉ published_ids db manager_id)
  /\ MemoryDatabase.managers_ db'
     = push_transaction manager_id trans (MemoryDatabase.managers_ db)
  /\ MemoryDatabase.persistence_enabled_ db' = MemoryDatabase.persistence_enabled_ db.
Proof.
  intros H.
  assert (valid_event manager_id trans
          /\ (TransactionRecord.trans_id trans ∉ published_ids db manager_id))
    as [Hv Hd].
  { rewrite valid_event_guards, <- duplicate_guard_false.
    unfold appendTransaction in H.
    repeat match type of H with
           | context [if ?b then _ else _] => destruct b eqn:?; [discriminate H |]
           end.
    done. }
  split; [done |]. split; [done |].
  rewrite (appendTransaction_checked _ _ _ _ _ Hv Hd) in H.
  destruct (MemoryDatabase.persistence_enabled_ db),
    (MemoryDatabase.persistence_ db) as [pm|]; try (by inversion H).
  destruct (writeToWAL env pm fs manager_id trans) as [[[] ?] ?]; by inversion H.
Qed.

End Append.

(** ** The published length *)

Section Published.

Implicit Types (env : Env) (manager_id : string) (trans : Transaction).
Implicit Types (db : MemoryDatabase.t) (fs : Dir).

Lemma counts_match_restore (data : gmap string (list Transaction)) b pm :
  counts_match (MemoryDatabase.mk (restore data) pm b).
Proof.
  intros m d. cbn. unfold restore. rewrite lookup_fmap.
  destruct (data !! m); intros [= <-]; done.
Qed.

Lemma counts_match_empty b pm : counts_match (MemoryDatabase.mk ∅ pm b).
Proof. intros m d. cbn. by rewrite lookup_empty. Qed.

Lemma counts_match_new b data_dir fs :
  counts_match (MemoryDatabase_new b data_dir fs).1.
Proof.
  unfold MemoryDatabase_new.
  destruct (PersistenceManager_new b data_dir fs) as [[pm|] fs']; cbn [fst].
  - destruct (negb _); [| apply counts_match_empty].
    destruct (validateDataIntegrity _);
      [apply counts_match_restore | apply counts_match_empty].
  - apply counts_match_empty.
Qed.

Lemma counts_match_push manager_id trans db db' :
  counts_match db ->
  MemoryDatabase.managers_ db'
  = push_transaction manager_id trans (MemoryDatabase.managers_ db) ->
  counts_match db'.
Proof.
  intros Hdb Hpush m d. rewrite Hpush. unfold push_transaction.
  destruct (decide (manager_id = m)) as [-> | Hne].
  - rewrite lookup_insert_eq. intros [= <-]. cbn.
    rewrite length_app. cbn.
    destruct (MemoryDatabase.managers_ db !! m) as [d0|] eqn:Hm; cbn; [| done].
    by rewrite (Hdb _ _ Hm).
  - rewrite lookup_insert_ne by done. apply Hdb.
Qed.

Lemma counts_match_append env manager_id trans db fs :
  counts_match db -> counts_match (appendTransaction env manager_id trans db fs).1.2.
Proof.
  intros Hdb.
  destruct (appendTransaction env manager_id trans db fs) as [[r db'] fs'] eqn:H.
  destruct r as [|code message]; cbn.
  - apply appendTransaction_success in H as (_ & _ & Hpush & _).
    by eapply counts_match_push.
  - pose proof (appendTransaction_error env manager_id trans db fs code message) as He.
    rewrite H in He. cbn in He. intros m d. rewrite He by done. apply Hdb.
Qed.

(** In every reachable state the published length of a tenant is the
    length of its sequence. *)
Lemma reachable_counts_match db fs : reachable db fs -> counts_match db.
Proof.
  induction 1 as [b data_dir fs | env m t db fs _ IH | enable db fs _ IH].
  - apply counts_match_new.
  - by apply counts_match_append.
  - exact IH.
Qed.

Lemma getTransactions_all db manager_id data :
  counts_match db ->
  MemoryDatabase.managers_ db !! manager_id = Some data ->
  getTransactions db manager_id = ManagerData.transactions data.
Proof.
  intros Hdb Hm. unfold getTransactions. rewrite Hm, (Hdb _ _ Hm).
  by rewrite firstn_all.
Qed.

Lemma getTransactionCount_length db manager_id :
  counts_match db ->
  getTransactionCount db manager_id = length (getTransactions db manager_id).
Proof.
  intros Hdb. unfold getTransactionCount, getTransactions.
  destruct (MemoryDatabase.managers_ db !! manager_id) as [d|] eqn:Hm; [| done].
  by rewrite (Hdb _ _ Hm), firstn_all.
Qed.

(** Pushing an event publishes it at the tail of its tenant and leaves the
    other tenants alone. *)
Lemma getTransactions_push manager_id trans db db' :
  counts_match db ->
  MemoryDatabase.managers_ db'
  = push_transaction manager_id trans (MemoryDatabase.managers_ db) ->
  getTransactions db' manager_id = getTransactions db manager_id ++ [trans]
  /\ getTransactionCount db' manager_id = (getTransactionCount db manager_id + 1)%nat
  /\ forall m, m <> manager_id -> getTransactions db' m = getTransactions db m.
Proof.
  intros Hdb Hpush.
  pose proof (counts_match_push _ _ _ _ Hdb Hpush) as Hdb'.
  assert (getTransactions db' manager_id = getTransactions db manager_id ++ [trans]) as Hget.
  { unfold getTransactions at 1. rewrite Hpush. unfold push_transaction.
    rewrite lookup_insert_eq. cbn.
    destruct (MemoryDatabase.managers_ db !! manager_id) as [d|] eqn:Hm; cbn.
    - rewrite (getTransactions_all _ _ _ Hdb Hm), (Hdb _ _ Hm).
      apply take_ge. rewrite length_app. cbn. lia.
    - unfold getTransactions. by rewrite Hm. }
  split; [done |]. split.
  - rewrite !getTransactionCount_length, Hget, length_app by done. done.
  - intros m Hne. unfold getTransactions. rewrite Hpush. unfold push_transaction.
    by rewrite lookup_insert_ne.
Qed.

End Published.

(** ** The append protocol *)

Lemma sample_in_valid : valid_event "manager001" sample_in.
Proof. repeat split; try discriminate; by left. Qed.

Lemma sample_out_valid : valid_event "manager001" sample_out.
Proof. repeat split; try discriminate; by right. Qed.

Lemma sample_dup_valid : valid_event "manager001" sample_dup.
Proof. repeat split; try discriminate; by right. Qed.

Lemma sample_store0_reachable : reachable sample_store0.1 sample_store0.2.
Proof. apply reach_new. Qed.

Lemma sample_store1_reachable : reachable sample_store1.1 sample_store1.2.
Proof. apply reach_append, sample_store0_reachable. Qed.

(** C1.  For every tenant and event: when persistence is on and the write
    to the WAL fails ([writeToWAL] returns [false]), [appendTransaction]
    does not succeed and the memory of the store is as before: the map of
    the tenants is the same, hence the sequence and the published length of
    the tenant are unchanged and no entry was created for it.  The write is
    performed when the event passed the checks and its id is not published;
    the error returned then is [WAL_WRITE_FAILED]. *)
Theorem wal_failure_leaves_memory_unchanged
    (env : Env) (manager_id : string) (trans : Transaction)
    (db : MemoryDatabase.t) (fs : Dir) (pm : PersistenceManager.t) :
  MemoryDatabase.persistence_enabled_ db = true ->
  MemoryDatabase.persistence_ db = Some pm ->
  (writeToWAL env pm fs manager_id trans).1.1 = false ->
  let r := appendTransaction env manager_id trans db fs in
  isSuccess r.1.1 = false
  /\ (valid_event manager_id trans ->
      TransactionRecord.trans_id trans ∉ published_ids db manager_id ->
      r.1.1 = Error WAL_WRITE_FAILED "Failed to write transaction to WAL")
  /\ MemoryDatabase.managers_ r.1.2 = MemoryDatabase.managers_ db
  /\ getTransactions r.1.2 manager_id = getTransactions db manager_id
  /\ getTransactionCount r.1.2 manager_id = getTransactionCount db manager_id
  /\ hasManager r.1.2 manager_id = hasManager db manager_id.
Proof.
  intros Hen Hpm Hw r.
  assert (forall Hv : valid_event manager_id trans,
             TransactionRecord.trans_id trans ∉ published_ids db manager_id ->
             r.1.1 = Error WAL_WRITE_FAILED "Failed to write transaction to WAL")
    as Hfail.
  { intros Hv Hd. subst r.
    rewrite (appendTransaction_checked _ _ _ _ _ Hv Hd), Hen, Hpm.
    by destruct (writeToWAL env pm fs manager_id trans) as [[[] pm'] fs'];
      [discriminate Hw |]. }
  assert (isSuccess r.1.1 = false) as Hno.
  { destruct r as [[res db'] fs'] eqn:Hr. cbn [fst snd] in *.
    destruct res as [|code message]; [| done].
    apply appendTransaction_success in Hr as (Hv & Hd & _).
    by rewrite (Hfail Hv Hd). }
  assert (MemoryDatabase.managers_ r.1.2 = MemoryDatabase.managers_ db) as Hsame.
  { destruct r.1.1 as [|code message] eqn:Hr; [done |].
    by apply (appendTransaction_error env manager_id trans db fs code message). }
  split; [done |]. split; [done |]. split; [done |].
  unfold getTransactions, getTransactionCount, hasManager. by rewrite Hsame.
Qed.

Lemma wal_failure_leaves_memory_unchanged_witness :
  let r := appendTransaction sample_env_fault "manager001" sample_in
             sample_store0.1 sample_store0.2 in
  r.1.1 = Error WAL_WRITE_FAILED "Failed to write transaction to WAL"
  /\ MemoryDatabase.managers_ r.1.2 = MemoryDatabase.managers_ sample_store0.1
  /\ getTransactions r.1.2 "manager001" = getTransactions sample_store0.1 "manager001"
  /\ getTransactionCount r.1.2 "manager001"
     = getTransactionCount sample_store0.1 "manager001".
Proof.
  destruct (wal_failure_leaves_memory_unchanged sample_env_fault "manager001" sample_in
              sample_store0.1 sample_store0.2 sample_pm)
    as (_ & Hfail & Hsame & Hget & Hcount & _).
  - reflexivity.
  - reflexivity.
  - reflexivity.
  - intros r. split; [| split; [exact Hsame | split; [exact Hget | exact Hcount]]].
    apply Hfail.
    + exact sample_in_valid.
    + vm_compute. apply not_elem_of_nil.
Defined.

(** The faulty write of the witness reached the file all the same. *)
Example failed_write_is_in_the_file :
  (appendTransaction sample_env_fault "manager001" sample_in
     sample_store0.1 sample_store0.2).2 !! "current.wal"
  = Some (sample_line_1 +:+ String newline "").
Proof. vm_compute. reflexivity. Qed.

Lemma accepted_for_cons manager_id env m t ops r rs :
  accepted_for manager_id ((env, m, t) :: ops) (r :: rs)
  = if isSuccess r && bool_decide (m = manager_id)
    then t :: accepted_for manager_id ops rs
    else accepted_for manager_id ops rs.
Proof. unfold accepted_for. cbn. by destruct (_ && _). Qed.

Lemma append_all_lookup (ops : list (Env * string * Transaction))
    (db : MemoryDatabase.t) (fs : Dir) (manager_id : string) :
  counts_match db ->
  getTransactions (append_all ops db fs).1.2 manager_id
  = getTransactions db manager_id ++ accepted_for manager_id ops (append_all ops db fs).1.1
  /\ counts_match (append_all ops db fs).1.2.
Proof.
  revert db fs. induction ops as [|[[env m] t] ops IH]; intros db fs Hdb.
  - cbn. by rewrite app_nil_r.
  - cbn [append_all].
    pose proof (counts_match_append env m t db fs Hdb) as Hdb1.
    destruct (appendTransaction env m t db fs) as [[r db1] fs1] eqn:Happ.
    cbn in Hdb1. specialize (IH db1 fs1 Hdb1) as [IH IHc].
    destruct (append_all ops db1 fs1) as [[rs db2] fs2]. cbn [fst snd] in IH, IHc |- *.
    split; [| done]. rewrite IH, accepted_for_cons.
    destruct r as [|code message]; cbn [isSuccess andb].
    + apply appendTransaction_success in Happ as (_ & _ & Hpush & _).
      destruct (getTransactions_push _ _ _ _ Hdb Hpush) as (Hget & _ & Hother).
      case_bool_decide as Hm.
      * subst m. by rewrite Hget, <- app_assoc.
      * by rewrite Hother.
    + pose proof (appendTransaction_error env m t db fs code message) as He.
      rewrite Happ in He. cbn in He.
      unfold getTransactions. by rewrite He.
Qed.

(** C2.  In a reachable state, a call of [appendTransaction] that succeeds
    was given a valid event whose id was not published for the tenant; it
    increases the published count of the tenant by one and puts the event at
    the tail of the published sequence.  Hence after any sequence of calls
    the published sequence of a tenant is what it was followed by the events
    of its successful calls, in the order of the calls. *)
Theorem append_publishes_in_order (db : MemoryDatabase.t) (fs : Dir) :
  reachable db fs ->
  (forall env manager_id trans db' fs',
      appendTransaction env manager_id trans db fs = (Success, db', fs') ->
      valid_event manager_id trans
      /\ (TransactionRecord.trans_id trans ∉ published_ids db manager_id)
      /\ getTransactionCount db' manager_id = (getTransactionCount db manager_id + 1)%nat
      /\ getTransactions db' manager_id = getTransactions db manager_id ++ [trans])
  /\ (forall ops manager_id,
        getTransactions (append_all ops db fs).1.2 manager_id
        = getTransactions db manager_id
          ++ accepted_for manager_id ops (append_all ops db fs).1.1).
Proof.
  intros Hdb%reachable_counts_match. split.
  - intros env m t db' fs' Happ.
    apply appendTransaction_success in Happ as (Hv & Hd & Hpush & _).
    destruct (getTransactions_push _ _ _ _ Hdb Hpush) as (Hget & Hcount & _).
    done.
  - intros ops m. by apply append_all_lookup.
Qed.

Lemma append_publishes_in_order_witness :
  let r := appendTransaction sample_env_later "manager001" sample_out
             sample_store1.1 sample_store1.2 in
  valid_event "manager001" sample_out
  /\ (TransactionRecord.trans_id sample_out ∉ published_ids sample_store1.1 "manager001")
  /\ getTransactionCount r.1.2 "manager001"
     = (getTransactionCount sample_store1.1 "manager001" + 1)%nat
  /\ getTransactions r.1.2 "manager001"
     = getTransactions sample_store1.1 "manager001" ++ [sample_out].
Proof.
  apply (proj1 (append_publishes_in_order sample_store1.1 sample_store1.2
                  (reach_append _ _ _ _ _ (reach_new sample_boot "./data" ∅)))
           sample_env_later "manager001" sample_out
           (appendTransaction sample_env_later "manager001" sample_out
              sample_store1.1 sample_store1.2).1.2
           (appendTransaction sample_env_later "manager001" sample_out
              sample_store1.1 sample_store1.2).2).
  vm_compute. reflexivity.
Defined.

Example append_second_event :
  (appendTransaction sample_env_later "manager001" sample_out
     sample_store1.1 sample_store1.2).1.1 = Success
  /\ getTransactions
       (appendTransaction sample_env_later "manager001" sample_out
          sample_store1.1 sample_store1.2).1.2 "manager001"
     = [sample_in; sample_out].
Proof. vm_compute. split; reflexivity. Qed.

(** C5 (as amended).  A call of [appendTransaction] with an event that
    passes the field checks (tenant id, transaction id and item id not
    empty, type [in] or [out], positive quantity) and whose transaction id
    is the id of a published event of the tenant returns the error
    [DUPLICATE_TRANSACTION_ID] and changes neither the store nor the
    directory. *)
Theorem duplicate_is_rejected
    (env : Env) (manager_id : string) (trans : Transaction)
    (db : MemoryDatabase.t) (fs : Dir) :
  valid_event manager_id trans ->
  TransactionRecord.trans_id trans ∈ published_ids db manager_id ->
  appendTransaction env manager_id trans db fs
  = (Error DUPLICATE_TRANSACTION_ID "Transaction ID already exists", db, fs)
  /\ duplicate_rejected env manager_id trans db fs.
Proof.
  intros (H1 & H2 & H3 & H4)%valid_event_guards Hdup%duplicate_guard.
  assert (appendTransaction env manager_id trans db fs
          = (Error DUPLICATE_TRANSACTION_ID "Transaction ID already exists", db, fs))
    as Happ.
  { unfold appendTransaction. by rewrite H1, H2, H3, H4, Hdup. }
  split; [done |]. unfold duplicate_rejected. by rewrite Happ.
Qed.

Lemma duplicate_is_rejected_witness :
  appendTransaction sample_env_later "manager001" sample_dup
    sample_store1.1 sample_store1.2
  = (Error DUPLICATE_TRANSACTION_ID "Transaction ID already exists",
     sample_store1.1, sample_store1.2)
  /\ duplicate_rejected sample_env_later "manager001" sample_dup
       sample_store1.1 sample_store1.2.
Proof.
  apply (duplicate_is_rejected sample_env_later "manager001" sample_dup
           sample_store1.1 sample_store1.2).
  - exact sample_dup_valid.
  - vm_compute. apply list_elem_of_here.
Defined.

(** C5 as stated fails: the field checks come first, so an event with a
    published id and a quantity of zero is answered with
    [INVALID_PARAMETER]. *)
Lemma duplicate_with_zero_quantity_not_rejected :
  TransactionRecord.trans_id sample_dup_zero ∈ published_ids sample_store1.1 "manager001"
  /\ ~ duplicate_rejected sample_env_later "manager001" sample_dup_zero
         sample_store1.1 sample_store1.2.
Proof.
  split.
  - vm_compute. apply list_elem_of_here.
  - intros [H _]. vm_compute in H. discriminate H.
Qed.

Example duplicate_with_zero_quantity_result :
  (appendTransaction sample_env_later "manager001" sample_dup_zero
     sample_store1.1 sample_store1.2).1.1
  = Error INVALID_PARAMETER "Quantity must be positive".
Proof. vm_compute. reflexivity. Qed.

(** C10.  With persistence disabled, [appendTransaction] of a valid event
    whose id is not published appends the event in memory, publishes it and
    returns success, and neither the persistence manager nor the directory
    is touched: no line is written.  Persistence is disabled after
    [enablePersistence(false)] and after a construction in which the
    constructor of the persistence manager threw. *)
Theorem append_without_persistence
    (env : Env) (manager_id : string) (trans : Transaction)
    (db : MemoryDatabase.t) (fs : Dir) :
  reachable db fs ->
  MemoryDatabase.persistence_enabled_ db = false ->
  valid_event manager_id trans ->
  TransactionRecord.trans_id trans ∉ published_ids db manager_id ->
  let db' := (appendTransaction env manager_id trans db fs).1.2 in
  (appendTransaction env manager_id trans db fs).1.1 = Success
  /\ (appendTransaction env manager_id trans db fs).2 = fs
  /\ MemoryDatabase.persistence_ db' = MemoryDatabase.persistence_ db
  /\ getTransactions db' manager_id = getTransactions db manager_id ++ [trans]
  /\ getTransactionCount db' manager_id = (getTransactionCount db manager_id + 1)%nat
  /\ (forall db0, MemoryDatabase.persistence_enabled_ (enablePersistence false db0) = false)
  /\ (forall b data_dir fs0,
        (PersistenceManager_new b data_dir fs0).1 = None ->
        MemoryDatabase.persistence_enabled_ (MemoryDatabase_new b data_dir fs0).1 = false).
Proof.
  intros Hdb%reachable_counts_match Hoff Hv Hd db'. subst db'.
  rewrite (appendTransaction_checked _ _ _ _ _ Hv Hd), Hoff. cbn [fst snd].
  assert (MemoryDatabase.managers_
            (MemoryDatabase.mk
               (push_transaction manager_id trans (MemoryDatabase.managers_ db))
               (MemoryDatabase.persistence_ db) false)
          = push_transaction manager_id trans (MemoryDatabase.managers_ db)) as Hpush
    by reflexivity.
  destruct (getTransactions_push _ _ _ _ Hdb Hpush) as (Hget & Hcount & _).
  repeat split; try done.
  intros b data_dir fs0. unfold MemoryDatabase_new.
  by destruct (PersistenceManager_new b data_dir fs0) as [[pm|] fs1].
Qed.

Lemma append_without_persistence_witness :
  let db := enablePersistence false sample_store1.1 in
  let db' := (appendTransaction sample_env_later "manager001" sample_out
                db sample_store1.2).1.2 in
  (appendTransaction sample_env_later "manager001" sample_out db sample_store1.2).1.1
  = Success
  /\ (appendTransaction sample_env_later "manager001" sample_out db sample_store1.2).2
     = sample_store1.2
  /\ MemoryDatabase.persistence_ db' = MemoryDatabase.persistence_ db
  /\ getTransactions db' "manager001" = getTransactions db "manager001" ++ [sample_out]
  /\ getTransactionCount db' "manager001" = (getTransactionCount db "manager001" + 1)%nat
  /\ (forall db0, MemoryDatabase.persistence_enabled_ (enablePersistence false db0) = false)
  /\ (forall b data_dir fs0,
        (PersistenceManager_new b data_dir fs0).1 = None ->
        MemoryDatabase.persistence_enabled_ (MemoryDatabase_new b data_dir fs0).1 = false).
Proof.
  apply (append_without_persistence sample_env_later "manager001" sample_out
           (enablePersistence false sample_store1.1) sample_store1.2).
  - apply reach_enable, reach_append, reach_new.
  - reflexivity.
  - exact sample_out_valid.
  - vm_compute. intros H. inversion H as [| ? ? ? H']. inversion H'.
Defined.

Example construction_without_persistence :
  (MemoryDatabase_new (mkBootEnv true false true) "./data" ∅).1
  = MemoryDatabase.mk ∅ None false.
Proof. reflexivity. Qed.

(** ** Integrity validation *)

Section Validation.

Implicit Types (trans : Transaction) (transactions : list Transaction).

Lemma not_ltb_le (a b : string) : Str.ltb b a = false <-> String.le a b.
Proof.
  unfold Str.ltb, String.ltb, String.le, String.leb.
  rewrite (String.compare_antisym b a).
  destruct (String.compare a b); cbn; intuition congruence.
Qed.

Lemma required_fields_ok_spec trans :
  required_fields_ok trans = true <-> required_fields trans.
Proof.
  unfold required_fields_ok, required_fields.
  rewrite negb_true_iff, !orb_false_iff, !empty_false, Z.leb_gt.
  rewrite andb_false_iff, !negb_false_iff, !str_eqb_eq. tauto.
Qed.

Lemma timestamps_in_order_sorted transactions :
  timestamps_in_order transactions = true <->
  Sorted String.le (map TransactionRecord.timestamp transactions).
Proof.
  induction transactions as [|a l IH]; [by split; [constructor |] |].
  destruct l as [|b l].
  - split; [| done]. intros _. repeat constructor.
  - cbn [timestamps_in_order]. rewrite andb_true_iff, negb_true_iff, not_ltb_le, IH.
    cbn [map]. split.
    + intros [Hab Hs]. constructor; [done | by constructor].
    + intros Hs. inversion Hs as [| ? ? Hs' Hhd]; subst.
      inversion Hhd; subst. done.
Qed.

Lemma timestamps_in_order_spec transactions :
  timestamps_in_order transactions = true <-> timestamps_nondecreasing transactions.
Proof.
  rewrite timestamps_in_order_sorted. unfold timestamps_nondecreasing. split.
  - apply Sorted_StronglySorted. intros x y z. apply transitivity.
  - apply StronglySorted_Sorted.
Qed.

Lemma validateDataIntegrity_spec (data : gmap string (list Transaction)) :
  validateDataIntegrity data = true <->
  forall manager_id transactions,
    data !! manager_id = Some transactions ->
    timestamps_nondecreasing transactions /\ Forall required_fields transactions.
Proof.
  unfold validateDataIntegrity. rewrite forallb_forall. split.
  - intros H m txs Hm.
    specialize (H (m, txs)). cbn in H.
    destruct (andb_prop _ _ (H (proj1 (list_elem_of_In _ _)
                                  (proj2 (elem_of_map_to_list _ _ _) Hm)))) as [H1 H2].
    split; [by apply timestamps_in_order_spec |].
    apply Forall_forall. intros t Ht.
    apply required_fields_ok_spec.
    rewrite forallb_forall in H2. apply H2. by apply list_elem_of_In.
  - intros H [m txs] Hin. cbn.
    apply list_elem_of_In, elem_of_map_to_list in Hin.
    destruct (H _ _ Hin) as [H1 H2].
    apply andb_true_intro. split; [by apply timestamps_in_order_spec |].
    apply forallb_forall. intros t Ht. apply required_fields_ok_spec.
    rewrite Forall_forall in H2. apply H2. by apply list_elem_of_In.
Qed.

End Validation.

(** C6.  [validateDataIntegrity] accepts a recovered map exactly when, for
    every tenant, the timestamps of the sequence are non-decreasing and
    every event has a transaction id and an item id that are not empty, the
    type [in] or [out] and a positive quantity; one violation anywhere makes
    it fail.  When it fails on the recovered data, the constructor of the
    store adopts none of it: the map of tenants is empty. *)
Theorem integrity_validation_all_or_nothing :
  (forall data : gmap string (list Transaction),
      validateDataIntegrity data = true <->
      forall manager_id transactions,
        data !! manager_id = Some transactions ->
        timestamps_nondecreasing transactions /\ Forall required_fields transactions)
  /\ (forall b data_dir fs pm fs1,
        PersistenceManager_new b data_dir fs = (Some pm, fs1) ->
        validateDataIntegrity (recoverFromWAL fs1) = false ->
        (MemoryDatabase_new b data_dir fs).1 = MemoryDatabase.mk ∅ (Some pm) true).
Proof.
  split; [apply validateDataIntegrity_spec |].
  intros b data_dir fs pm fs1 Hpm Hval.
  unfold MemoryDatabase_new. rewrite Hpm, Hval. cbn [fst].
  by destruct (negb _).
Qed.

Lemma integrity_validation_all_or_nothing_witness :
  (MemoryDatabase_new sample_boot "./data" sample_disordered_dir).1
  = MemoryDatabase.mk ∅ (Some sample_pm) true.
Proof.
  apply (proj2 integrity_validation_all_or_nothing sample_boot "./data"
           sample_disordered_dir sample_pm
           (PersistenceManager_new sample_boot "./data" sample_disordered_dir).2).
  - reflexivity.
  - vm_compute. reflexivity.
Defined.

Example disordered_dir_is_recovered_but_rejected :
  recoverFromWAL sample_disordered_dir !! "manager001"
  = Some [wal_image sample_later sample_out; wal_image sample_now sample_in]
  /\ validateDataIntegrity (recoverFromWAL sample_disordered_dir) = false.
Proof. vm_compute. split; reflexivity. Qed.

(** ** The inventory view *)

Section Inventory.

Implicit Types (trans : Transaction).
Implicit Types (inventory_map : gmap (string * string) InventoryRecord.t).

Lemma wrap_int_id z : in_int z -> wrap_int z = z.
Proof.
  unfold in_int, INT_MIN, INT_MAX, wrap_int. intros H.
  rewrite Z.mod_small by lia. lia.
Qed.

Lemma inventory_step_key inventory_map trans :
  inventory_step inventory_map trans !! position_key trans =
    Some
      (let record := position_before inventory_map trans in
       if TransactionRecord.isInbound trans then
         let q := int_add (InventoryRecord.quantity record)
                    (TransactionRecord.quantity trans) in
         InventoryRecord.mk (InventoryRecord.item_id record)
           (InventoryRecord.warehouse_id record) q
           (if 0 <? q
            then d_div
                   (d_add (d_mul (double_of_int (InventoryRecord.quantity record))
                                 (InventoryRecord.avg_price record))
                          (d_mul (double_of_int (TransactionRecord.quantity trans))
                                 (TransactionRecord.unit_price trans)))
                   (double_of_int q)
            else InventoryRecord.avg_price record)
       else
         InventoryRecord.mk (InventoryRecord.item_id record)
           (InventoryRecord.warehouse_id record)
           (int_sub (InventoryRecord.quantity record) (TransactionRecord.quantity trans))
           (InventoryRecord.avg_price record)).
Proof.
  unfold inventory_step, position_before, position_key.
  rewrite lookup_insert_eq.
  by destruct (inventory_map !! _).
Qed.

Lemma inventory_step_other inventory_map trans (k : string * string) :
  k <> position_key trans ->
  inventory_step inventory_map trans !! k = inventory_map !! k.
Proof. intros Hk. unfold inventory_step. by rewrite lookup_insert_ne. Qed.

(** The grouping loop: a record is in the list of a warehouse when it was
    there or is the value of a visited entry of that warehouse with a
    positive quantity. *)
Lemma inventory_group_elem
    (l : list ((string * string) * InventoryRecord.t))
    (acc : gmap string (list InventoryRecord.t)) (w : string) (r : InventoryRecord.t) :
  r ∈ default [] (fold_left inventory_group l acc !! w) <->
  r ∈ default [] (acc !! w)
  \/ exists item, ((w, item), r) ∈ l /\ 0 < InventoryRecord.quantity r.
Proof.
  revert acc. induction l as [|[[w' i'] v] l IH]; intros acc.
  - cbn. split; [by left |]. intros [H | (item & H & _)]; [done |].
    by apply elem_of_nil in H.
  - cbn [fold_left]. rewrite IH. clear IH. unfold inventory_group. cbn [fst snd].
    destruct (0 <? InventoryRecord.quantity v) eqn:Hq.
    + apply Z.ltb_lt in Hq.
      destruct (decide (w' = w)) as [-> | Hne].
      * rewrite lookup_insert_eq.
        change (default [] (Some (default [] (acc !! w) ++ [v])))
          with (default [] (acc !! w) ++ [v]).
        rewrite elem_of_app, list_elem_of_singleton.
        split.
        -- intros [[H | ->] | (item & H & Hpos)].
           ++ by left.
           ++ right. exists i'. split; [apply list_elem_of_here | done].
           ++ right. exists item. split; [by apply list_elem_of_further | done].
        -- intros [H | (item & H & Hpos)]; [by left; left |].
           apply elem_of_cons in H as [[= -> ->] | H].
           ++ left. by right.
           ++ right. by exists item.
      * rewrite lookup_insert_ne by done. split.
        -- intros [H | (item & H & Hpos)]; [by left |].
           right. exists item. split; [by apply list_elem_of_further | done].
        -- intros [H | (item & H & Hpos)]; [by left |].
           apply elem_of_cons in H as [[= -> ->] | H]; [done |].
           right. by exists item.
    + apply Z.ltb_ge in Hq. split.
      * intros [H | (item & H & Hpos)]; [by left |].
        right. exists item. split; [by apply list_elem_of_further | done].
      * intros [H | (item & H & Hpos)]; [by left |].
        apply elem_of_cons in H as [[= -> -> ->] | H]; [lia |].
        right. by exists item.
Qed.

Lemma elem_of_in_key_order {V} (m : gmap (string * string) V) k v :
  (k, v) ∈ in_key_order m <-> m !! k = Some v.
Proof.
  unfold in_key_order. rewrite merge_sort_Permutation. apply elem_of_map_to_list.
Qed.

(** The result of [calculateInventory] holds exactly the positions with a
    positive quantity, each in the list of its warehouse. *)
Lemma calculateInventory_elem (db : MemoryDatabase.t) (manager_id w : string)
    (r : InventoryRecord.t) :
  r ∈ default [] (calculateInventory db manager_id !! w) <->
  exists item,
    positions_of db manager_id !! (w, item) = Some r /\ 0 < InventoryRecord.quantity r.
Proof.
  unfold calculateInventory, inventory_of. rewrite inventory_group_elem.
  rewrite lookup_empty. split.
  - intros [H | (item & H & Hpos)]; [by apply elem_of_nil in H |].
    exists item. by apply elem_of_in_key_order in H.
  - intros (item & H & Hpos). right. exists item.
    by apply elem_of_in_key_order in H.
Qed.

End Inventory.

(** C8.  [calculateInventory] folds the published events of the tenant by
    the key (warehouse_id, item_id).  An inbound event adds its quantity to
    the position of its key and makes the average price
    [(old_qty * old_avg + qty * unit_price) / (old_qty + qty)] when the new
    quantity is positive, and leaves the average price otherwise; any other
    event subtracts its quantity and leaves the price; no other position is
    touched (the sums are taken within the range of [int]).  The result
    holds, by warehouse, exactly the positions whose quantity is positive.
    Receipts of 10 at 2.00 and of 10 at 4.00 of one item give the quantity
    20 at the average price 3.00, and after an issue of 25 the position has
    the quantity -5 and is absent from the result. *)
Theorem calculateInventory_weighted_average :
  (forall inventory_map trans,
      let old := position_before inventory_map trans in
      let q := InventoryRecord.quantity old + TransactionRecord.quantity trans in
      TransactionRecord.isInbound trans = true ->
      in_int q ->
      inventory_step inventory_map trans !! position_key trans
      = Some (InventoryRecord.mk (InventoryRecord.item_id old)
                (InventoryRecord.warehouse_id old) q
                (if 0 <? q
                 then weighted_average (InventoryRecord.quantity old)
                        (InventoryRecord.avg_price old)
                        (TransactionRecord.quantity trans)
                        (TransactionRecord.unit_price trans)
                 else InventoryRecord.avg_price old)))
  /\ (forall inventory_map trans,
        let old := position_before inventory_map trans in
        let q := InventoryRecord.quantity old - TransactionRecord.quantity trans in
        TransactionRecord.isInbound trans = false ->
        in_int q ->
        inventory_step inventory_map trans !! position_key trans
        = Some (InventoryRecord.mk (InventoryRecord.item_id old)
                  (InventoryRecord.warehouse_id old) q
                  (InventoryRecord.avg_price old)))
  /\ (forall inventory_map trans (k : string * string),
        k <> position_key trans ->
        inventory_step inventory_map trans !! k = inventory_map !! k)
  /\ (forall db manager_id w r,
        r ∈ default [] (calculateInventory db manager_id !! w) <->
        exists item,
          positions_of db manager_id !! (w, item) = Some r
          /\ 0 < InventoryRecord.quantity r)
  /\ getTransactions scenario_AB "manager001" = [scenario_A; scenario_B]
  /\ calculateInventory scenario_AB "manager001"
     = {[ "" := [InventoryRecord.mk "I1" "" 20 price_3] ]}
  /\ getTransactions scenario_ABC "manager001" = [scenario_A; scenario_B; scenario_C]
  /\ positions_of scenario_ABC "manager001" !! ("", "I1")
     = Some (InventoryRecord.mk "I1" "" (-5) price_3)
  /\ calculateInventory scenario_ABC "manager001" = ∅.
Proof.
  split; [| split; [| split; [| split]]].
  - intros inventory_map trans old q Hin Hq.
    rewrite inventory_step_key, Hin. fold old. cbn zeta.
    unfold int_add. fold q. by rewrite (wrap_int_id _ Hq).
  - intros inventory_map trans old q Hin Hq.
    rewrite inventory_step_key, Hin. fold old. cbn zeta.
    unfold int_sub. fold q. by rewrite (wrap_int_id _ Hq).
  - apply inventory_step_other.
  - apply calculateInventory_elem.
  - vm_compute. repeat split.
Qed.

Lemma calculateInventory_weighted_average_witness :
  inventory_step ∅ scenario_A !! position_key scenario_A
  = Some (InventoryRecord.mk "I1" "" 10 price_2)
  /\ inventory_step (inventory_step ∅ scenario_A) scenario_C !! position_key scenario_C
     = Some (InventoryRecord.mk "I1" "" (-15) price_2).
Proof.
  split.
  - etrans.
    + apply (proj1 calculateInventory_weighted_average ∅ scenario_A).
      * reflexivity.
      * vm_compute. split; discriminate.
    + vm_compute. reflexivity.
  - etrans.
    + apply (proj1 (proj2 calculateInventory_weighted_average)
               (inventory_step ∅ scenario_A) scenario_C).
      * reflexivity.
      * vm_compute. split; discriminate.
    + vm_compute. reflexivity.
Defined.

(** ** The item summaries *)

Section ItemSummaries.

Implicit Types (trans : Transaction) (transactions : list Transaction).
Implicit Types (item_map : gmap string ItemSummary.t) (a b c : string).

Lemma ltb_not_le a b : Str.ltb a b = true <-> ~ String.le b a.
Proof. rewrite <- not_ltb_le. by destruct (Str.ltb a b). Qed.

Lemma ltb_irrefl a : Str.ltb a a = false.
Proof. by apply not_ltb_le. Qed.

Lemma ltb_trans a b c : Str.ltb a b = true -> Str.ltb b c = true -> Str.ltb a c = true.
Proof.
  rewrite !ltb_not_le. intros Hab Hbc Hca.
  destruct (total String.le b c) as [Hle | Hle]; [| done].
  apply Hab. by etrans.
Qed.

Lemma le_ltb_trans a b c : Str.ltb b a = false -> Str.ltb b c = true -> Str.ltb a c = true.
Proof.
  rewrite not_ltb_le, !ltb_not_le. intros Hab Hbc Hca.
  apply Hbc. by etrans.
Qed.

Lemma buildItemSummaryMap_snoc transactions trans :
  buildItemSummaryMap (transactions ++ [trans])
  = item_summary_step (buildItemSummaryMap transactions) trans.
Proof. unfold buildItemSummaryMap. by rewrite fold_left_app. Qed.

(** One event: the summary of its item takes the members of the event when
    the timestamp of the event is strictly greater than the stored one, and
    keeps its members otherwise. *)
Lemma item_summary_step_key item_map trans s :
  item_map !! TransactionRecord.item_id trans = Some s ->
  exists s',
    item_summary_step item_map trans !! TransactionRecord.item_id trans = Some s'
    /\ if Str.gtb (TransactionRecord.timestamp trans) (ItemSummary.last_updated s)
       then latest_fields s' = event_fields trans
            /\ ItemSummary.last_updated s' = TransactionRecord.timestamp trans
       else latest_fields s' = latest_fields s
            /\ ItemSummary.last_updated s' = ItemSummary.last_updated s.
Proof.
  intros Hs. unfold item_summary_step. rewrite Hs, lookup_insert_eq.
  eexists. split; [reflexivity |].
  by destruct (Str.gtb _ _).
Qed.

(** The first event of an item: the summary takes its members. *)
Lemma item_summary_step_new item_map trans :
  item_map !! TransactionRecord.item_id trans = None ->
  exists s',
    item_summary_step item_map trans !! TransactionRecord.item_id trans = Some s'
    /\ latest_fields s' = event_fields trans
    /\ ItemSummary.last_updated s' = TransactionRecord.timestamp trans.
Proof.
  intros Hs. unfold item_summary_step. rewrite Hs, lookup_insert_eq.
  eexists. split; [reflexivity |]. cbn [ItemSummary.last_updated].
  unfold Str.gtb. by rewrite ltb_irrefl.
Qed.

Lemma item_summary_step_other item_map trans (item : string) :
  item <> TransactionRecord.item_id trans ->
  item_summary_step item_map trans !! item = item_map !! item.
Proof. intros H. unfold item_summary_step. by rewrite lookup_insert_ne. Qed.

Lemma events_of_item_snoc item transactions trans :
  events_of_item item (transactions ++ [trans])
  = events_of_item item transactions
    ++ (if decide (TransactionRecord.item_id trans = item) then [trans] else []).
Proof.
  unfold events_of_item. by rewrite filter_app.
Qed.

(** The summary of an item follows the first event of the item with the
    greatest timestamp: the events of the item before it are strictly
    older, the events after it are not newer. *)
Lemma buildItemSummaryMap_latest transactions (item : string) :
  match buildItemSummaryMap transactions !! item with
  | None => events_of_item item transactions = []
  | Some s =>
      exists pre e post,
        events_of_item item transactions = pre ++ e :: post
        /\ latest_fields s = event_fields e
        /\ ItemSummary.last_updated s = TransactionRecord.timestamp e
        /\ Forall (fun x => Str.ltb (TransactionRecord.timestamp x)
                              (TransactionRecord.timestamp e) = true) pre
        /\ Forall (fun x => Str.gtb (TransactionRecord.timestamp x)
                              (TransactionRecord.timestamp e) = false) post
  end.
Proof.
  induction transactions as [|trans transactions IH] using rev_ind.
  - unfold buildItemSummaryMap. cbn. by rewrite lookup_empty.
  - rewrite buildItemSummaryMap_snoc, events_of_item_snoc.
    destruct (decide (TransactionRecord.item_id trans = item)) as [<- | Hne].
    + destruct (buildItemSummaryMap transactions !! TransactionRecord.item_id trans)
        as [s|] eqn:Hs.
      * destruct IH as (pre & e & post & Hev & Hf & Hlu & Hpre & Hpost).
        destruct (item_summary_step_key _ _ _ Hs) as (s' & -> & Hs').
        rewrite Hlu in Hs'.
        destruct (Str.gtb _ _) eqn:Hgt; destruct Hs' as [Hf' Hlu'].
        -- exists (pre ++ e :: post), trans, []. rewrite Hev.
           split; [done |]. split; [done |]. split; [done |]. split; [| done].
           unfold Str.gtb in Hgt, Hpost.
           apply Forall_app. split; [| apply Forall_cons; split; [done |]].
           ++ eapply Forall_impl; [exact Hpre |]. intros x Hx. cbn in Hx.
              by eapply ltb_trans.
           ++ eapply Forall_impl; [exact Hpost |]. intros x Hx. cbn in Hx.
              by eapply le_ltb_trans.
        -- exists pre, e, (post ++ [trans]). rewrite Hev, <- app_assoc.
           split; [done |]. split; [congruence |]. split; [congruence |].
           split; [done |]. apply Forall_app. split; [done |].
           by apply Forall_singleton.
      * rewrite IH.
        destruct (item_summary_step_new _ _ Hs) as (s' & -> & Hf & Hlu).
        exists [], trans, []. by repeat split.
    + rewrite item_summary_step_other by done. rewrite app_nil_r. exact IH.
Qed.

End ItemSummaries.

(** C9.  In [buildItemSummaryMap] an event replaces the name, category,
    model, unit and price of the summary of its item only when its
    timestamp is strictly greater than the stored [last_updated]; otherwise
    these members and [last_updated] stay.  Hence the summary of an item
    carries the members of the first event of the item with the greatest
    timestamp, and of two events of an item with identical timestamps the
    first-seen one is retained. *)
Theorem latest_fields_first_seen_wins :
  (forall (item_map : gmap string ItemSummary.t) trans s,
      item_map !! TransactionRecord.item_id trans = Some s ->
      exists s',
        item_summary_step item_map trans !! TransactionRecord.item_id trans = Some s'
        /\ if Str.gtb (TransactionRecord.timestamp trans) (ItemSummary.last_updated s)
           then latest_fields s' = event_fields trans
                /\ ItemSummary.last_updated s' = TransactionRecord.timestamp trans
           else latest_fields s' = latest_fields s
                /\ ItemSummary.last_updated s' = ItemSummary.last_updated s)
  /\ (forall transactions (item : string) s,
        buildItemSummaryMap transactions !! item = Some s ->
        exists pre e post,
          events_of_item item transactions = pre ++ e :: post
          /\ latest_fields s = event_fields e
          /\ ItemSummary.last_updated s = TransactionRecord.timestamp e
          /\ Forall (fun x => Str.ltb (TransactionRecord.timestamp x)
                                (TransactionRecord.timestamp e) = true) pre
          /\ Forall (fun x => Str.gtb (TransactionRecord.timestamp x)
                                (TransactionRecord.timestamp e) = false) post)
  /\ (forall first later,
        TransactionRecord.item_id first = TransactionRecord.item_id later ->
        TransactionRecord.timestamp first = TransactionRecord.timestamp later ->
        exists s,
          buildItemSummaryMap [first; later] !! TransactionRecord.item_id first = Some s
          /\ latest_fields s = event_fields first
          /\ ItemSummary.last_updated s = TransactionRecord.timestamp first).
Proof.
  split; [apply item_summary_step_key |]. split.
  - intros transactions item s Hs.
    pose proof (buildItemSummaryMap_latest transactions item) as H.
    by rewrite Hs in H.
  - intros first later Hitem Hts.
    change [first; later] with ([first] ++ [later]).
    rewrite buildItemSummaryMap_snoc.
    destruct (item_summary_step_new ∅ first (lookup_empty _)) as (s1 & Hs1 & Hf1 & Hlu1).
    rewrite Hitem.
    assert (buildItemSummaryMap [first] !! TransactionRecord.item_id later = Some s1) as Hs1'
      by (by rewrite <- Hitem).
    destruct (item_summary_step_key _ _ _ Hs1') as (s2 & Hs2 & Hcase).
    exists s2. split; [done |].
    rewrite Hlu1, Hts in Hcase. unfold Str.gtb in Hcase.
    rewrite ltb_irrefl in Hcase. destruct Hcase as [-> ->]. by rewrite Hts in Hlu1.
Qed.

Lemma latest_fields_first_seen_wins_witness :
  exists s,
    buildItemSummaryMap [tie_first; tie_later] !! TransactionRecord.item_id tie_first
    = Some s
    /\ latest_fields s = event_fields tie_first
    /\ ItemSummary.last_updated s = TransactionRecord.timestamp tie_first.
Proof.
  apply (proj2 (proj2 latest_fields_first_seen_wins) tie_first tie_later).
  - reflexivity.
  - reflexivity.
Defined.

Example summary_of_tied_events :
  buildItemSummaryMap [tie_first; tie_later] !! "I1"
  = Some (ItemSummary.mk "I1" "Old name" "old category" "old model" "box" price_2 10
            "2024-01-15T10:30:00").
Proof. vm_compute. reflexivity. Qed.

(** ** The segments of a directory *)

Section Segments.

Implicit Types (fs : Dir) (content : string).

Lemma lookup_appendToFile fs f text g :
  appendToFile f text fs !! g
  = if decide (f = g) then Some (default "" (fs !! f) +:+ text) else fs !! g.
Proof. unfold appendToFile. apply lookup_insert. Qed.

Lemma only_segment_append fs content text :
  only_segment fs content ->
  only_segment (appendToFile "current.wal" text fs) (content +:+ text).
Proof.
  intros [Hc Hother]. split.
  - rewrite lookup_appendToFile, decide_True by done. by rewrite Hc.
  - intros f Hf Hne. rewrite lookup_appendToFile, decide_False by done. by apply Hother.
Qed.

Lemma only_segment_other fs content f text :
  is_wal_name f = false ->
  only_segment fs content -> only_segment (appendToFile f text fs) content.
Proof.
  intros Hf [Hc Hother]. split.
  - rewrite lookup_appendToFile, decide_False; [done |]. by intros ->.
  - intros g Hg Hne. rewrite lookup_appendToFile.
    case_decide; [congruence | by apply Hother].
Qed.

(** The sorted list of the segments of such a directory. *)
Lemma getWALFiles_only fs content :
  only_segment fs content -> getWALFiles fs = ["current.wal"].
Proof.
  intros [Hc Hother]. unfold getWALFiles.
  set (l := List.filter is_wal_name (map fst (map_to_list fs))).
  assert (forall f, In f l <-> f = "current.wal") as Hl.
  { intros f. unfold l. rewrite filter_In, <- list_elem_of_In, list_elem_of_fmap. split.
    - intros [([g c] & -> & Hin%elem_of_map_to_list) Hf]. cbn in *.
      destruct (decide (g = "current.wal")) as [-> | Hne]; [done |].
      by rewrite (Hother _ Hf Hne) in Hin.
    - intros ->. split; [| reflexivity].
      exists ("current.wal", content). split; [done |]. by apply elem_of_map_to_list. }
  assert (List.NoDup l) as Hnd.
  { unfold l. apply List.NoDup_filter. apply NoDup_ListNoDup, NoDup_fst_map_to_list. }
  assert (l = ["current.wal"]) as ->.
  { destruct l as [|x [|y l']].
    - exfalso. by apply (proj2 (Hl "current.wal")).
    - f_equal. apply Hl. by left.
    - exfalso. inversion Hnd as [| ? ? Hx _]; subst. apply Hx.
      rewrite (proj1 (Hl x)) by (by left).
      rewrite <- (proj1 (Hl y)) by (right; by left). by left. }
  apply Permutation_singleton_r, merge_sort_Permutation.
Qed.

Lemma wal_lines_only fs content :
  only_segment fs content -> wal_lines fs = file_lines content.
Proof.
  intros Hfs. unfold wal_lines. rewrite (getWALFiles_only _ _ Hfs).
  destruct Hfs as [Hc _]. cbn [flat_map]. rewrite Hc. apply app_nil_r.
Qed.

End Segments.

(** ** Construction of the store *)

Section Construction.

Implicit Types (b : BootEnv) (data_dir : string) (fs : Dir).

Lemma is_wal_name_lock : is_wal_name ".lock" = false.
Proof. reflexivity. Qed.

Lemma PersistenceManager_new_ok b data_dir fs :
  dir_ok b = true -> wal_ok b = true ->
  exists fs',
    PersistenceManager_new b data_dir fs = (Some (fresh_manager data_dir), fs')
    /\ forall content,
         only_segment (appendToFile "current.wal" "" fs) content ->
         only_segment fs' content.
Proof.
  intros Hd Hw. unfold PersistenceManager_new. rewrite Hd, Hw. cbn [negb].
  eexists. split; [reflexivity |]. intros content Hc.
  destruct (lock_ok b); [| done].
  by apply only_segment_other.
Qed.

(** A directory without segments holds the empty segment once the stream
    was opened. *)
Lemma only_segment_fresh fs :
  (forall f, is_wal_name f = true -> fs !! f = None) ->
  only_segment (appendToFile "current.wal" "" fs) "".
Proof.
  intros Hfresh. split.
  - rewrite lookup_appendToFile, decide_True by done.
    by rewrite (Hfresh "current.wal").
  - intros f Hf Hne. rewrite lookup_appendToFile, decide_False by done.
    by apply Hfresh.
Qed.

(** Opening the stream again leaves the segment as it is. *)
Lemma only_segment_reopen fs content :
  only_segment fs content ->
  only_segment (appendToFile "current.wal" "" fs) content.
Proof.
  intros H. rewrite <- (append_empty_r content). by apply only_segment_append.
Qed.

Lemma restore_empty : restore ∅ = ∅.
Proof. unfold restore. apply fmap_empty. Qed.

(** The store that the constructor builds when the recovered data passes
    the validation. *)
Lemma MemoryDatabase_new_valid b data_dir fs pm fs' :
  PersistenceManager_new b data_dir fs = (Some pm, fs') ->
  validateDataIntegrity (recoverFromWAL fs') = true ->
  MemoryDatabase_new b data_dir fs
  = (MemoryDatabase.mk (restore (recoverFromWAL fs')) (Some pm) true, fs').
Proof.
  intros Hpm Hval. unfold MemoryDatabase_new. rewrite Hpm, Hval.
  destruct (size (recoverFromWAL fs') =? 0)%nat eqn:Hsize; cbn [negb]; [| done].
  apply Nat.eqb_eq, map_size_empty_iff in Hsize.
  by rewrite Hsize, restore_empty.
Qed.

Lemma getTransactions_restore (data : gmap string (list Transaction)) pm e manager_id :
  getTransactions (MemoryDatabase.mk (restore data) pm e) manager_id
  = default [] (data !! manager_id).
Proof.
  unfold getTransactions, restore. cbn. rewrite lookup_fmap.
  destruct (data !! manager_id); cbn; [apply firstn_all | done].
Qed.

End Construction.

(** ** A run on one segment *)

Section Run.

Implicit Types (env : Env) (manager_id : string) (trans : Transaction).
Implicit Types (db : MemoryDatabase.t) (fs : Dir) (pm : PersistenceManager.t).
Implicit Types (op : Env * string * Transaction) (ops : list (Env * string * Transaction)).

Lemma wal_text_cons op ops :
  wal_text (op :: ops) = line_of op +:+ String newline (wal_text ops).
Proof. reflexivity. Qed.

(** A write that succeeds on a segment within the size limit, the stream
    not failing, appends its line and leaves the manager as it is. *)
Lemma writeToWAL_true env pm fs manager_id trans content pm' fs' :
  PersistenceManager.wal_file_path_ pm = "current.wal" ->
  only_segment fs content ->
  stream_fails (fault env) = false ->
  Z.of_nat (String.length
              (content +:+ line_of (env, manager_id, trans) +:+ String newline ""))
    <= PersistenceManager.wal_size_limit_ pm ->
  writeToWAL env pm fs manager_id trans = (true, pm', fs') ->
  pm' = pm
  /\ fs' = appendToFile "current.wal"
             (line_of (env, manager_id, trans) +:+ String newline "") fs.
Proof.
  intros Hpath [Hc _] Hgood Hsize. unfold writeToWAL, line_of. cbn [fst snd].
  rewrite Hpath.
  destruct (PersistenceManager.wal_is_open pm); cbn [negb]; [| by intros [=]].
  assert (shouldCreateSnapshot pm
            (appendToFile "current.wal"
               (serializeTransaction (clock env) manager_id trans +:+ String newline "") fs)
          = false) as Hno.
  { unfold shouldCreateSnapshot. rewrite Hpath, lookup_appendToFile, decide_True by done.
    rewrite Hc. cbn [default]. apply Z.ltb_ge. exact Hsize. }
  destruct (fault env); try (by intros [=]); try discriminate Hgood.
  cbn [written_text]. rewrite Hno. by intros [= <- <-].
Qed.

Lemma append_all_cons env manager_id trans ops db fs :
  append_all ((env, manager_id, trans) :: ops) db fs
  = let r := appendTransaction env manager_id trans db fs in
    let rest := append_all ops r.1.2 r.2 in
    (r.1.1 :: rest.1.1, rest.1.2, rest.2).
Proof.
  cbn [append_all].
  destruct (appendTransaction env manager_id trans db fs) as [[r db1] fs1].
  cbn [fst snd]. by destruct (append_all ops db1 fs1) as [[rs db2] fs2].
Qed.

Lemma append_all_length ops db fs : length (append_all ops db fs).1.1 = length ops.
Proof.
  revert db fs. induction ops as [|[[env m] t] ops IH]; intros db fs; [done |].
  rewrite append_all_cons. cbn. by rewrite IH.
Qed.

(** When every call succeeds on a store with persistence on one segment
    within the size limit, and every write reaches the file, the segment
    grows by the lines of the calls, and every call was given a valid
    event. *)
Lemma append_all_segment ops db fs pm content :
  MemoryDatabase.persistence_ db = Some pm ->
  MemoryDatabase.persistence_enabled_ db = true ->
  PersistenceManager.wal_file_path_ pm = "current.wal" ->
  only_segment fs content ->
  Forall write_reaches_file ops ->
  Z.of_nat (String.length (content +:+ wal_text ops))
    <= PersistenceManager.wal_size_limit_ pm ->
  Forall (fun r => r = Success) (append_all ops db fs).1.1 ->
  only_segment (append_all ops db fs).2 (content +:+ wal_text ops)
  /\ Forall (fun op => valid_event op.1.2 op.2) ops.
Proof.
  revert db fs content.
  induction ops as [|[[env m] t] ops IH];
    intros db fs content Hpm Hen Hpath Hfs Hgood Hsize Hok.
  - cbn. by rewrite append_empty_r.
  - rewrite append_all_cons in Hok |- *. cbn [fst snd] in Hok |- *.
    apply Forall_cons in Hok as [Hr Hok].
    apply Forall_cons in Hgood as [Hgood1 Hgood].
    destruct (appendTransaction env m t db fs) as [[r db1] fs1] eqn:Happ.
    cbn [fst snd] in Hr, Hok |- *. subst r.
    pose proof Happ as (Hv & Hd & _ & _)%appendTransaction_success.
    rewrite (appendTransaction_checked _ _ _ _ _ Hv Hd), Hen, Hpm in Happ.
    destruct (writeToWAL env pm fs m t) as [[[] pm'] fs'] eqn:Hw; [| discriminate Happ].
    injection Happ as <- <-.
    rewrite wal_text_cons in Hsize |- *.
    assert (Z.of_nat (String.length
                        (content +:+ line_of (env, m, t) +:+ String newline ""))
            <= PersistenceManager.wal_size_limit_ pm) as Hsize1.
    { etrans; [| exact Hsize]. apply Nat2Z.inj_le.
      rewrite !length_append. cbn [String.length]. lia. }
    destruct (writeToWAL_true _ _ _ _ _ _ _ _ Hpath Hfs Hgood1 Hsize1 Hw) as [-> ->].
    assert (content +:+ line_of (env, m, t) +:+ String newline (wal_text ops)
            = (content +:+ line_of (env, m, t) +:+ String newline "") +:+ wal_text ops)
      as Htext by (by rewrite !append_assoc).
    rewrite Htext in Hsize |- *.
    apply (IH _ _ (content +:+ line_of (env, m, t) +:+ String newline "")) in Hok
      as [Hseg Hvalid];
      [| reflexivity | reflexivity | exact Hpath
       | by apply only_segment_append | exact Hgood | exact Hsize].
    split; [done |]. by apply Forall_cons.
Qed.

(** The events of the successful calls of a tenant are the events of its
    calls when all calls succeed. *)
Lemma accepted_for_all manager_id ops (rs : list Result) :
  length rs = length ops ->
  Forall (fun r => r = Success) rs ->
  accepted_for manager_id ops rs = map (fun op => op.2) (ops_of manager_id ops).
Proof.
  revert rs. induction ops as [|[[env m] t] ops IH]; intros [|r rs] Hlen Hok;
    try done.
  apply Forall_cons in Hok as [-> Hok]. injection Hlen as Hlen.
  rewrite accepted_for_cons, (IH _ Hlen Hok). cbn [isSuccess andb].
  unfold ops_of. rewrite filter_cons. cbn [fst snd].
  case_bool_decide; by rewrite ?decide_True, ?decide_False by done.
Qed.

End Run.

(** ** Reading the segment back *)

Section ReadBack.

Implicit Types (manager_id : string).
Implicit Types (op : Env * string * Transaction) (ops : list (Env * string * Transaction)).

Lemma line_newline_free op :
  wal_safe op -> Str.contains newline (line_of op) = false.
Proof.
  intros (_ & Hfree & _). unfold line_of, serializeTransaction.
  apply contains_join; [reflexivity |].
  unfold free_of, text_fields in Hfree.
  repeat match goal with
         | H : Forall _ (_ :: _) |- _ => apply Forall_cons in H as [? H]
         end.
  repeat first [apply Forall_nil_2 | apply Forall_cons_2];
    first [assumption | apply contains_dec; reflexivity
          | apply contains_put_fixed2; by right
          | apply contains_timestamp; by right].
Qed.

Lemma line_parses op :
  wal_safe op ->
  deserializeTransaction (line_of op) = Some (op.1.2, recovered_event op).
Proof.
  intros (Hfree & _ & Hnote & Hq & Hp).
  by apply deserialize_serialize.
Qed.

Lemma deserialize_empty : deserializeTransaction "" = None.
Proof. reflexivity. Qed.

Lemma parsed_for_line manager_id op :
  wal_safe op ->
  parsed_for manager_id (line_of op)
  = if decide (op.1.2 = manager_id) then Some (recovered_event op) else None.
Proof.
  intros Hop. pose proof (line_parses _ Hop) as Hparse. unfold parsed_for.
  destruct (Str.empty (line_of op)) eqn:He.
  - apply empty_true in He. rewrite He in Hparse. discriminate Hparse.
  - by rewrite Hparse.
Qed.

(** The lines that recovery reads from the text of a run are the lines of
    the calls. *)
Lemma file_lines_wal_text ops :
  Forall wal_safe ops -> file_lines (wal_text ops) = map line_of ops.
Proof.
  induction 1 as [|op ops Hop _ IH]; [done |].
  rewrite wal_text_cons. unfold file_lines in *.
  rewrite getlines_token by (by apply line_newline_free). by rewrite IH.
Qed.

Lemma omap_parsed_lines manager_id ops :
  Forall wal_safe ops ->
  omap (parsed_for manager_id) (map line_of ops)
  = map recovered_event (ops_of manager_id ops).
Proof.
  induction 1 as [|op ops Hop _ IH]; [done |].
  cbn [map]. rewrite omap_step, (parsed_for_line _ _ Hop), IH.
  unfold ops_of. rewrite filter_cons. by destruct (decide _).
Qed.

(** What recovery makes of the text of a run. *)
Lemma recover_wal_text (fs : Dir) ops manager_id :
  only_segment fs (wal_text ops) ->
  Forall wal_safe ops ->
  default [] (recoverFromWAL fs !! manager_id)
  = map recovered_event (ops_of manager_id ops).
Proof.
  intros Hfs Hops.
  rewrite recoverFromWAL_lines, (wal_lines_only _ _ Hfs), (file_lines_wal_text _ Hops).
  rewrite recover_lines_lookup, lookup_empty. cbn [default app].
  by apply omap_parsed_lines.
Qed.

Lemma required_fields_recovered op :
  valid_event op.1.2 op.2 -> required_fields (recovered_event op).
Proof. intros (_ & H). exact H. Qed.

(** The recovered data of a run passes the validation when the times of
    the writes are in order. *)
Lemma recovered_run_valid (fs : Dir) ops :
  only_segment fs (wal_text ops) ->
  Forall wal_safe ops ->
  Forall (fun op => valid_event op.1.2 op.2) ops ->
  write_times_in_order ops ->
  validateDataIntegrity (recoverFromWAL fs) = true.
Proof.
  intros Hfs Hops Hvalid Htimes.
  apply validateDataIntegrity_spec. intros m txs Hm.
  pose proof (recover_wal_text fs ops m Hfs Hops) as Hrec.
  rewrite Hm in Hrec. cbn [from_option id] in Hrec. subst txs. split.
  - unfold timestamps_nondecreasing. rewrite map_map. apply Htimes.
  - apply Forall_fmap, Forall_forall. unfold ops_of.
    intros op [_ Hin]%list_elem_of_filter.
    apply required_fields_recovered.
    rewrite Forall_forall in Hvalid. by apply Hvalid.
Qed.

End ReadBack.

(** ** Restart *)

Section Restart.

Implicit Types (ops earlier : list (Env * string * Transaction)).

Lemma same_caller_fields_refl (l : list Transaction) : Forall2 same_caller_fields l l.
Proof. induction l; constructor; [repeat split | done]. Qed.

Lemma same_caller_fields_recovered ops :
  Forall2 same_caller_fields (map (fun op => op.2) ops) (map recovered_event ops).
Proof.
  induction ops as [|op ops IH]; cbn [map]; constructor; [| done].
  apply same_caller_fields_image.
Qed.

Lemma wal_text_app earlier ops :
  wal_text (earlier ++ ops) = wal_text earlier +:+ wal_text ops.
Proof.
  induction earlier as [|op earlier IH]; [done |].
  cbn [app]. rewrite !wal_text_cons, IH. by rewrite append_assoc.
Qed.

Lemma ops_of_app manager_id earlier ops :
  ops_of manager_id (earlier ++ ops) = ops_of manager_id earlier ++ ops_of manager_id ops.
Proof. unfold ops_of. apply filter_app. Qed.

Lemma write_times_in_order_earlier earlier ops :
  write_times_in_order (earlier ++ ops) -> write_times_in_order earlier.
Proof.
  intros H m. specialize (H m). rewrite ops_of_app, map_app in H.
  by apply StronglySorted_app_1_l in H.
Qed.

(** A directory without segments holds the empty log. *)
Lemma holds_log_fresh (fs0 : Dir) :
  (forall f, is_wal_name f = true -> fs0 !! f = None) -> holds_log fs0 [].
Proof. apply only_segment_fresh. Qed.

(** The directory that a run leaves holds the log of the run. *)
Lemma holds_log_segment (fs0 : Dir) ops :
  only_segment fs0 (wal_text ops) -> holds_log fs0 ops.
Proof. apply only_segment_reopen. Qed.

(** A run whose writes reach the file leaves a directory that holds the
    log of the earlier calls and of its own, so that the runs of the store
    can be chained. *)
Lemma run_holds_log (b : BootEnv) (data_dir : string) (fs0 : Dir) earlier ops :
  dir_ok b = true -> wal_ok b = true ->
  holds_log fs0 earlier ->
  Forall wal_safe earlier ->
  Forall (fun op => valid_event op.1.2 op.2) earlier ->
  Forall (fun r => r = Success) (run_results b data_dir fs0 ops) ->
  Forall write_reaches_file ops ->
  write_times_in_order earlier ->
  Z.of_nat (String.length (wal_text (earlier ++ ops))) <= 100 * 1024 * 1024 ->
  holds_log
    (append_all ops (MemoryDatabase_new b data_dir fs0).1
       (MemoryDatabase_new b data_dir fs0).2).2
    (earlier ++ ops)
  /\ Forall (fun op => valid_event op.1.2 op.2) (earlier ++ ops).
Proof.
  intros Hd Hw Hlog Hsafe0 Hvalid0 Hok Hgood Htimes Hsize. unfold run_results in Hok.
  destruct (PersistenceManager_new_ok b data_dir fs0 Hd Hw) as (fs1 & Hpm & Hseg).
  specialize (Hseg _ Hlog).
  pose proof (recovered_run_valid fs1 earlier Hseg Hsafe0 Hvalid0 Htimes) as Hval0.
  rewrite (MemoryDatabase_new_valid _ _ _ _ _ Hpm Hval0) in Hok |- *.
  cbn [fst snd] in Hok |- *. rewrite wal_text_app in Hsize.
  set (db0 := MemoryDatabase.mk (restore (recoverFromWAL fs1))
                (Some (fresh_manager data_dir)) true) in *.
  destruct (append_all_segment ops db0 fs1 (fresh_manager data_dir) (wal_text earlier)
              eq_refl eq_refl eq_refl Hseg Hgood Hsize Hok) as [Hend Hvalid].
  split; [| by apply Forall_app].
  apply holds_log_segment. by rewrite wal_text_app.
Qed.

End Restart.

(** C4 (as amended).  A store is constructed with persistence on a data
    directory that holds no WAL segment, or only the segment [current.wal]
    with the complete lines of earlier calls, and N events are appended by
    calls that all succeed and whose writes to the WAL stream all reach the
    file.  Let the tenant ids and the string members of the events
    hold neither [|] nor a line feed, the notes be not empty, the
    quantities be [int]s, the prices be unchanged by printing them with two
    fractional digits and reading them back, the times of the WAL writes be
    non-decreasing for every tenant, and the lines fit into the size limit
    of one segment.  Then a store constructed on the directory afterwards
    returns, for every tenant, as many events as the first store, in the
    same order: the events that the first store had recovered, unchanged,
    followed by the N events, which agree with the appended ones in the
    fourteen caller-supplied members; the timestamp of each of these is the
    time of its WAL write and its member [manager_id] is empty. *)
Theorem recovery_fidelity
    (b b' : BootEnv) (data_dir : string) (fs0 : Dir)
    (earlier ops : list (Env * string * Transaction)) :
  dir_ok b = true -> wal_ok b = true ->
  dir_ok b' = true -> wal_ok b' = true ->
  holds_log fs0 earlier ->
  Forall wal_safe earlier ->
  Forall (fun op => valid_event op.1.2 op.2) earlier ->
  Forall (fun r => r = Success) (run_results b data_dir fs0 ops) ->
  Forall write_reaches_file ops ->
  Forall wal_safe ops ->
  write_times_in_order (earlier ++ ops) ->
  Z.of_nat (String.length (wal_text (earlier ++ ops))) <= 100 * 1024 * 1024 ->
  forall manager_id,
    getTransactions (store_before_restart b data_dir fs0 ops) manager_id
    = map recovered_event (ops_of manager_id earlier)
      ++ map (fun op => op.2) (ops_of manager_id ops)
    /\ getTransactions (store_after_restart b b' data_dir fs0 ops) manager_id
       = map recovered_event (ops_of manager_id earlier)
         ++ map recovered_event (ops_of manager_id ops)
    /\ Forall2 same_caller_fields
         (getTransactions (store_before_restart b data_dir fs0 ops) manager_id)
         (getTransactions (store_after_restart b b' data_dir fs0 ops) manager_id).
Proof.
  intros Hd Hw Hd' Hw' Hlog Hsafe0 Hvalid0 Hok Hgood Hsafe Htimes Hsize m.
  unfold run_results in Hok. unfold store_before_restart, store_after_restart.
  (* the first construction *)
  destruct (PersistenceManager_new_ok b data_dir fs0 Hd Hw) as (fs1 & Hpm & Hseg).
  specialize (Hseg _ Hlog).
  pose proof (recovered_run_valid fs1 earlier Hseg Hsafe0 Hvalid0
                (write_times_in_order_earlier _ _ Htimes)) as Hval0.
  rewrite (MemoryDatabase_new_valid _ _ _ _ _ Hpm Hval0) in Hok |- *.
  cbn [fst snd] in Hok |- *.
  set (db0 := MemoryDatabase.mk (restore (recoverFromWAL fs1))
                (Some (fresh_manager data_dir)) true) in *.
  assert (counts_match db0) as Hcounts by apply counts_match_restore.
  assert (getTransactions db0 m = map recovered_event (ops_of m earlier)) as Hget0.
  { unfold db0. rewrite getTransactions_restore.
    by apply recover_wal_text. }
  (* the run *)
  rewrite wal_text_app in Hsize.
  destruct (append_all_segment ops db0 fs1 (fresh_manager data_dir) (wal_text earlier)
              eq_refl eq_refl eq_refl Hseg Hgood Hsize Hok) as [Hend Hvalid].
  destruct (append_all_lookup ops db0 fs1 m Hcounts) as [Hbefore _].
  rewrite Hget0, (accepted_for_all _ _ _ (append_all_length _ _ _) Hok) in Hbefore.
  (* the second construction *)
  destruct (PersistenceManager_new_ok b' data_dir (append_all ops db0 fs1).2 Hd' Hw')
    as (fs2 & Hpm' & Hseg').
  specialize (Hseg' _ (only_segment_reopen _ _ Hend)).
  rewrite <- wal_text_app in Hseg'.
  assert (Forall wal_safe (earlier ++ ops)) as Hsafe' by (by apply Forall_app).
  assert (Forall (fun op => valid_event op.1.2 op.2) (earlier ++ ops)) as Hvalid'
    by (by apply Forall_app).
  pose proof (recovered_run_valid fs2 _ Hseg' Hsafe' Hvalid' Htimes) as Hval.
  rewrite (MemoryDatabase_new_valid _ _ _ _ _ Hpm' Hval). cbn [fst].
  rewrite getTransactions_restore, (recover_wal_text fs2 _ m Hseg' Hsafe').
  rewrite ops_of_app, map_app, Hbefore. split; [done |]. split; [done |].
  apply Forall2_app; [apply same_caller_fields_refl | apply same_caller_fields_recovered].
Qed.

Lemma sample_ops_safe : Forall wal_safe sample_ops.
Proof.
  repeat constructor; try discriminate; try (vm_compute; reflexivity);
    vm_compute; discriminate.
Qed.

Lemma recovery_fidelity_witness :
  getTransactions (store_before_restart sample_boot "./data" ∅ sample_ops) "manager001"
  = map recovered_event (ops_of "manager001" [])
    ++ map (fun op => op.2) (ops_of "manager001" sample_ops)
  /\ getTransactions
       (store_after_restart sample_boot sample_boot "./data" ∅ sample_ops) "manager001"
     = map recovered_event (ops_of "manager001" [])
       ++ map recovered_event (ops_of "manager001" sample_ops)
  /\ Forall2 same_caller_fields
       (getTransactions (store_before_restart sample_boot "./data" ∅ sample_ops)
          "manager001")
       (getTransactions
          (store_after_restart sample_boot sample_boot "./data" ∅ sample_ops)
          "manager001").
Proof.
  apply (recovery_fidelity sample_boot sample_boot "./data" ∅ [] sample_ops).
  - reflexivity.
  - reflexivity.
  - reflexivity.
  - reflexivity.
  - apply holds_log_fresh. intros f _. apply lookup_empty.
  - constructor.
  - constructor.
  - vm_compute. repeat constructor.
  - repeat constructor.
  - exact sample_ops_safe.
  - intros m. unfold ops_of, sample_ops. cbn [app].
    rewrite !filter_cons, filter_nil. cbn [fst snd].
    case_decide; cbn [map]; repeat constructor.
  - vm_compute. discriminate.
Defined.

Example sample_run_recovered :
  getTransactions (store_before_restart sample_boot "./data" ∅ sample_ops) "manager001"
  = [sample_in; sample_out]
  /\ getTransactions
       (store_after_restart sample_boot sample_boot "./data" ∅ sample_ops) "manager001"
     = [wal_image sample_now sample_in; wal_image sample_later sample_out].
Proof. vm_compute. split; reflexivity. Qed.

(** C4 as stated fails: the recovered event carries the time of the WAL
    write as its timestamp (and an empty [manager_id]), not the timestamp
    (and tenant) that the caller had set. *)
Lemma recovery_changes_timestamp :
  Forall (fun r => r = Success)
    (run_results sample_boot "./data" ∅ [(sample_env, "manager001", sample_in)])
  /\ ~ recovery_is_faithful sample_boot sample_boot "./data" ∅
         [(sample_env, "manager001", sample_in)] "manager001".
Proof.
  split.
  - vm_compute. repeat constructor.
  - intros H. vm_compute in H. discriminate H.
Qed.

(** An event without a note is lost at the restart. *)
Example recovery_loses_event_without_note :
  run_results sample_boot "./data" ∅ [(sample_env, "manager001", sample_no_note)]
  = [Success]
  /\ getTransactions
       (store_after_restart sample_boot sample_boot "./data" ∅
          [(sample_env, "manager001", sample_no_note)]) "manager001"
     = [].
Proof. vm_compute. split; reflexivity. Qed.

(** A write that fails in the stream is not noticed: [writeToWAL] returns
    [true] although no line is in the file. *)
Example failed_stream_write_returns_true :
  writeToWAL sample_env_lost sample_pm sample_store0.2 "manager001" sample_in
  = (true, sample_pm, appendToFile "current.wal" "" sample_store0.2).
Proof. vm_compute. reflexivity. Qed.

(** The event of such a call is published and is lost at the restart,
    whether nothing of its line or a part of it reached the file. *)
Example recovery_loses_event_of_failed_stream_write :
  run_results sample_boot "./data" ∅ [(sample_env_lost, "manager001", sample_in)]
  = [Success]
  /\ getTransactions
       (store_before_restart sample_boot "./data" ∅
          [(sample_env_lost, "manager001", sample_in)]) "manager001"
     = [sample_in]
  /\ getTransactions
       (store_after_restart sample_boot sample_boot "./data" ∅
          [(sample_env_lost, "manager001", sample_in)]) "manager001"
     = []
  /\ run_results sample_boot "./data" ∅ [(sample_env_torn, "manager001", sample_in)]
     = [Success]
  /\ getTransactions
       (store_after_restart sample_boot sample_boot "./data" ∅
          [(sample_env_torn, "manager001", sample_in)]) "manager001"
     = [].
Proof. vm_compute. repeat split; reflexivity. Qed.

(** The event of a call that fails after its line was flushed is not
    published, and is there after the restart. *)
Example recovery_returns_event_of_failed_call :
  run_results sample_boot "./data" ∅ [(sample_env_fault, "manager001", sample_in)]
  = [Error WAL_WRITE_FAILED "Failed to write transaction to WAL"]
  /\ getTransactions
       (store_before_restart sample_boot "./data" ∅
          [(sample_env_fault, "manager001", sample_in)]) "manager001"
     = []
  /\ getTransactions
       (store_after_restart sample_boot sample_boot "./data" ∅
          [(sample_env_fault, "manager001", sample_in)]) "manager001"
     = [wal_image sample_now sample_in].
Proof. vm_compute. repeat split; reflexivity. Qed.

(** ** Queries *)

Section Queries.

Implicit Types (db : MemoryDatabase.t) (manager_id : string).
Implicit Types (trans : Transaction) (transactions : list Transaction).

(** A loop that pushes the image of every element that passes a test. *)
Lemma push_back_loop {A B} (p : A -> bool) (f : A -> B) (xs : list A) (acc : list B) :
  fold_left (fun result x => if p x then result ++ [f x] else result) xs acc
  = acc ++ map f (List.filter p xs).
Proof.
  revert acc. induction xs as [|x xs IH]; intros acc; cbn.
  - by rewrite app_nil_r.
  - rewrite IH. destruct (p x); cbn; [by rewrite <- app_assoc | done].
Qed.

Lemma select_loop {A} (p : A -> bool) (xs : list A) :
  fold_left (fun result x => if p x then result ++ [x] else result) xs []
  = List.filter p xs.
Proof. rewrite (push_back_loop p (fun x => x)). cbn. apply map_id. Qed.

Lemma elem_of_select {A} (p : A -> bool) (xs : list A) (x : A) :
  x ∈ List.filter p xs <-> x ∈ xs /\ p x = true.
Proof. rewrite !list_elem_of_In. apply filter_In. Qed.

Lemma sublist_select {A} (p : A -> bool) (xs : list A) :
  sublist (List.filter p xs) xs.
Proof.
  induction xs as [|x xs IH]; cbn; [done |].
  destruct (p x); [by apply sublist_skip | by apply sublist_cons].
Qed.

Lemma sublist_select_weaken {A} (p q : A -> bool) (xs : list A) :
  (forall x, p x = true -> q x = true) ->
  sublist (List.filter p xs) (List.filter q xs).
Proof.
  intros Hpq. induction xs as [|x xs IH]; cbn; [done |].
  destruct (p x) eqn:Hp.
  - rewrite (Hpq _ Hp). by apply sublist_skip.
  - destruct (q x); [by apply sublist_cons | done].
Qed.

Lemma select_app {A} (p : A -> bool) (xs ys : list A) :
  List.filter p (xs ++ ys) = List.filter p xs ++ List.filter p ys.
Proof. apply List.filter_app. Qed.

Lemma getTransactionsByItem_select db manager_id item_id :
  getTransactionsByItem db manager_id item_id
  = List.filter (fun trans => Str.eqb (TransactionRecord.item_id trans) item_id)
      (getTransactions db manager_id).
Proof. apply select_loop. Qed.

Lemma getTransactionsByDocument_select db manager_id document_no :
  getTransactionsByDocument db manager_id document_no
  = List.filter (fun trans => Str.eqb (TransactionRecord.document_no trans) document_no)
      (getTransactions db manager_id).
Proof. apply select_loop. Qed.

Lemma getTransactionsByPartner_select db manager_id partner_id :
  getTransactionsByPartner db manager_id partner_id
  = List.filter (fun trans => Str.eqb (TransactionRecord.partner_id trans) partner_id)
      (getTransactions db manager_id).
Proof. apply select_loop. Qed.

Lemma getTransactionsByTimeRange_select db manager_id start_time end_time :
  getTransactionsByTimeRange db manager_id start_time end_time
  = List.filter
      (fun trans => isTimeInRange (TransactionRecord.timestamp trans) start_time end_time)
      (getTransactions db manager_id).
Proof. apply select_loop. Qed.

Lemma isTimeInRange_spec (timestamp start_time end_time : string) :
  isTimeInRange timestamp start_time end_time = true
  <-> String.le start_time timestamp /\ String.le timestamp end_time.
Proof.
  unfold isTimeInRange.
  by rewrite andb_true_iff, !negb_true_iff, !not_ltb_le.
Qed.

End Queries.
Section QueryFacts.

Implicit Types (db : MemoryDatabase.t) (manager_id : string) (fs : Dir).
Implicit Types (trans : Transaction) (transactions : list Transaction).

Lemma select_eqb_filter {A} (f : A -> string) (key : string) (xs : list A) :
  List.filter (fun x => Str.eqb (f x) key) xs = filter (fun x => f x = key) xs.
Proof.
  induction xs as [|x xs IH]; [done |].
  rewrite filter_cons. cbn [List.filter]. rewrite IH.
  destruct (decide (f x = key)) as [H | H].
  - by rewrite (proj2 (str_eqb_eq _ _) H).
  - by rewrite (proj2 (str_eqb_neq _ _) H).
Qed.

(** The views of a tenant depend on the entry of the tenant only. *)
Lemma getTransactions_entry db1 db2 manager_id :
  MemoryDatabase.managers_ db1 !! manager_id = MemoryDatabase.managers_ db2 !! manager_id ->
  getTransactions db1 manager_id = getTransactions db2 manager_id
  /\ getTransactionCount db1 manager_id = getTransactionCount db2 manager_id.
Proof. intros H. unfold getTransactions, getTransactionCount. by rewrite H. Qed.

(** A call for one tenant leaves the entries of the other tenants as they
    were, whatever its result. *)
Lemma appendTransaction_other env manager_id trans db fs (other : string) :
  other <> manager_id ->
  MemoryDatabase.managers_ (appendTransaction env manager_id trans db fs).1.2 !! other
  = MemoryDatabase.managers_ db !! other.
Proof.
  intros Hne.
  destruct (appendTransaction env manager_id trans db fs) as [[r db'] fs'] eqn:H.
  destruct r as [|code message]; cbn [fst snd].
  - apply appendTransaction_success in H as (_ & _ & -> & _).
    unfold push_transaction. by rewrite lookup_insert_ne.
  - pose proof (appendTransaction_error env manager_id trans db fs code message) as He.
    rewrite H in He. cbn in He. by rewrite He.
Qed.

End QueryFacts.

(** X1.  [getTransactionsByItem], [getTransactionsByDocument] and
    [getTransactionsByPartner] return the subsequence of the published
    events of the tenant whose item id, document number or partner id is
    the argument: exactly these events, in the published order.  Hence
    every published event is found under each of its own members. *)
Theorem member_queries_select_published
    (db : MemoryDatabase.t) (manager_id key : string) :
  getTransactionsByItem db manager_id key
  = filter (fun trans => TransactionRecord.item_id trans = key)
      (getTransactions db manager_id)
  /\ getTransactionsByDocument db manager_id key
     = filter (fun trans => TransactionRecord.document_no trans = key)
         (getTransactions db manager_id)
  /\ getTransactionsByPartner db manager_id key
     = filter (fun trans => TransactionRecord.partner_id trans = key)
         (getTransactions db manager_id)
  /\ forall trans,
       trans ∈ getTransactions db manager_id ->
       trans ∈ getTransactionsByItem db manager_id (TransactionRecord.item_id trans)
       /\ trans ∈ getTransactionsByDocument db manager_id
                    (TransactionRecord.document_no trans)
       /\ trans ∈ getTransactionsByPartner db manager_id
                    (TransactionRecord.partner_id trans).
Proof.
  rewrite getTransactionsByItem_select, getTransactionsByDocument_select,
    getTransactionsByPartner_select.
  split; [apply select_eqb_filter |].
  split; [apply select_eqb_filter |].
  split; [apply select_eqb_filter |].
  intros trans Hin.
  rewrite getTransactionsByItem_select, getTransactionsByDocument_select,
    getTransactionsByPartner_select, !elem_of_select.
  repeat split; try done; by apply str_eqb_eq.
Qed.

(** X2.  [getTransactionsByTimeRange] returns the published events of the
    tenant whose timestamp lies between the two bounds, both included, in
    the order of strings; the events come in the published order. *)
Theorem time_range_query_selects
    (db : MemoryDatabase.t) (manager_id start_time end_time : string) :
  (forall trans,
      trans ∈ getTransactionsByTimeRange db manager_id start_time end_time
      <-> trans ∈ getTransactions db manager_id
          /\ String.le start_time (TransactionRecord.timestamp trans)
          /\ String.le (TransactionRecord.timestamp trans) end_time)
  /\ sublist (getTransactionsByTimeRange db manager_id start_time end_time)
             (getTransactions db manager_id).
Proof.
  rewrite getTransactionsByTimeRange_select. split.
  - intros trans. by rewrite elem_of_select, isTimeInRange_spec.
  - apply sublist_select.
Qed.

(** X3.  When the upper bound is below the lower bound no event is in the
    range: the query returns nothing and the summary of the range is the
    zero summary. *)
Theorem inverted_time_range_is_empty
    (db : MemoryDatabase.t) (manager_id start_time end_time : string) :
  Str.ltb end_time start_time = true ->
  getTransactionsByTimeRange db manager_id start_time end_time = []
  /\ getInOutSummary db manager_id start_time end_time = InOutSummary.default.
Proof.
  intros Hlt.
  assert (getTransactionsByTimeRange db manager_id start_time end_time = []) as Hnil.
  { rewrite getTransactionsByTimeRange_select.
    induction (getTransactions db manager_id) as [|trans l IH]; [done |].
    cbn. destruct (isTimeInRange _ _ _) eqn:Hin; [| exact IH].
    apply isTimeInRange_spec in Hin as [H1 H2].
    apply ltb_not_le in Hlt. destruct Hlt. by etrans. }
  split; [done |]. unfold getInOutSummary. by rewrite Hnil.
Qed.

Lemma inverted_time_range_is_empty_witness :
  getTransactionsByTimeRange scenario_ABC "manager001" "2024-12-31" "2024-01-01" = []
  /\ getInOutSummary scenario_ABC "manager001" "2024-12-31" "2024-01-01"
     = InOutSummary.default.
Proof.
  apply (inverted_time_range_is_empty scenario_ABC "manager001" "2024-12-31" "2024-01-01").
  reflexivity.
Defined.

(** X4.  Widening the range keeps every event of the result: the result
    for a range is a subsequence of the result for every range that
    contains it. *)
Theorem wider_time_range_returns_more
    (db : MemoryDatabase.t) (manager_id : string)
    (start_time end_time start_time' end_time' : string) :
  String.le start_time' start_time ->
  String.le end_time end_time' ->
  sublist (getTransactionsByTimeRange db manager_id start_time end_time)
          (getTransactionsByTimeRange db manager_id start_time' end_time').
Proof.
  intros Hs He. rewrite !getTransactionsByTimeRange_select.
  apply sublist_select_weaken. intros trans [H1 H2]%isTimeInRange_spec.
  apply isTimeInRange_spec. split; by etrans.
Qed.
Lemma wider_time_range_returns_more_witness :
  sublist (getTransactionsByTimeRange sample_store1.1 "manager001"
             "2024-01-15" "2024-01-16")
          (getTransactionsByTimeRange sample_store1.1 "manager001"
             "2024-01-01" "2024-12-31").
Proof.
  apply (wider_time_range_returns_more sample_store1.1 "manager001"
           "2024-01-15" "2024-01-16" "2024-01-01" "2024-12-31"); by vm_compute.
Defined.

Example time_range_sample :
  getTransactionsByTimeRange sample_store1.1 "manager001" "2024-01-15" "2024-01-16"
  = [sample_in].
Proof. by vm_compute. Qed.

Section Views.

Implicit Types (db : MemoryDatabase.t) (manager_id : string) (fs : Dir).
Implicit Types (trans : Transaction) (transactions : list Transaction).

Lemma in_name_order_empty {V} : in_name_order (∅ : gmap string V) = [].
Proof. unfold in_name_order. by rewrite map_to_list_empty. Qed.

Lemma hasManager_false db manager_id :
  hasManager db manager_id = false <-> MemoryDatabase.managers_ db !! manager_id = None.
Proof.
  unfold hasManager. rewrite bool_decide_eq_false, <- eq_None_not_Some. done.
Qed.

Lemma hasManager_true db manager_id :
  hasManager db manager_id = true <-> is_Some (MemoryDatabase.managers_ db !! manager_id).
Proof. unfold hasManager. by rewrite bool_decide_eq_true. Qed.

End Views.

(** X5.  A tenant that the store does not know has no events: every read
    operation answers with the empty result, the count 0 or the zero
    summary, and none of them fails. *)
Theorem unknown_tenant_has_empty_views
    (db : MemoryDatabase.t) (manager_id : string) :
  hasManager db manager_id = false ->
  getTransactions db manager_id = []
  /\ getTransactionCount db manager_id = 0%nat
  /\ getTotalTransactionCount db manager_id = 0%nat
  /\ calculateInventory db manager_id = ∅
  /\ getCurrentItems db manager_id = []
  /\ getDocuments db manager_id = []
  /\ getItemTypeCount db manager_id = 0%nat
  /\ getInventoryByCategory db manager_id = ∅
  /\ (forall key,
        getTransactionsByItem db manager_id key = []
        /\ getTransactionsByDocument db manager_id key = []
        /\ getTransactionsByPartner db manager_id key = [])
  /\ (forall start_time end_time,
        getTransactionsByTimeRange db manager_id start_time end_time = []
        /\ getInOutSummary db manager_id start_time end_time = InOutSummary.default).
Proof.
  intros Hm%hasManager_false.
  assert (getTransactions db manager_id = []) as Hnil.
  { unfold getTransactions. by rewrite Hm. }
  split; [done |].
  split; [unfold getTransactionCount; by rewrite Hm |].
  split; [unfold getTotalTransactionCount, getTransactionCount; by rewrite Hm |].
  unfold calculateInventory, inventory_of, getCurrentItems, getDocuments,
    getItemTypeCount, getInventoryByCategory, getInOutSummary,
    getTransactionsByTimeRange, getTransactionsByItem, getTransactionsByDocument,
    getTransactionsByPartner.
  rewrite Hnil. cbn [fold_left buildItemSummaryMap buildDocumentSummaryMap].
  unfold in_key_order. rewrite !in_name_order_empty, map_to_list_empty.
  done.
Qed.

Lemma unknown_tenant_has_empty_views_witness :
  getTransactions sample_store1.1 "manager002" = []
  /\ getCurrentItems sample_store1.1 "manager002" = []
  /\ getDocuments sample_store1.1 "manager002" = []
  /\ getInventoryByCategory sample_store1.1 "manager002" = ∅.
Proof.
  destruct (unknown_tenant_has_empty_views sample_store1.1 "manager002")
    as (H1 & _ & _ & _ & H2 & H3 & _ & H4 & _).
  - vm_compute. reflexivity.
  - exact (conj H1 (conj H2 (conj H3 H4))).
Defined.

(** X6.  A call of [appendTransaction] for one tenant, whatever its result,
    leaves every other tenant as it was: the published events and count
    and all the views derived from them are the same. *)
Theorem append_leaves_other_tenants
    (env : Env) (manager_id : string) (trans : Transaction)
    (db : MemoryDatabase.t) (fs : Dir) (other : string) :
  other <> manager_id ->
  let db' := (appendTransaction env manager_id trans db fs).1.2 in
  getTransactions db' other = getTransactions db other
  /\ getTransactionCount db' other = getTransactionCount db other
  /\ hasManager db' other = hasManager db other
  /\ calculateInventory db' other = calculateInventory db other
  /\ getCurrentItems db' other = getCurrentItems db other
  /\ getDocuments db' other = getDocuments db other
  /\ getItemTypeCount db' other = getItemTypeCount db other
  /\ getInventoryByCategory db' other = getInventoryByCategory db other
  /\ (forall key,
        getTransactionsByItem db' other key = getTransactionsByItem db other key
        /\ getTransactionsByDocument db' other key
           = getTransactionsByDocument db other key
        /\ getTransactionsByPartner db' other key
           = getTransactionsByPartner db other key)
  /\ (forall start_time end_time,
        getTransactionsByTimeRange db' other start_time end_time
        = getTransactionsByTimeRange db other start_time end_time
        /\ getInOutSummary db' other start_time end_time
           = getInOutSummary db other start_time end_time).
Proof.
  intros Hne db'.
  pose proof (appendTransaction_other env manager_id trans db fs other Hne) as Hentry.
  fold db' in Hentry.
  destruct (getTransactions_entry db' db other Hentry) as [Hget Hcount].
  split; [done |]. split; [done |].
  split; [unfold hasManager; by rewrite Hentry |].
  unfold calculateInventory, getCurrentItems, getDocuments, getItemTypeCount,
    getInventoryByCategory, getInOutSummary, getTransactionsByTimeRange,
    getTransactionsByItem, getTransactionsByDocument, getTransactionsByPartner.
  by rewrite Hget.
Qed.

Lemma append_leaves_other_tenants_witness :
  let db' := (appendTransaction sample_env_later "manager002" sample_out
                sample_store1.1 sample_store1.2).1.2 in
  getTransactions db' "manager002" = [sample_out]
  /\ getTransactions db' "manager001" = getTransactions sample_store1.1 "manager001"
  /\ getCurrentItems db' "manager001" = getCurrentItems sample_store1.1 "manager001".
Proof.
  split; [by vm_compute |].
  destruct (append_leaves_other_tenants sample_env_later "manager002" sample_out
              sample_store1.1 sample_store1.2 "manager001")
    as (H1 & _ & _ & _ & H2 & _).
  - discriminate.
  - exact (conj H1 H2).
Defined.
(** X7.  In a reachable state a call of [appendTransaction] that succeeds
    puts its event at the end of the result of every query that selects
    it, and changes the result of no other query of the tenant. *)
Theorem append_extends_matching_queries
    (env : Env) (manager_id : string) (trans : Transaction)
    (db db' : MemoryDatabase.t) (fs fs' : Dir) :
  reachable db fs ->
  appendTransaction env manager_id trans db fs = (Success, db', fs') ->
  (forall key,
      getTransactionsByItem db' manager_id key
      = getTransactionsByItem db manager_id key
        ++ (if decide (TransactionRecord.item_id trans = key) then [trans] else [])
      /\ getTransactionsByDocument db' manager_id key
         = getTransactionsByDocument db manager_id key
           ++ (if decide (TransactionRecord.document_no trans = key) then [trans] else [])
      /\ getTransactionsByPartner db' manager_id key
         = getTransactionsByPartner db manager_id key
           ++ (if decide (TransactionRecord.partner_id trans = key) then [trans] else []))
  /\ (forall start_time end_time,
        getTransactionsByTimeRange db' manager_id start_time end_time
        = getTransactionsByTimeRange db manager_id start_time end_time
          ++ (if isTimeInRange (TransactionRecord.timestamp trans) start_time end_time
              then [trans] else [])).
Proof.
  intros Hdb%reachable_counts_match Happ.
  apply appendTransaction_success in Happ as (_ & _ & Hpush & _).
  destruct (getTransactions_push _ _ _ _ Hdb Hpush) as (Hget & _ & _).
  split.
  - intros key.
    rewrite !getTransactionsByItem_select, !getTransactionsByDocument_select,
      !getTransactionsByPartner_select, Hget, !select_app.
    cbn [List.filter].
    repeat split; f_equal; case_decide as H.
    all: try by rewrite (proj2 (str_eqb_eq _ _) H).
    all: by rewrite (proj2 (str_eqb_neq _ _) H).
  - intros start_time end_time.
    rewrite !getTransactionsByTimeRange_select, Hget, select_app.
    cbn [List.filter]. by destruct (isTimeInRange _ _ _).
Qed.

Lemma append_extends_matching_queries_witness :
  let r := appendTransaction sample_env_later "manager001" sample_out
             sample_store1.1 sample_store1.2 in
  getTransactionsByItem r.1.2 "manager001" "I1" = [sample_in; sample_out]
  /\ getTransactionsByDocument r.1.2 "manager001" "DOC1" = [sample_in]
  /\ getTransactionsByPartner r.1.2 "manager001" "C1" = [sample_out].
Proof.
  destruct (append_extends_matching_queries sample_env_later "manager001" sample_out
              sample_store1.1
              (appendTransaction sample_env_later "manager001" sample_out
                 sample_store1.1 sample_store1.2).1.2
              sample_store1.2
              (appendTransaction sample_env_later "manager001" sample_out
                 sample_store1.1 sample_store1.2).2) as [Hkey _].
  - apply sample_store1_reachable.
  - vm_compute. reflexivity.
  - cbv zeta. split; [| split].
    + etrans; [apply (Hkey "I1") | vm_compute; reflexivity].
    + etrans; [apply (Hkey "DOC1") | vm_compute; reflexivity].
    + etrans; [apply (Hkey "C1") | vm_compute; reflexivity].
Defined.

(** X8.  No call of [appendTransaction] changes the tenant with the empty
    id: its count, which the function reads after every successful append
    ([getTotalTransactionCount("")]), and its events are what they were
    before the call. *)
Theorem append_never_changes_empty_tenant
    (env : Env) (manager_id : string) (trans : Transaction)
    (db : MemoryDatabase.t) (fs : Dir) :
  let db' := (appendTransaction env manager_id trans db fs).1.2 in
  getTotalTransactionCount db' "" = getTotalTransactionCount db ""
  /\ getTransactions db' "" = getTransactions db ""
  /\ hasManager db' "" = hasManager db "".
Proof.
  intros db'.
  assert (MemoryDatabase.managers_ db' !! "" = MemoryDatabase.managers_ db !! "")
    as Hentry.
  { destruct (decide (manager_id = "")) as [-> | Hne].
    - subst db'. unfold appendTransaction. done.
    - by apply appendTransaction_other. }
  destruct (getTransactions_entry db' db "" Hentry) as [Hget Hcount].
  split; [done |]. split; [done |]. unfold hasManager. by rewrite Hentry.
Qed.

Example empty_tenant_count_after_append :
  getTotalTransactionCount sample_store1.1 "" = 0%nat
  /\ getTotalTransactionCount sample_store1.1 "manager001" = 1%nat.
Proof. by vm_compute. Qed.

(** ** The listing of the items *)

Section NameOrder.

Context {V : Type}.
Implicit Types (m : gmap string V) (k : string) (v : V).

Lemma name_le_trans : Transitive (@name_le V).
Proof. intros a b c. unfold name_le. apply transitivity. Qed.

Lemma name_le_total : Total (@name_le V).
Proof. intros a b. unfold name_le. apply (total String.le). Qed.

Lemma elem_of_in_name_order m k v :
  (k, v) ∈ in_name_order m <-> m !! k = Some v.
Proof.
  unfold in_name_order. rewrite merge_sort_Permutation. apply elem_of_map_to_list.
Qed.

Lemma le_neq_ltb (a b : string) : String.le a b -> a <> b -> Str.ltb a b = true.
Proof.
  intros Hle Hne. apply ltb_not_le. intros Hge. apply Hne.
  by apply (anti_symm String.le).
Qed.

Lemma ltb_le (a b : string) : Str.ltb a b = true -> String.le a b.
Proof.
  intros H%ltb_not_le. by destruct (total String.le a b).
Qed.

Lemma ltb_neq (a b : string) : Str.ltb a b = true -> a <> b.
Proof. intros H ->. by rewrite ltb_irrefl in H. Qed.

(** The keys of the visited entries increase strictly. *)
Lemma in_name_order_sorted m :
  StronglySorted (fun a b : string * V => Str.ltb a.1 b.1 = true) (in_name_order m).
Proof.
  assert (NoDup (in_name_order m).*1) as Hnd.
  { unfold in_name_order. rewrite merge_sort_Permutation. apply NoDup_fst_map_to_list. }
  pose proof (StronglySorted_merge_sort name_le
                (Transitive0 := name_le_trans) (Total0 := name_le_total)
                (map_to_list m)) as Hs.
  fold (in_name_order m) in Hs.
  induction Hs as [|a l Hs IH Ha]; [constructor |].
  rewrite fmap_cons in Hnd. apply NoDup_cons in Hnd as [Hnot Hnd].
  constructor; [by apply IH |].
  apply Forall_forall. intros b Hb.
  apply le_neq_ltb.
  - by apply (proj1 (Forall_forall _ _) Ha).
  - intros Heq. apply Hnot. rewrite Heq. apply list_elem_of_fmap. by exists b.
Qed.

End NameOrder.

Section CurrentItems.

Implicit Types (db : MemoryDatabase.t) (manager_id item : string).
Implicit Types (trans : Transaction) (transactions : list Transaction).
Implicit Types (item_map : gmap string ItemSummary.t) (s : ItemSummary.t).

Lemma wrap_int_add_l (a b : Z) : wrap_int (wrap_int a + b) = wrap_int (a + b).
Proof.
  unfold wrap_int. f_equal.
  replace ((a + 2147483648) mod 4294967296 - 2147483648 + b + 2147483648)
    with ((a + 2147483648) mod 4294967296 + b) by lia.
  rewrite Zplus_mod_idemp_l. f_equal. lia.
Qed.

Lemma wrap_int_range (z : Z) : in_int (wrap_int z).
Proof.
  unfold in_int, wrap_int, INT_MIN, INT_MAX.
  pose proof (Z.mod_pos_bound (z + 2147483648) 4294967296). lia.
Qed.

Lemma net_quantity_snoc transactions trans :
  net_quantity (transactions ++ [trans])
  = net_quantity transactions + signed_quantity trans.
Proof.
  unfold net_quantity. induction transactions as [|t l IH]; cbn; [lia |].
  cbn in IH. rewrite IH. lia.
Qed.

(** The quantity of a summary after one more event of its item. *)
Lemma item_summary_step_quantity item_map trans :
  exists s',
    item_summary_step item_map trans !! TransactionRecord.item_id trans = Some s'
    /\ ItemSummary.item_id s'
       = match item_map !! TransactionRecord.item_id trans with
         | Some s => ItemSummary.item_id s
         | None => TransactionRecord.item_id trans
         end
    /\ ItemSummary.total_quantity s'
       = wrap_int
           (match item_map !! TransactionRecord.item_id trans with
            | Some s => ItemSummary.total_quantity s
            | None => 0
            end + signed_quantity trans).
Proof.
  unfold item_summary_step, signed_quantity, int_add, int_sub.
  rewrite lookup_insert_eq. eexists. split; [reflexivity |].
  destruct (item_map !! TransactionRecord.item_id trans) as [s|];
    destruct (Str.gtb _ _), (TransactionRecord.isInbound trans); done.
Qed.

(** The summary of an item: its key is its item id and its quantity is the
    net quantity of the events of the item, reduced to [int]. *)
Lemma buildItemSummaryMap_quantity transactions item :
  match buildItemSummaryMap transactions !! item with
  | None => events_of_item item transactions = []
  | Some s =>
      ItemSummary.item_id s = item
      /\ events_of_item item transactions <> []
      /\ ItemSummary.total_quantity s
         = wrap_int (net_quantity (events_of_item item transactions))
  end.
Proof.
  induction transactions as [|trans transactions IH] using rev_ind.
  - unfold buildItemSummaryMap. cbn. by rewrite lookup_empty.
  - rewrite buildItemSummaryMap_snoc, events_of_item_snoc.
    destruct (decide (TransactionRecord.item_id trans = item)) as [<- | Hne].
    + destruct (item_summary_step_quantity (buildItemSummaryMap transactions) trans)
        as (s' & -> & Hid & Hq).
      rewrite net_quantity_snoc.
      destruct (buildItemSummaryMap transactions !! TransactionRecord.item_id trans)
        as [s|].
      * destruct IH as (Hs & _ & Hqs).
        split; [congruence |]. split; [by intros [_ ?]%app_eq_nil |].
        by rewrite Hq, Hqs, wrap_int_add_l.
      * rewrite IH. split; [done |]. split; [done |]. by rewrite Hq.
    + rewrite item_summary_step_other by done. by rewrite app_nil_r.
Qed.

Lemma getCurrentItems_select db manager_id :
  getCurrentItems db manager_id
  = map snd
      (List.filter
         (fun pair : string * ItemSummary.t => 0 <? ItemSummary.total_quantity pair.2)
         (in_name_order (buildItemSummaryMap (getTransactions db manager_id)))).
Proof.
  unfold getCurrentItems.
  by rewrite (push_back_loop
                (fun pair : string * ItemSummary.t =>
                   0 <? ItemSummary.total_quantity pair.2) snd).
Qed.

Lemma count_loop {A} (p : A -> bool) (xs : list A) (n : nat) :
  fold_left (fun count x => if p x then S count else count) xs n
  = (n + length (List.filter p xs))%nat.
Proof.
  revert n. induction xs as [|x xs IH]; intros n; cbn; [lia |].
  rewrite IH. destruct (p x); cbn; lia.
Qed.

Lemma StronglySorted_select {A} (R : relation A) (p : A -> bool) (xs : list A) :
  StronglySorted R xs -> StronglySorted R (List.filter p xs).
Proof.
  induction 1 as [|x xs Hs IH Hx]; cbn; [constructor |].
  destruct (p x); [| done]. constructor; [done |].
  apply Forall_forall. intros y [Hy _]%elem_of_select.
  by apply (proj1 (Forall_forall _ _) Hx).
Qed.

End CurrentItems.
Section CurrentItemsFacts.

Implicit Types (db : MemoryDatabase.t) (manager_id item : string).
Implicit Types (s : ItemSummary.t).

Lemma StronglySorted_fmap_on {A B} (P : A -> Prop) (f : A -> B)
    (R1 : relation A) (R2 : relation B) (l : list A) :
  (forall x y, P x -> P y -> R1 x y -> R2 (f x) (f y)) ->
  Forall P l -> StronglySorted R1 l -> StronglySorted R2 (map f l).
Proof.
  intros HR HP Hs. induction Hs as [|x l Hs IH Hx]; cbn; [constructor |].
  apply Forall_cons in HP as [Px HP].
  constructor; [by apply IH |].
  apply Forall_forall. intros y (z & -> & Hz)%list_elem_of_fmap.
  apply HR; [done | by apply (proj1 (Forall_forall _ _) HP) |].
  by apply (proj1 (Forall_forall _ _) Hx).
Qed.

(** Every visited entry of the map of the summaries is stored under the
    item id of its summary. *)
Lemma item_entries_keyed (transactions : list Transaction) :
  Forall (fun pair : string * ItemSummary.t => ItemSummary.item_id pair.2 = pair.1)
    (in_name_order (buildItemSummaryMap transactions)).
Proof.
  apply Forall_forall. intros [k s] Hin%elem_of_in_name_order. cbn.
  pose proof (buildItemSummaryMap_quantity transactions k) as H.
  rewrite Hin in H. by destruct H.
Qed.

Lemma elem_of_getCurrentItems db manager_id s :
  s ∈ getCurrentItems db manager_id <->
  buildItemSummaryMap (getTransactions db manager_id) !! ItemSummary.item_id s = Some s
  /\ 0 < ItemSummary.total_quantity s.
Proof.
  rewrite getCurrentItems_select, list_elem_of_fmap. split.
  - intros ([k s'] & -> & [Hin Hpos]%elem_of_select). cbn in *.
    apply Z.ltb_lt in Hpos. split; [| done].
    apply elem_of_in_name_order in Hin.
    pose proof (buildItemSummaryMap_quantity (getTransactions db manager_id) k) as H.
    rewrite Hin in H. destruct H as [-> _]. done.
  - intros [Hs Hpos]. exists (ItemSummary.item_id s, s). split; [done |].
    apply elem_of_select. split; [by apply elem_of_in_name_order |].
    by apply Z.ltb_lt.
Qed.

(** The loop of [getInventoryByCategory] seen from one category. *)
Lemma category_loop (l : list (string * ItemSummary.t)) (acc : gmap string Z)
    (category : string) :
  fold_left category_step l acc !! category
  = match items_of_category category
            (map snd
               (List.filter
                  (fun pair : string * ItemSummary.t =>
                     0 <? ItemSummary.total_quantity pair.2) l)) with
    | [] => acc !! category
    | items => Some (wrap_int (default 0 (acc !! category) + total_quantity_of items))
    end.
Proof.
  revert acc. induction l as [|[k s] l IH]; intros acc; [done |].
  cbn [fold_left List.filter snd]. rewrite IH. clear IH.
  unfold category_step. cbn [snd].
  destruct (0 <? ItemSummary.total_quantity s); [| done].
  cbn [map snd]. unfold items_of_category. rewrite filter_cons.
  destruct (decide (ItemSummary.category s = category)) as [<- | Hne].
  - rewrite lookup_insert_eq. cbn [from_option id].
    destruct (filter _ _) as [|s' items]; unfold int_add.
    + cbn. by rewrite Z.add_0_r.
    + rewrite wrap_int_add_l. do 2 f_equal.
      change (total_quantity_of (s :: s' :: items))
        with (ItemSummary.total_quantity s + total_quantity_of (s' :: items)).
      lia.
  - by rewrite lookup_insert_ne.
Qed.

End CurrentItemsFacts.

(** X9.  The summary that [buildItemSummaryMap] keeps for an item carries
    the id of the item, exists exactly when the sequence holds an event of
    the item, and its quantity is the sum of the quantities of the inbound
    events of the item minus the quantities of its other events, reduced
    to the range of [int]. *)
Theorem item_summary_quantity_is_net
    (transactions : list Transaction) (item : string) (s : ItemSummary.t) :
  buildItemSummaryMap transactions !! item = Some s ->
  ItemSummary.item_id s = item
  /\ events_of_item item transactions <> []
  /\ ItemSummary.total_quantity s
     = wrap_int (net_quantity (events_of_item item transactions))
  /\ in_int (ItemSummary.total_quantity s)
  /\ (forall other,
        buildItemSummaryMap transactions !! other = None
        <-> events_of_item other transactions = []).
Proof.
  intros Hs.
  pose proof (buildItemSummaryMap_quantity transactions item) as H.
  rewrite Hs in H. destruct H as (Hid & Hev & Hq).
  split; [done |]. split; [done |]. split; [done |].
  split; [rewrite Hq; apply wrap_int_range |].
  intros other.
  pose proof (buildItemSummaryMap_quantity transactions other) as H.
  destruct (buildItemSummaryMap transactions !! other) as [s'|].
  - destruct H as (_ & Hne & _). split; [done | by intros ?].
  - done.
Qed.

Lemma item_summary_quantity_is_net_witness :
  ItemSummary.total_quantity
    (ItemSummary.mk "I1" "" "" "" "" price_2 (-5) "")
  = wrap_int (net_quantity (events_of_item "I1" [scenario_A; scenario_B; scenario_C]))
  /\ net_quantity (events_of_item "I1" [scenario_A; scenario_B; scenario_C]) = -5.
Proof.
  split; [| by vm_compute].
  apply (item_summary_quantity_is_net [scenario_A; scenario_B; scenario_C] "I1"
           (ItemSummary.mk "I1" "" "" "" "" price_2 (-5) "")).
  vm_compute. reflexivity.
Defined.

(** X10.  [getCurrentItems] lists exactly the summaries of the items of
    the tenant whose quantity is positive, each once and in the strictly
    increasing order of the item ids; [getItemTypeCount] is the length of
    this list. *)
Theorem current_items_are_positive_summaries
    (db : MemoryDatabase.t) (manager_id : string) :
  (forall s,
      s ∈ getCurrentItems db manager_id <->
      buildItemSummaryMap (getTransactions db manager_id) !! ItemSummary.item_id s
      = Some s
      /\ 0 < ItemSummary.total_quantity s)
  /\ StronglySorted item_id_lt (getCurrentItems db manager_id)
  /\ getItemTypeCount db manager_id = length (getCurrentItems db manager_id).
Proof.
  split; [intros s; apply elem_of_getCurrentItems |].
  split.
  - rewrite getCurrentItems_select.
    apply (StronglySorted_fmap_on
             (fun pair : string * ItemSummary.t => ItemSummary.item_id pair.2 = pair.1)
             snd (fun a b : string * ItemSummary.t => Str.ltb a.1 b.1 = true)).
    + intros a b Ha Hb Hab. unfold item_id_lt. by rewrite Ha, Hb.
    + apply Forall_forall. intros x [Hx _]%elem_of_select.
      by apply (proj1 (Forall_forall _ _)
                  (item_entries_keyed (getTransactions db manager_id))).
    + apply StronglySorted_select, in_name_order_sorted.
  - rewrite getCurrentItems_select, length_map. unfold getItemTypeCount.
    by rewrite count_loop.
Qed.

(** X11.  [getInventoryByCategory] has an entry for a category exactly
    when [getCurrentItems] lists an item of the category, and the entry is
    the sum of the quantities of the listed items of the category, reduced
    to the range of [int]. *)
Theorem inventory_by_category_sums_current_items
    (db : MemoryDatabase.t) (manager_id category : string) :
  getInventoryByCategory db manager_id !! category
  = match items_of_category category (getCurrentItems db manager_id) with
    | [] => None
    | items => Some (wrap_int (total_quantity_of items))
    end.
Proof.
  unfold getInventoryByCategory. rewrite category_loop, <- getCurrentItems_select.
  rewrite lookup_empty. cbn [from_option id].
  by destruct (items_of_category _ _).
Qed.

Example current_items_of_scenario :
  getCurrentItems scenario_AB "manager001"
  = [ItemSummary.mk "I1" "" "" "" "" price_2 20 ""]
  /\ getItemTypeCount scenario_AB "manager001" = 1%nat
  /\ getInventoryByCategory scenario_AB "manager001" = {[ "" := 20 ]}
  /\ getCurrentItems scenario_ABC "manager001" = []
  /\ getInventoryByCategory scenario_ABC "manager001" = ∅.
Proof. vm_compute. done. Qed.

(** ** The documents *)

Section Documents.

Implicit Types (db : MemoryDatabase.t) (manager_id d : string).
Implicit Types (trans : Transaction) (transactions : list Transaction).
Implicit Types (doc_map : gmap string DocumentSummary.t) (s : DocumentSummary.t).

Lemma buildDocumentSummaryMap_snoc transactions trans :
  buildDocumentSummaryMap (transactions ++ [trans])
  = document_summary_step (buildDocumentSummaryMap transactions) trans.
Proof. unfold buildDocumentSummaryMap. by rewrite fold_left_app. Qed.

Lemma events_of_document_snoc d transactions trans :
  events_of_document d (transactions ++ [trans])
  = events_of_document d transactions
    ++ (if decide (TransactionRecord.document_no trans = d) then [trans] else []).
Proof. unfold events_of_document. by rewrite filter_app. Qed.

Lemma amount_of_snoc transactions trans :
  amount_of (transactions ++ [trans])
  = d_add (amount_of transactions) (TransactionRecord.getTotalAmount trans).
Proof. unfold amount_of. by rewrite fold_left_app. Qed.

(** The first event of a document. *)
Lemma summarises_first trans :
  summarises
    (DocumentSummary.mk (TransactionRecord.document_no trans)
       (TransactionRecord.type trans) (TransactionRecord.partner_id trans)
       (TransactionRecord.partner_name trans) (TransactionRecord.manager_id trans)
       (if Str.ltb (TransactionRecord.timestamp trans) (TransactionRecord.timestamp trans)
        then TransactionRecord.timestamp trans else TransactionRecord.timestamp trans)
       (d_add d_zero (TransactionRecord.getTotalAmount trans))
       (int_add 0 1))
    [trans].
Proof.
  exists trans, []. rewrite ltb_irrefl. cbn.
  repeat split; try done.
  - apply list_elem_of_here.
  - by apply Forall_singleton.
Qed.

(** One more event of a document. *)
Lemma summarises_next s events trans :
  summarises s events ->
  summarises
    (DocumentSummary.mk (DocumentSummary.document_no s)
       (DocumentSummary.type s) (DocumentSummary.partner_id s)
       (DocumentSummary.partner_name s) (DocumentSummary.manager_id s)
       (if Str.ltb (TransactionRecord.timestamp trans) (DocumentSummary.timestamp s)
        then TransactionRecord.timestamp trans else DocumentSummary.timestamp s)
       (d_add (DocumentSummary.total_amount s) (TransactionRecord.getTotalAmount trans))
       (int_add (DocumentSummary.item_count s) 1))
    (events ++ [trans]).
Proof.
  intros (first & rest & -> & Hh & Hc & Ha & Hin & Hle).
  exists first, (rest ++ [trans]). split; [done |].
  split; [exact Hh |]. cbn [DocumentSummary.item_count DocumentSummary.total_amount
                            DocumentSummary.timestamp].
  split.
  { rewrite Hc. unfold int_add. rewrite wrap_int_add_l. f_equal.
    rewrite length_app. cbn [length]. lia. }
  split; [by rewrite amount_of_snoc, Ha |].
  rewrite map_app, elem_of_app, Forall_app, Forall_singleton.
  destruct (Str.ltb _ _) eqn:Hlt.
  - split; [right; apply list_elem_of_here |]. split; [| done].
    eapply Forall_impl; [exact Hle |]. intros x Hx. cbn in Hx.
    etrans; [| exact Hx]. by apply ltb_le.
  - split; [by left |]. split; [done |]. by apply not_ltb_le.
Qed.

(** The map of the summaries holds the documents with a number that have
    an event, each with the summary of its events. *)
Lemma buildDocumentSummaryMap_spec transactions d :
  match buildDocumentSummaryMap transactions !! d with
  | None => d = "" \/ events_of_document d transactions = []
  | Some s => d <> "" /\ summarises s (events_of_document d transactions)
  end.
Proof.
  induction transactions as [|trans transactions IH] using rev_ind.
  - unfold buildDocumentSummaryMap. cbn. rewrite lookup_empty. by right.
  - rewrite buildDocumentSummaryMap_snoc, events_of_document_snoc.
    unfold document_summary_step.
    destruct (Str.empty (TransactionRecord.document_no trans)) eqn:Hempty.
    + apply empty_true in Hempty.
      destruct (decide (TransactionRecord.document_no trans = d)) as [Hd | Hd].
      * rewrite Hempty in Hd. subst d.
        destruct (buildDocumentSummaryMap transactions !! "") as [s|];
          [by destruct IH | by left].
      * by rewrite app_nil_r.
    + apply empty_false in Hempty.
      destruct (decide (TransactionRecord.document_no trans = d)) as [<- | Hd].
      * rewrite lookup_insert_eq. split; [done |].
        destruct (buildDocumentSummaryMap transactions
                    !! TransactionRecord.document_no trans) as [s|].
        -- destruct IH as [_ IH]. by apply summarises_next.
        -- destruct IH as [IH | ->]; [done |]. apply summarises_first.
      * rewrite lookup_insert_ne by done. by rewrite app_nil_r.
Qed.

Lemma getDocuments_entries db manager_id :
  getDocuments db manager_id
  = map snd (in_name_order (buildDocumentSummaryMap (getTransactions db manager_id))).
Proof.
  unfold getDocuments.
  rewrite (push_back_loop (fun _ : string * DocumentSummary.t => true) snd).
  cbn [app]. f_equal. induction (in_name_order _) as [|x l IH]; [done |].
  cbn. by rewrite IH.
Qed.

Lemma summarises_document_no s events :
  summarises s events ->
  exists first, head events = Some first
                /\ DocumentSummary.document_no s = TransactionRecord.document_no first.
Proof. intros (first & rest & -> & [= H _ _ _ _] & _). by exists first. Qed.

Lemma elem_of_getDocuments db manager_id s :
  s ∈ getDocuments db manager_id <->
  buildDocumentSummaryMap (getTransactions db manager_id)
    !! DocumentSummary.document_no s = Some s.
Proof.
  rewrite getDocuments_entries, list_elem_of_fmap. split.
  - intros ([k s'] & -> & Hin%elem_of_in_name_order). cbn.
    pose proof (buildDocumentSummaryMap_spec (getTransactions db manager_id) k) as H.
    rewrite Hin in H. destruct H as [_ (first & rest & Hev & [= H _ _ _ _] & _)].
    assert (first ∈ events_of_document k (getTransactions db manager_id)) as Hf
      by (rewrite Hev; apply list_elem_of_here).
    apply list_elem_of_filter in Hf as [Hf _]. by rewrite H, Hf.
  - intros Hs. exists (DocumentSummary.document_no s, s). split; [done |].
    by apply elem_of_in_name_order.
Qed.

Lemma getTransactionsByDocument_events db manager_id d :
  getTransactionsByDocument db manager_id d
  = events_of_document d (getTransactions db manager_id).
Proof. rewrite getTransactionsByDocument_select. apply select_eqb_filter. Qed.

(** A listed document summarises the events that the query by its number
    returns. *)
Lemma getDocuments_summarises db manager_id s :
  s ∈ getDocuments db manager_id ->
  DocumentSummary.document_no s <> ""
  /\ summarises s
       (getTransactionsByDocument db manager_id (DocumentSummary.document_no s)).
Proof.
  intros Hs%elem_of_getDocuments.
  pose proof (buildDocumentSummaryMap_spec (getTransactions db manager_id)
                (DocumentSummary.document_no s)) as H.
  rewrite Hs in H. by rewrite getTransactionsByDocument_events.
Qed.

End Documents.
Example documents_of_doc_store :
  getTransactions doc_store "manager001"
  = [doc_event_1; doc_event_2; doc_event_3; doc_event_4]
  /\ getDocuments doc_store "manager001" = [doc_summary_0; doc_summary_1].
Proof. vm_compute. done. Qed.

Lemma doc_summary_1_listed : doc_summary_1 ∈ getDocuments doc_store "manager001".
Proof.
  rewrite (proj2 documents_of_doc_store).
  apply list_elem_of_further, list_elem_of_here.
Qed.

(** X12.  Every summary that [getDocuments] lists has a document number
    that is not empty; its type, partner and tenant members are those of
    the first published event with this document number; its count is the
    number of the published events with this number (reduced to [int]),
    whatever their items; and its amount is the sum of the amounts of
    these events, added in the published order. *)
Theorem document_summary_covers_its_events
    (db : MemoryDatabase.t) (manager_id : string) (s : DocumentSummary.t) :
  s ∈ getDocuments db manager_id ->
  let events :=
    getTransactionsByDocument db manager_id (DocumentSummary.document_no s) in
  DocumentSummary.document_no s <> ""
  /\ (exists first, head events = Some first /\ document_header s = event_header first)
  /\ DocumentSummary.item_count s = wrap_int (Z.of_nat (length events))
  /\ DocumentSummary.total_amount s = amount_of events.
Proof.
  intros [Hne (first & rest & Hev & Hh & Hc & Ha & _)]%getDocuments_summarises events.
  subst events. split; [done |]. split; [| done].
  exists first. by rewrite Hev.
Qed.

Lemma document_summary_covers_its_events_witness :
  let events := getTransactionsByDocument doc_store "manager001" "DOC1" in
  events = [doc_event_1; doc_event_2]
  /\ DocumentSummary.item_count doc_summary_1 = wrap_int (Z.of_nat (length events))
  /\ DocumentSummary.total_amount doc_summary_1 = amount_of events.
Proof.
  split; [vm_compute; reflexivity |].
  apply (document_summary_covers_its_events doc_store "manager001" doc_summary_1).
  apply doc_summary_1_listed.
Defined.

(** X13.  The timestamp of a listed document is the least timestamp of the
    published events of the document, in the order of strings: one of
    these events carries it and none of them has a smaller one. *)
Theorem document_timestamp_is_earliest
    (db : MemoryDatabase.t) (manager_id : string) (s : DocumentSummary.t) :
  s ∈ getDocuments db manager_id ->
  let events :=
    getTransactionsByDocument db manager_id (DocumentSummary.document_no s) in
  (exists trans,
      trans ∈ events /\ TransactionRecord.timestamp trans = DocumentSummary.timestamp s)
  /\ (forall trans,
        trans ∈ events ->
        String.le (DocumentSummary.timestamp s) (TransactionRecord.timestamp trans)).
Proof.
  intros [_ (first & rest & _ & _ & _ & _ & Hin & Hle)]%getDocuments_summarises events.
  subst events. split.
  - apply list_elem_of_fmap in Hin as (trans & Heq & Hin). by exists trans.
  - intros trans Ht. by apply (proj1 (Forall_forall _ _) Hle).
Qed.

Lemma document_timestamp_is_earliest_witness :
  doc_event_2 ∈ getTransactionsByDocument doc_store "manager001" "DOC1"
  /\ TransactionRecord.timestamp doc_event_2 = DocumentSummary.timestamp doc_summary_1
  /\ String.le (DocumentSummary.timestamp doc_summary_1)
       (TransactionRecord.timestamp doc_event_1).
Proof.
  destruct (document_timestamp_is_earliest doc_store "manager001" doc_summary_1
              doc_summary_1_listed) as [_ Hle].
  assert (getTransactionsByDocument doc_store "manager001" "DOC1"
          = [doc_event_1; doc_event_2]) as Hev by (vm_compute; reflexivity).
  cbv zeta in Hle. change (DocumentSummary.document_no doc_summary_1) with "DOC1" in Hle.
  rewrite Hev in *.
  split; [apply list_elem_of_further, list_elem_of_here |].
  split; [reflexivity |].
  apply Hle, list_elem_of_here.
Defined.

Section DocumentListing.

Implicit Types (db : MemoryDatabase.t) (manager_id : string).
Implicit Types (trans : Transaction) (transactions : list Transaction).

Lemma document_entries_keyed transactions :
  Forall (fun pair : string * DocumentSummary.t =>
            DocumentSummary.document_no pair.2 = pair.1)
    (in_name_order (buildDocumentSummaryMap transactions)).
Proof.
  apply Forall_forall. intros [k s] Hin%elem_of_in_name_order. cbn.
  pose proof (buildDocumentSummaryMap_spec transactions k) as H.
  rewrite Hin in H. destruct H as [_ (first & rest & Hev & [= H _ _ _ _] & _)].
  assert (first ∈ events_of_document k transactions) as Hf
    by (rewrite Hev; apply list_elem_of_here).
  apply list_elem_of_filter in Hf as [Hf _]. by rewrite H, Hf.
Qed.

(** Events without a document number do not count. *)
Lemma buildDocumentSummaryMap_numbered transactions :
  buildDocumentSummaryMap transactions
  = buildDocumentSummaryMap
      (filter (fun trans => TransactionRecord.document_no trans <> "") transactions).
Proof.
  induction transactions as [|trans transactions IH] using rev_ind; [done |].
  rewrite filter_app, filter_cons, filter_nil.
  destruct (decide (TransactionRecord.document_no trans <> "")) as [Hne | He].
  - by rewrite !buildDocumentSummaryMap_snoc, IH.
  - rewrite app_nil_r, buildDocumentSummaryMap_snoc, <- IH.
    unfold document_summary_step.
    destruct (Str.empty (TransactionRecord.document_no trans)) eqn:Hempty; [done |].
    apply empty_false in Hempty. done.
Qed.

End DocumentListing.

(** X14.  [getDocuments] lists one summary for every document number that
    is not empty and occurs in a published event of the tenant, in the
    strictly increasing order of the document numbers; published events
    without a document number have no influence on the list. *)
Theorem documents_listed_once_in_order
    (db : MemoryDatabase.t) (manager_id : string) :
  StronglySorted document_no_lt (getDocuments db manager_id)
  /\ (forall trans,
        trans ∈ getTransactions db manager_id ->
        TransactionRecord.document_no trans <> "" ->
        exists s,
          s ∈ getDocuments db manager_id
          /\ DocumentSummary.document_no s = TransactionRecord.document_no trans)
  /\ buildDocumentSummaryMap (getTransactions db manager_id)
     = buildDocumentSummaryMap
         (filter (fun trans => TransactionRecord.document_no trans <> "")
            (getTransactions db manager_id)).
Proof.
  split; [| split].
  - rewrite getDocuments_entries.
    apply (StronglySorted_fmap_on
             (fun pair : string * DocumentSummary.t =>
                DocumentSummary.document_no pair.2 = pair.1)
             snd (fun a b : string * DocumentSummary.t => Str.ltb a.1 b.1 = true)).
    + intros a b Ha Hb Hab. unfold document_no_lt. by rewrite Ha, Hb.
    + apply document_entries_keyed.
    + apply in_name_order_sorted.
  - intros trans Hin Hne.
    pose proof (buildDocumentSummaryMap_spec (getTransactions db manager_id)
                  (TransactionRecord.document_no trans)) as H.
    destruct (buildDocumentSummaryMap (getTransactions db manager_id)
                !! TransactionRecord.document_no trans) as [s|] eqn:Hs.
    + destruct H as [_ (first & rest & Hev & [= H _ _ _ _] & _)].
      assert (first ∈ events_of_document (TransactionRecord.document_no trans)
                        (getTransactions db manager_id)) as Hf
        by (rewrite Hev; apply list_elem_of_here).
      apply list_elem_of_filter in Hf as [Hf _].
      exists s. split; [| by rewrite H, Hf].
      apply elem_of_getDocuments. by rewrite H, Hf.
    + destruct H as [H | H]; [done |].
      assert (trans ∈ events_of_document (TransactionRecord.document_no trans)
                        (getTransactions db manager_id)) as Hf
        by (by apply list_elem_of_filter).
      rewrite H in Hf. by apply elem_of_nil in Hf.
  - apply buildDocumentSummaryMap_numbered.
Qed.

(** ** Invariants of the reachable states *)

Section WellFormed.

Implicit Types (db : MemoryDatabase.t) (fs : Dir) (manager_id : string).
Implicit Types (trans : Transaction) (data : gmap string (list Transaction)).

(** Reading lines keeps a property of the recovered events that holds of
    every parsed event, and creates no empty sequence. *)
Lemma recover_lines_invariant (P : Transaction -> Prop) (lines : list string) data :
  (forall line m t, deserializeTransaction line = Some (m, t) -> P t) ->
  (forall m l, data !! m = Some l -> l <> [] /\ Forall P l) ->
  forall m l, fold_left recover_line lines data !! m = Some l -> l <> [] /\ Forall P l.
Proof.
  intros HP. revert data. induction lines as [|line lines IH]; intros data Hdata; [done |].
  cbn [fold_left]. apply IH. clear IH.
  unfold recover_line. destruct (Str.empty line); [done |].
  destruct (deserializeTransaction line) as [[m t]|] eqn:Hline; [| done].
  intros m' l. destruct (decide (m = m')) as [<- | Hne].
  - rewrite lookup_insert_eq. intros [= <-].
    split; [by intros [_ ?]%app_eq_nil |].
    apply Forall_app. split; [| apply Forall_singleton; by eapply HP].
    destruct (data !! m) as [l0|] eqn:Hm; [| done]. by apply (Hdata m).
  - rewrite lookup_insert_ne by done. apply Hdata.
Qed.

Lemma recoverFromWAL_invariant (P : Transaction -> Prop) fs :
  (forall line m t, deserializeTransaction line = Some (m, t) -> P t) ->
  forall m l, recoverFromWAL fs !! m = Some l -> l <> [] /\ Forall P l.
Proof.
  intros HP. rewrite recoverFromWAL_lines.
  apply recover_lines_invariant; [done |]. intros m l. by rewrite lookup_empty.
Qed.

Lemma tenants_well_formed_empty pm e : tenants_well_formed (MemoryDatabase.mk ∅ pm e).
Proof. intros m d. cbn. by rewrite lookup_empty. Qed.

Lemma tenants_well_formed_new b data_dir fs :
  tenants_well_formed (MemoryDatabase_new b data_dir fs).1.
Proof.
  unfold MemoryDatabase_new.
  destruct (PersistenceManager_new b data_dir fs) as [[pm|] fs']; cbn [fst];
    [| apply tenants_well_formed_empty].
  destruct (negb _); [| apply tenants_well_formed_empty].
  destruct (validateDataIntegrity _) eqn:Hval; [| apply tenants_well_formed_empty].
  intros m d. cbn. unfold restore. rewrite lookup_fmap.
  destruct (recoverFromWAL fs' !! m) as [l|] eqn:Hm; [| done].
  intros [= <-]. cbn. split; [done |]. split.
  - by apply (recoverFromWAL_invariant (fun _ => True) fs' (fun _ _ _ _ => I) m l).
  - by apply (proj1 (validateDataIntegrity_spec _) Hval m l).
Qed.

Lemma tenants_well_formed_append env manager_id trans db fs :
  tenants_well_formed db ->
  tenants_well_formed (appendTransaction env manager_id trans db fs).1.2.
Proof.
  intros Hdb.
  destruct (appendTransaction env manager_id trans db fs) as [[r db'] fs'] eqn:H.
  destruct r as [|code message]; cbn [fst snd].
  - apply appendTransaction_success in H as ((_ & Hvalid) & _ & Hpush & _).
    intros m d. rewrite Hpush. unfold push_transaction.
    destruct (decide (manager_id = m)) as [-> | Hne].
    + rewrite lookup_insert_eq. intros [= <-]. cbn.
      rewrite length_app. cbn [length].
      split; [| split; [by intros [_ ?]%app_eq_nil |]].
      * destruct (MemoryDatabase.managers_ db !! m) as [d0|] eqn:Hm; cbn; [| done].
        by rewrite (proj1 (Hdb _ _ Hm)).
      * apply Forall_app. split; [| by apply Forall_singleton].
        destruct (MemoryDatabase.managers_ db !! m) as [d0|] eqn:Hm; cbn; [| done].
        by apply (Hdb _ _ Hm).
    + rewrite lookup_insert_ne by done. apply Hdb.
  - pose proof (appendTransaction_error env manager_id trans db fs code message) as He.
    rewrite H in He. cbn in He. intros m d. rewrite He by done. apply Hdb.
Qed.

Lemma reachable_tenants_well_formed db fs : reachable db fs -> tenants_well_formed db.
Proof.
  induction 1 as [b data_dir fs | env m t db fs _ IH | enable db fs _ IH].
  - apply tenants_well_formed_new.
  - by apply tenants_well_formed_append.
  - exact IH.
Qed.

Lemma reachable_published_valid db fs manager_id :
  reachable db fs -> Forall required_fields (getTransactions db manager_id).
Proof.
  intros Hdb%reachable_tenants_well_formed. unfold getTransactions.
  destruct (MemoryDatabase.managers_ db !! manager_id) as [d|] eqn:Hm; [| done].
  destruct (Hdb _ _ Hm) as (Hc & _ & Hf). by rewrite Hc, firstn_all.
Qed.

End WellFormed.

(** X15.  In every reachable state the published events of every tenant
    satisfy the field rules (ids not empty, type [in] or [out], quantity
    positive), the published count is the number of the published events,
    and a tenant is known exactly when it has a published event. *)
Theorem reachable_tenants_hold_valid_events
    (db : MemoryDatabase.t) (fs : Dir) (manager_id : string) :
  reachable db fs ->
  Forall required_fields (getTransactions db manager_id)
  /\ getTransactionCount db manager_id = length (getTransactions db manager_id)
  /\ (hasManager db manager_id = true <-> getTransactions db manager_id <> []).
Proof.
  intros Hdb%reachable_tenants_well_formed.
  unfold getTransactions, getTransactionCount. rewrite hasManager_true.
  destruct (MemoryDatabase.managers_ db !! manager_id) as [d|] eqn:Hm.
  - destruct (Hdb _ _ Hm) as (Hc & Hne & Hf). rewrite Hc, firstn_all.
    split; [done |]. split; [done |]. split; [done | by eexists].
  - split; [done |]. split; [done |]. split; [by intros [? ?] | done].
Qed.

Lemma reachable_tenants_hold_valid_events_witness :
  Forall required_fields (getTransactions sample_store1.1 "manager001")
  /\ getTransactionCount sample_store1.1 "manager001"
     = length (getTransactions sample_store1.1 "manager001")
  /\ (hasManager sample_store1.1 "manager001" = true
      <-> getTransactions sample_store1.1 "manager001" <> []).
Proof.
  apply (reachable_tenants_hold_valid_events sample_store1.1 sample_store1.2 "manager001").
  apply reach_append, reach_new.
Defined.
(** ** The summary of a time range *)

Section InOut.

Implicit Types (trans : Transaction) (transactions : list Transaction).

Lemma quantity_of_snoc transactions trans :
  quantity_of (transactions ++ [trans])
  = quantity_of transactions + TransactionRecord.quantity trans.
Proof.
  unfold quantity_of. induction transactions as [|t l IH]; cbn; [lia |].
  cbn in IH. rewrite IH. lia.
Qed.

Lemma isInbound_true trans :
  TransactionRecord.isInbound trans = true <-> TransactionRecord.type trans = "in".
Proof. apply str_eqb_eq. Qed.

Lemma isInbound_false trans :
  TransactionRecord.isInbound trans = false <-> TransactionRecord.type trans <> "in".
Proof. apply str_eqb_neq. Qed.

(** The loop of [getInOutSummary] over a sequence of events. *)
Lemma in_out_loop transactions :
  fold_left in_out_step transactions InOutSummary.default
  = InOutSummary.mk
      (wrap_int (quantity_of (inbound_of transactions)))
      (wrap_int (quantity_of (not_inbound_of transactions)))
      (amount_of (inbound_of transactions))
      (amount_of (not_inbound_of transactions)).
Proof.
  induction transactions as [|trans transactions IH] using rev_ind; [done |].
  rewrite fold_left_app. cbn [fold_left]. rewrite IH. clear IH.
  unfold inbound_of, not_inbound_of. rewrite !filter_app, !filter_cons, !filter_nil.
  unfold in_out_step. cbn [InOutSummary.in_quantity InOutSummary.out_quantity
                             InOutSummary.in_amount InOutSummary.out_amount].
  destruct (TransactionRecord.isInbound trans) eqn:Hin.
  - apply isInbound_true in Hin.
    rewrite (decide_True _ _ Hin), decide_False by (by intros ?).
    rewrite !app_nil_r, quantity_of_snoc, amount_of_snoc.
    unfold int_add. by rewrite wrap_int_add_l.
  - apply isInbound_false in Hin.
    rewrite (decide_True _ _ Hin), decide_False by done.
    rewrite !app_nil_r, quantity_of_snoc, amount_of_snoc.
    unfold int_add. by rewrite wrap_int_add_l.
Qed.

Lemma not_inbound_valid transactions :
  Forall required_fields transactions ->
  not_inbound_of transactions = outbound_of transactions.
Proof.
  unfold not_inbound_of, outbound_of.
  induction 1 as [|trans l (_ & _ & Htype & _) _ IH]; [done |].
  rewrite !filter_cons, IH.
  destruct Htype as [Hin | Hout].
  - rewrite decide_False by (by intros ?). rewrite decide_False; [done |].
    by rewrite Hin.
  - rewrite decide_True by (by rewrite Hout). by rewrite decide_True.
Qed.

End InOut.

(** X16.  [getInOutSummary] adds, over the events that
    [getTransactionsByTimeRange] returns, the quantities (reduced to
    [int]) and the amounts of the events of type [in] to the inbound
    totals and those of all other events to the outbound totals.  In a
    reachable state the other events are exactly the events of type
    [out]. *)
Theorem in_out_summary_totals
    (db : MemoryDatabase.t) (fs : Dir) (manager_id start_time end_time : string) :
  let events := getTransactionsByTimeRange db manager_id start_time end_time in
  getInOutSummary db manager_id start_time end_time
  = InOutSummary.mk
      (wrap_int (quantity_of (inbound_of events)))
      (wrap_int (quantity_of (not_inbound_of events)))
      (amount_of (inbound_of events))
      (amount_of (not_inbound_of events))
  /\ (reachable db fs -> not_inbound_of events = outbound_of events).
Proof.
  intros events. split; [apply in_out_loop |].
  intros Hdb. apply not_inbound_valid.
  apply Forall_forall. intros trans Hin. subst events.
  rewrite getTransactionsByTimeRange_select in Hin.
  apply elem_of_select in Hin as [Hin _].
  by apply (proj1 (Forall_forall _ _) (reachable_published_valid db fs manager_id Hdb)).
Qed.

Example in_out_summary_of_doc_store :
  getInOutSummary doc_store "manager001" "2024-01-14" "2024-01-16"
  = InOutSummary.mk 10 3 (double_of_int 20) (double_of_int 12).
Proof. vm_compute. reflexivity. Qed.

(** ** The status of the store *)

Section Status.

Implicit Types (db : MemoryDatabase.t) (manager_id : string).
Implicit Types (managers : gmap string ManagerData.t).

Lemma getAllManagerIds_keys db :
  getAllManagerIds db = (map_to_list (MemoryDatabase.managers_ db)).*1.
Proof.
  unfold getAllManagerIds.
  rewrite (push_back_loop (fun _ : string * ManagerData.t => true) fst).
  cbn [app]. f_equal. induction (map_to_list _) as [|x l IH]; [done |].
  cbn. by rewrite IH.
Qed.

Lemma total_loop (l : list (string * ManagerData.t)) (n : nat) :
  fold_left (fun total (pair : string * ManagerData.t) =>
               (total + ManagerData.count pair.2)%nat) l n
  = (n + sum_list ((fun pair => ManagerData.count pair.2) <$> l))%nat.
Proof.
  revert n. induction l as [|x l IH]; intros n; cbn; [lia |].
  rewrite IH. lia.
Qed.

Lemma sum_list_perm (l1 l2 : list nat) : l1 ≡ₚ l2 -> sum_list l1 = sum_list l2.
Proof. induction 1; cbn; lia. Qed.

Lemma total_transactions_sum db :
  SystemStatus.total_transactions (getSystemStatus db)
  = sum_list ((fun pair : string * ManagerData.t => ManagerData.count pair.2)
                <$> map_to_list (MemoryDatabase.managers_ db)).
Proof. unfold getSystemStatus. cbn. by rewrite total_loop. Qed.

(** The sum of the counts after an entry was written. *)
Lemma total_insert managers manager_id (data : ManagerData.t) :
  (sum_list ((fun pair : string * ManagerData.t => ManagerData.count pair.2)
              <$> map_to_list (<[manager_id := data]> managers))
   + from_option ManagerData.count 0 (managers !! manager_id))%nat
  = (sum_list ((fun pair : string * ManagerData.t => ManagerData.count pair.2)
                <$> map_to_list managers)
     + ManagerData.count data)%nat.
Proof.
  destruct (managers !! manager_id) as [old|] eqn:Hm; cbn [from_option].
  - rewrite <- (insert_delete_eq managers).
    rewrite <- (insert_delete_id managers manager_id old Hm) at 2.
    rewrite !(sum_list_perm _ _
                (fmap_Permutation _ _ _
                   (map_to_list_insert _ _ _ (lookup_delete_eq managers manager_id)))).
    cbn. lia.
  - rewrite (sum_list_perm _ _
               (fmap_Permutation _ _ _ (map_to_list_insert _ _ data Hm))).
    cbn. lia.
Qed.

End Status.

(** X17.  [getAllManagerIds] lists every known tenant once;
    [getSystemStatus] reports the number of the known tenants and the sum
    of their published counts, and from this sum the estimate of 500
    bytes for each event in units of 1024 bytes. *)
Theorem system_status_counts_known_tenants (db : MemoryDatabase.t) :
  NoDup (getAllManagerIds db)
  /\ (forall manager_id,
        manager_id ∈ getAllManagerIds db <-> hasManager db manager_id = true)
  /\ SystemStatus.total_managers (getSystemStatus db) = length (getAllManagerIds db)
  /\ SystemStatus.total_transactions (getSystemStatus db)
     = sum_list (getTransactionCount db <$> getAllManagerIds db)
  /\ SystemStatus.memory_usage_kb (getSystemStatus db)
     = ((N.of_nat (SystemStatus.total_transactions (getSystemStatus db)) * 500)
          mod 2 ^ 64 / 1024)%N.
Proof.
  rewrite getAllManagerIds_keys.
  split; [apply NoDup_fst_map_to_list |].
  split.
  { intros m. rewrite hasManager_true, list_elem_of_fmap. split.
    - intros ([k d] & -> & Hin%elem_of_map_to_list). by exists d.
    - intros [d Hd]. exists (m, d). split; [done |]. by apply elem_of_map_to_list. }
  split.
  { unfold getSystemStatus. cbn. by rewrite length_fmap, length_map_to_list. }
  split; [| done].
  rewrite total_transactions_sum, <- list_fmap_compose.
  f_equal. apply Forall_fmap_ext_1, Forall_forall.
  intros [k d] Hin%elem_of_map_to_list. cbn.
  unfold getTransactionCount. by rewrite Hin.
Qed.

(** X18.  A call of [appendTransaction] that succeeds raises the total of
    [getSystemStatus] by one, makes the tenant known, and raises the
    number of the tenants by one exactly when the tenant was not known; a
    call that fails leaves the status as it was. *)
Theorem append_updates_system_status
    (env : Env) (manager_id : string) (trans : Transaction)
    (db : MemoryDatabase.t) (fs : Dir) :
  let r := appendTransaction env manager_id trans db fs in
  (r.1.1 = Success ->
   SystemStatus.total_transactions (getSystemStatus r.1.2)
   = S (SystemStatus.total_transactions (getSystemStatus db))
   /\ SystemStatus.total_managers (getSystemStatus r.1.2)
      = (if hasManager db manager_id
         then SystemStatus.total_managers (getSystemStatus db)
         else S (SystemStatus.total_managers (getSystemStatus db)))
   /\ hasManager r.1.2 manager_id = true)
  /\ (isSuccess r.1.1 = false -> getSystemStatus r.1.2 = getSystemStatus db).
Proof.
  intros r. subst r.
  destruct (appendTransaction env manager_id trans db fs) as [[r db'] fs'] eqn:H.
  cbn [fst snd]. split.
  - intros ->. apply appendTransaction_success in H as (_ & _ & Hpush & _).
    split; [| split].
    + rewrite !total_transactions_sum, Hpush. unfold push_transaction.
      pose proof (total_insert (MemoryDatabase.managers_ db) manager_id
                    (ManagerData.mk
                       (ManagerData.transactions
                          (default (ManagerData.mk [] 0)
                             (MemoryDatabase.managers_ db !! manager_id)) ++ [trans])
                       (ManagerData.count
                          (default (ManagerData.mk [] 0)
                             (MemoryDatabase.managers_ db !! manager_id)) + 1))) as Ht.
      cbn [ManagerData.count] in Ht.
      destruct (MemoryDatabase.managers_ db !! manager_id) as [d|]; cbn in Ht |- *; lia.
    + unfold getSystemStatus, hasManager. cbn [SystemStatus.total_managers].
      rewrite Hpush. unfold push_transaction. rewrite map_size_insert.
      destruct (MemoryDatabase.managers_ db !! manager_id) as [d|] eqn:Hm.
      * rewrite bool_decide_eq_true_2 by (by eexists). done.
      * rewrite bool_decide_eq_false_2 by (by intros [? ?]). done.
    + apply hasManager_true. rewrite Hpush. unfold push_transaction.
      rewrite lookup_insert_eq. by eexists.
  - destruct r as [|code message]; [done |]. intros _.
    pose proof (appendTransaction_error env manager_id trans db fs code message) as He.
    rewrite H in He. cbn in He. unfold getSystemStatus. by rewrite He.
Qed.

Example status_of_samples :
  getSystemStatus sample_store0.1 = SystemStatus.mk 0 0 0
  /\ getSystemStatus sample_store1.1 = SystemStatus.mk 1 1 0
  /\ getSystemStatus doc_store = SystemStatus.mk 1 4 1
  /\ getAllManagerIds doc_store = ["manager001"].
Proof. vm_compute. done. Qed.

(** ** What recovery reads *)

Section WalOnly.

Implicit Types (fs : Dir) (f : string).

Lemma elem_of_getWALFiles fs f :
  f ∈ getWALFiles fs <-> is_wal_name f = true /\ is_Some (fs !! f).
Proof.
  unfold getWALFiles. rewrite merge_sort_Permutation, elem_of_select, list_elem_of_fmap.
  split.
  - intros [([g c] & -> & Hin%elem_of_map_to_list) Hf]. split; [done | by exists c].
  - intros [Hf [c Hc]]. split; [| done]. exists (f, c). split; [done |].
    by apply elem_of_map_to_list.
Qed.

Lemma getWALFiles_NoDup fs : NoDup (getWALFiles fs).
Proof.
  unfold getWALFiles. rewrite merge_sort_Permutation.
  apply NoDup_ListNoDup, List.NoDup_filter, NoDup_ListNoDup, NoDup_fst_map_to_list.
Qed.

Lemma getWALFiles_sorted fs : StronglySorted String.le (getWALFiles fs).
Proof. unfold getWALFiles. apply StronglySorted_merge_sort; apply _. Qed.

(** The list of the segments depends only on which segment names exist. *)
Lemma getWALFiles_ext fs1 fs2 :
  (forall f, is_wal_name f = true -> is_Some (fs1 !! f) <-> is_Some (fs2 !! f)) ->
  getWALFiles fs1 = getWALFiles fs2.
Proof.
  intros H. apply (StronglySorted_unique String.le); try apply getWALFiles_sorted.
  apply NoDup_Permutation; try apply getWALFiles_NoDup.
  intros f. rewrite !elem_of_getWALFiles. split; intros [Hf Hs]; (split; [done |]).
  - by apply H.
  - by apply H.
Qed.

Lemma StronglySorted_sublist {A} (R : relation A) (l1 l2 : list A) :
  sublist l1 l2 -> StronglySorted R l2 -> StronglySorted R l1.
Proof.
  induction 1 as [|x l1 l2 Hsub IH|x l1 l2 Hsub IH]; intros Hs; [done | |].
  - apply StronglySorted_inv in Hs as [Hs Hx].
    constructor; [by apply IH |].
    apply Forall_forall. intros y Hy.
    apply (proj1 (Forall_forall _ _) Hx). by eapply elem_of_sublist.
  - apply StronglySorted_inv in Hs as [Hs _]. by apply IH.
Qed.

Lemma Forall_sublist {A} (P : A -> Prop) (l1 l2 : list A) :
  sublist l1 l2 -> Forall P l2 -> Forall P l1.
Proof.
  intros Hsub HP. apply Forall_forall. intros x Hx.
  apply (proj1 (Forall_forall _ _) HP). by eapply elem_of_sublist.
Qed.

Lemma fold_left_ext_elem {A B} (g1 g2 : A -> B -> A) (l : list B) (a : A) :
  (forall x a', x ∈ l -> g1 a' x = g2 a' x) ->
  fold_left g1 l a = fold_left g2 l a.
Proof.
  revert a. induction l as [|x l IH]; intros a H; [done |].
  cbn. rewrite (H x a) by apply list_elem_of_here.
  apply IH. intros y a' Hy. apply H. by apply list_elem_of_further.
Qed.

Lemma recoverFromWAL_ext fs1 fs2 :
  (forall f, is_wal_name f = true -> fs1 !! f = fs2 !! f) ->
  recoverFromWAL fs1 = recoverFromWAL fs2.
Proof.
  intros H. unfold recoverFromWAL.
  rewrite (getWALFiles_ext fs1 fs2) by (intros f Hf; by rewrite (H f Hf)).
  apply fold_left_ext_elem. intros f data [Hf _]%elem_of_getWALFiles.
  unfold recover_file. by rewrite (H f Hf).
Qed.

(** Opening a file for appending creates at most an empty file, which
    holds no line. *)
Lemma recoverFromWAL_open fs f :
  recoverFromWAL (appendToFile f "" fs) = recoverFromWAL fs.
Proof.
  destruct (fs !! f) as [c|] eqn:Hf.
  { unfold appendToFile. rewrite Hf. cbn [from_option id].
    by rewrite append_empty_r, insert_id. }
  destruct (is_wal_name f) eqn:Hname.
  2:{ apply recoverFromWAL_ext. intros g Hg. rewrite lookup_appendToFile.
      case_decide; [congruence | done]. }
  rewrite !recoverFromWAL_lines. f_equal. unfold wal_lines.
  set (fs' := appendToFile f "" fs).
  assert (forall g, g <> f -> fs' !! g = fs !! g) as Hother.
  { intros g Hg. unfold fs'. rewrite lookup_appendToFile. by case_decide. }
  assert (fs' !! f = Some "") as Hnew.
  { unfold fs'. rewrite lookup_appendToFile, decide_True by done. by rewrite Hf. }
  assert (filter (fun g => g <> f) (getWALFiles fs') = getWALFiles fs) as <-.
  { apply (StronglySorted_unique String.le).
    - eapply StronglySorted_sublist; [apply sublist_filter | apply getWALFiles_sorted].
    - apply getWALFiles_sorted.
    - apply NoDup_Permutation.
      + apply NoDup_filter, getWALFiles_NoDup.
      + apply getWALFiles_NoDup.
      + intros g. rewrite list_elem_of_filter, !elem_of_getWALFiles. split.
        * intros (Hg & Hw & Hs). by rewrite <- (Hother g Hg).
        * intros [Hw Hs].
          assert (g <> f) as Hg by (intros ->; rewrite Hf in Hs; by destruct Hs).
          by rewrite (Hother g Hg). }
  induction (getWALFiles fs') as [|g l IH]; [done |].
  rewrite filter_cons. cbn [flat_map]. rewrite IH.
  destruct (decide (g <> f)) as [Hg | Hg].
  - cbn [flat_map]. by rewrite (Hother g Hg).
  - apply dec_stable in Hg as ->. by rewrite Hnew.
Qed.

(** What the constructor recovers is what the directory held before the
    stream and the lock file were opened. *)
Lemma recoverFromWAL_new b data_dir fs :
  recoverFromWAL (PersistenceManager_new b data_dir fs).2 = recoverFromWAL fs.
Proof.
  unfold PersistenceManager_new.
  destruct (dir_ok b); cbn [negb]; [| done].
  destruct (wal_ok b); cbn [negb snd]; [| done].
  destruct (lock_ok b); by rewrite !recoverFromWAL_open.
Qed.

(** The store that the constructor builds is determined by the recovered
    data and by whether the directory and the stream could be opened. *)
Lemma MemoryDatabase_new_store b data_dir fs :
  (MemoryDatabase_new b data_dir fs).1
  = if dir_ok b && wal_ok b
    then MemoryDatabase.mk
           (if validateDataIntegrity (recoverFromWAL fs)
            then restore (recoverFromWAL fs) else ∅)
           (Some (fresh_manager data_dir)) true
    else MemoryDatabase.mk ∅ None false.
Proof.
  pose proof (recoverFromWAL_new b data_dir fs) as Hrec.
  unfold MemoryDatabase_new, PersistenceManager_new in *.
  destruct (dir_ok b); cbn [negb andb] in *; [| done].
  destruct (wal_ok b); cbn [negb andb fst snd] in *; [| done].
  rewrite Hrec. unfold fresh_manager. f_equal.
  destruct (size (recoverFromWAL fs) =? 0)%nat eqn:Hsize; cbn [negb]; [| done].
  apply Nat.eqb_eq, map_size_empty_iff in Hsize. rewrite Hsize.
  rewrite restore_empty. by destruct (validateDataIntegrity ∅).
Qed.

End WalOnly.
(** X19.  Recovery reads the files of the data directory whose names end
    in [.wal] or [.log] and no others: two directories that agree on these
    files give the same recovered data and the same store at construction.
    Snapshot files, whose names end in [.json], have no influence. *)
Theorem recovery_reads_only_wal_files (fs1 fs2 : Dir) :
  (forall f, is_wal_name f = true -> fs1 !! f = fs2 !! f) ->
  recoverFromWAL fs1 = recoverFromWAL fs2
  /\ forall b data_dir,
       (MemoryDatabase_new b data_dir fs1).1 = (MemoryDatabase_new b data_dir fs2).1.
Proof.
  intros H.
  assert (recoverFromWAL fs1 = recoverFromWAL fs2) as Hrec
    by (by apply recoverFromWAL_ext).
  split; [done |]. intros b data_dir.
  by rewrite !MemoryDatabase_new_store, Hrec.
Qed.

Lemma recovery_reads_only_wal_files_witness :
  recoverFromWAL
    (<["snapshot_20240601_080000.json" := "{}"]> sample_damaged_dir)
  = recoverFromWAL sample_damaged_dir.
Proof.
  apply (recovery_reads_only_wal_files
           (<["snapshot_20240601_080000.json" := "{}"]> sample_damaged_dir)
           sample_damaged_dir).
  intros f Hf. apply lookup_insert_ne. intros <-. discriminate Hf.
Defined.

Section Restored.

Implicit Types (fs : Dir) (manager_id : string) (trans : Transaction).

(** A parsed event has no tenant member: [deserializeTransaction] returns
    the tenant id beside the event and does not assign the member. *)
Lemma deserializeTransaction_manager_id (line m : string) trans :
  deserializeTransaction line = Some (m, trans) ->
  TransactionRecord.manager_id trans = "".
Proof.
  unfold deserializeTransaction.
  destruct (negb _); [done |].
  destruct (Str.getlines bar line)
    as [|f0 [|f1 [|f2 [|f3 [|f4 [|f5 [|f6 [|f7 [|f8 [|f9 [|f10 [|f11 [|f12
        [|f13 [|f14 [|f15 [|f16 l]]]]]]]]]]]]]]]]]; try done.
  destruct (Num.stoi f6); [| done]. destruct (Num.stod f7); [| done].
  by intros [= <- <-].
Qed.

(** The events of a new store are the recovered ones. *)
Lemma getTransactions_new b data_dir fs manager_id trans :
  trans ∈ getTransactions (MemoryDatabase_new b data_dir fs).1 manager_id ->
  exists l, recoverFromWAL fs !! manager_id = Some l /\ trans ∈ l.
Proof.
  rewrite MemoryDatabase_new_store.
  destruct (dir_ok b && wal_ok b); [| by intros ?%elem_of_nil].
  destruct (validateDataIntegrity _); [| by intros ?%elem_of_nil].
  rewrite getTransactions_restore.
  destruct (recoverFromWAL fs !! manager_id) as [l|]; [| by intros ?%elem_of_nil].
  intros Hin. by exists l.
Qed.

End Restored.

(** X20.  A store that was constructed from a data directory holds no
    event with a tenant member: the member [manager_id] of every restored
    event is empty, whatever it was when the event was appended, and so is
    the member [manager_id] of every document that [getDocuments] lists. *)
Theorem restored_events_lack_manager_member
    (b : BootEnv) (data_dir : string) (fs : Dir) (manager_id : string) :
  let db := (MemoryDatabase_new b data_dir fs).1 in
  (forall trans,
      trans ∈ getTransactions db manager_id -> TransactionRecord.manager_id trans = "")
  /\ (forall s,
        s ∈ getDocuments db manager_id -> DocumentSummary.manager_id s = "").
Proof.
  intros db.
  assert (forall trans,
             trans ∈ getTransactions db manager_id ->
             TransactionRecord.manager_id trans = "") as Hevents.
  { intros trans (l & Hl & Hin)%getTransactions_new.
    destruct (recoverFromWAL_invariant
                (fun t => TransactionRecord.manager_id t = "") fs
                deserializeTransaction_manager_id manager_id l Hl) as [_ Hall].
    by apply (proj1 (Forall_forall _ _) Hall). }
  split; [done |].
  intros s [_ (first & rest & Hev & [= _ _ _ _ Hm] & _)]%getDocuments_summarises.
  rewrite Hm. apply Hevents.
  assert (first ∈ getTransactionsByDocument db manager_id (DocumentSummary.document_no s))
    as Hin by (rewrite Hev; apply list_elem_of_here).
  rewrite getTransactionsByDocument_select in Hin.
  by apply elem_of_select in Hin as [Hin _].
Qed.

Example restored_sample_lacks_manager_member :
  let db := (MemoryDatabase_new sample_boot "./data" sample_store1.2).1 in
  map TransactionRecord.manager_id (getTransactions sample_store1.1 "manager001")
  = ["manager001"]
  /\ map TransactionRecord.manager_id (getTransactions db "manager001") = [""]
  /\ map DocumentSummary.manager_id (getDocuments sample_store1.1 "manager001")
     = ["manager001"]
  /\ map DocumentSummary.manager_id (getDocuments db "manager001") = [""].
Proof. vm_compute. done. Qed.

Section Snapshots.

Lemma snapshot_lines (lines : list string) (data : gmap string (list Transaction)) :
  fold_left snapshot_line lines data = data.
Proof.
  revert data. induction lines as [|line lines IH]; intros data; [done |].
  cbn [fold_left]. rewrite IH. unfold snapshot_line. by destruct (_ || _).
Qed.

End Snapshots.

(** X21.  [recoverFromSnapshot] returns the empty map for every data
    directory: the lines of the latest snapshot are read, but none of them
    is parsed. *)
Theorem recoverFromSnapshot_restores_nothing (fs : Dir) :
  recoverFromSnapshot fs = ∅.
Proof.
  unfold recoverFromSnapshot.
  destruct (last (getSnapshotFiles fs)) as [latest_snapshot|]; [| done].
  destruct (fs !! latest_snapshot) as [content|]; [| done].
  apply snapshot_lines.
Qed.

Example getSnapshotFiles_sample :
  getSnapshotFiles
    {[ "snapshot_20240601_080000.json" := "{}";
       "snapshot_20240101_000000.json" := "{}";
       "snapshot_old.txt" := ""; "current.wal" := "" ]}
  = ["snapshot_20240101_000000.json"; "snapshot_20240601_080000.json"].
Proof. vm_compute. reflexivity. Qed.
Section Rejected.

Implicit Types (fs : Dir) (manager_id : string).

Lemma omap_sublist {A B} (f : A -> option B) (l1 l2 : list A) :
  sublist l1 l2 -> sublist (omap f l1) (omap f l2).
Proof.
  induction 1 as [|x l1 l2 Hsub IH|x l1 l2 Hsub IH]; [done | |].
  - rewrite !omap_step. destruct (f x); [by apply sublist_skip | done].
  - rewrite omap_step. destruct (f x); [by apply sublist_cons | done].
Qed.

Lemma recoverFromWAL_lookup fs manager_id :
  default [] (recoverFromWAL fs !! manager_id)
  = omap (parsed_for manager_id) (wal_lines fs).
Proof.
  rewrite recoverFromWAL_lines, recover_lines_lookup. by rewrite lookup_empty.
Qed.

(** A log that passes the validation passes it when lines are removed. *)
Lemma validateDataIntegrity_sublist fs fs' :
  sublist (wal_lines fs) (wal_lines fs') ->
  validateDataIntegrity (recoverFromWAL fs') = true ->
  validateDataIntegrity (recoverFromWAL fs) = true.
Proof.
  intros Hsub Hval. apply validateDataIntegrity_spec. intros m txs Hm.
  pose proof (recoverFromWAL_lookup fs m) as Htxs.
  rewrite Hm in Htxs. cbn [from_option id] in Htxs.
  pose proof (omap_sublist (parsed_for m) _ _ Hsub) as Hs.
  rewrite <- Htxs, <- recoverFromWAL_lookup in Hs.
  destruct (recoverFromWAL fs' !! m) as [txs'|] eqn:Hm'; cbn [from_option id] in Hs.
  - destruct (proj1 (validateDataIntegrity_spec _) Hval m txs' Hm') as [Hord Hreq].
    split.
    + unfold timestamps_nondecreasing in *.
      eapply StronglySorted_sublist; [| exact Hord]. by apply (fmap_sublist TransactionRecord.timestamp).
    + by eapply Forall_sublist.
  - apply sublist_nil_r in Hs as ->. split; [constructor | done].
Qed.

End Rejected.

(** X22.  A log that the validation rejects stays rejected when lines are
    added to it, wherever they are added: the recovered data of the longer
    log does not pass [validateDataIntegrity], and every store constructed
    on it starts without tenants. *)
Theorem rejected_log_stays_rejected (fs fs' : Dir) :
  sublist (wal_lines fs) (wal_lines fs') ->
  validateDataIntegrity (recoverFromWAL fs) = false ->
  validateDataIntegrity (recoverFromWAL fs') = false
  /\ forall b data_dir,
       MemoryDatabase.managers_ (MemoryDatabase_new b data_dir fs').1 = ∅.
Proof.
  intros Hsub Hrej.
  assert (validateDataIntegrity (recoverFromWAL fs') = false) as Hrej'.
  { destruct (validateDataIntegrity (recoverFromWAL fs')) eqn:Hval; [| done].
    by rewrite (validateDataIntegrity_sublist fs fs' Hsub Hval) in Hrej. }
  split; [done |]. intros b data_dir.
  rewrite MemoryDatabase_new_store, Hrej'. by destruct (dir_ok b && wal_ok b).
Qed.

Lemma rejected_log_stays_rejected_witness :
  validateDataIntegrity (recoverFromWAL sample_disordered_longer) = false
  /\ MemoryDatabase.managers_
       (MemoryDatabase_new sample_boot "./data" sample_disordered_longer).1 = ∅.
Proof.
  destruct (rejected_log_stays_rejected sample_disordered_dir sample_disordered_longer)
    as [H1 H2].
  - vm_compute. apply sublist_skip, sublist_skip, sublist_nil_l.
  - vm_compute. reflexivity.
  - split; [exact H1 | apply H2].
Defined.

(** ** The quantities of the positions *)

Section Positions.

Implicit Types (trans : Transaction) (transactions : list Transaction).
Implicit Types (key : string * string).

Lemma events_of_position_snoc key transactions trans :
  events_of_position key (transactions ++ [trans])
  = events_of_position key transactions
    ++ (if decide (position_key trans = key) then [trans] else []).
Proof. unfold events_of_position. by rewrite filter_app. Qed.

Lemma wrap_int_sub_l (a b : Z) : wrap_int (wrap_int a - b) = wrap_int (a - b).
Proof.
  replace (wrap_int a - b) with (wrap_int a + - b) by lia.
  by rewrite wrap_int_add_l.
Qed.

(** The position of a key: its members are the key and its quantity is the
    net quantity of the events of the key, reduced to [int]. *)
Lemma positions_quantity transactions key :
  match fold_left inventory_step transactions ∅ !! key with
  | None => events_of_position key transactions = []
  | Some r =>
      (InventoryRecord.warehouse_id r, InventoryRecord.item_id r) = key
      /\ events_of_position key transactions <> []
      /\ InventoryRecord.quantity r
         = wrap_int (net_quantity (events_of_position key transactions))
  end.
Proof.
  induction transactions as [|trans transactions IH] using rev_ind.
  - cbn. by rewrite lookup_empty.
  - rewrite fold_left_app, events_of_position_snoc. cbn [fold_left].
    destruct (decide (position_key trans = key)) as [<- | Hne].
    + rewrite inventory_step_key, net_quantity_snoc.
      unfold position_before, signed_quantity, int_add, int_sub.
      destruct (fold_left inventory_step transactions ∅ !! position_key trans)
        as [r|]; cbn [from_option id].
      * destruct IH as (Hkey & _ & Hq).
        destruct (TransactionRecord.isInbound trans); cbn.
        -- split; [done |]. split; [by intros [_ ?]%app_eq_nil |].
           by rewrite Hq, wrap_int_add_l.
        -- split; [done |]. split; [by intros [_ ?]%app_eq_nil |].
           by rewrite Hq, wrap_int_sub_l.
      * rewrite IH.
        destruct (TransactionRecord.isInbound trans); cbn; repeat split; try done.
    + rewrite inventory_step_other by done. by rewrite app_nil_r.
Qed.

End Positions.

(** X23.  A record that [calculateInventory] lists under a warehouse is
    the position of one item in this warehouse: its quantity is positive
    and is the sum of the quantities of the inbound events of the item in
    the warehouse minus the quantities of its other events there, reduced
    to the range of [int].  Every item with events in the warehouse whose
    net quantity is positive is listed. *)
Theorem inventory_position_quantity_is_net
    (db : MemoryDatabase.t) (manager_id w : string) :
  (forall r,
      r ∈ default [] (calculateInventory db manager_id !! w) ->
      InventoryRecord.warehouse_id r = w
      /\ events_of_position (w, InventoryRecord.item_id r)
           (getTransactions db manager_id) <> []
      /\ InventoryRecord.quantity r
         = wrap_int
             (net_quantity
                (events_of_position (w, InventoryRecord.item_id r)
                   (getTransactions db manager_id)))
      /\ 0 < InventoryRecord.quantity r)
  /\ (forall item,
        events_of_position (w, item) (getTransactions db manager_id) <> [] ->
        0 < wrap_int
              (net_quantity
                 (events_of_position (w, item) (getTransactions db manager_id))) ->
        exists r,
          r ∈ default [] (calculateInventory db manager_id !! w)
          /\ InventoryRecord.item_id r = item).
Proof.
  split.
  - intros r (item & Hr & Hpos)%calculateInventory_elem.
    pose proof (positions_quantity (getTransactions db manager_id) (w, item)) as H.
    unfold positions_of in Hr. rewrite Hr in H.
    destruct H as ([= Hw Hi] & Hne & Hq). by rewrite Hi.
  - intros item Hne Hpos.
    pose proof (positions_quantity (getTransactions db manager_id) (w, item)) as H.
    destruct (fold_left inventory_step (getTransactions db manager_id) ∅ !! (w, item))
      as [r|] eqn:Hr; [| done].
    destruct H as ([= Hw Hi] & _ & Hq).
    exists r. split; [| done].
    apply calculateInventory_elem. exists item. split; [exact Hr | by rewrite Hq].
Qed.

Example inventory_of_doc_store :
  calculateInventory doc_store "manager001"
  = {[ "WH1" := [InventoryRecord.mk "I1" "WH1" 12
                   (d_div (double_of_int 26) (double_of_int 12))] ]}
  /\ net_quantity (events_of_position ("WH1", "I2")
                     (getTransactions doc_store "manager001")) = -3.
Proof. vm_compute. done. Qed.

(** ** The order of the timestamps *)

Section FixedWidthNumerals.

Lemma forallb_range (P : Z -> bool) (a : Z) (n : nat) :
  forallb P (range a n) = true ->
  forall z, a <= z < a + Z.of_nat n -> P z = true.
Proof.
  intros H z Hz. rewrite forallb_forall in H. apply H.
  unfold range. apply in_map_iff. exists (Z.to_nat (z - a)). split; [lia |].
  apply in_seq. lia.
Qed.

Lemma lex_eq (a b : comparison) : lex a b = Eq <-> a = Eq /\ b = Eq.
Proof. destruct a, b; cbn; intuition congruence. Qed.

Lemma compare_append (a b s t : string) :
  String.length a = String.length b ->
  String.compare (a +:+ s) (b +:+ t)
  = lex (String.compare a b) (String.compare s t).
Proof.
  revert b. induction a as [|c a IH]; intros [|d b] Hlen; try done.
  rewrite !append_cons. cbn [String.compare String.length] in *.
  destruct (Ascii.compare c d); [| done | done].
  apply IH. lia.
Qed.

Lemma digit_compare (x y : Z) :
  0 <= x <= 9 -> 0 <= y <= 9 -> Ascii.compare (digit x) (digit y) = (x ?= y).
Proof.
  intros Hx Hy.
  assert (forallb
            (fun x => forallb
                        (fun y => bool_decide
                                    (Ascii.compare (digit x) (digit y) = (x ?= y)))
                        (range 0 10))
            (range 0 10) = true) as H by (vm_compute; reflexivity).
  pose proof (forallb_range _ 0 10 H x) as Hx'. cbv beta in Hx'.
  pose proof (forallb_range _ 0 10 (Hx' ltac:(lia)) y ltac:(lia)) as Hxy.
  by apply bool_decide_eq_true in Hxy.
Qed.

Lemma digits_length (n : nat) (z : Z) : String.length (digits n z) = n.
Proof.
  revert z. induction n as [|n IH]; intros z; [done |].
  cbn [digits]. rewrite length_append, IH. cbn. lia.
Qed.

(** Numerals of the same width are ordered as their values. *)
Lemma digits_compare (n : nat) (x y : Z) :
  0 <= x < 10 ^ Z.of_nat n -> 0 <= y < 10 ^ Z.of_nat n ->
  String.compare (digits n x) (digits n y) = (x ?= y).
Proof.
  revert x y. induction n as [|n IH]; intros x y Hx Hy.
  - cbn in *. assert (x = 0) as -> by lia. assert (y = 0) as -> by lia. done.
  - cbn [digits]. rewrite compare_append by (by rewrite !digits_length).
    rewrite Nat2Z.inj_succ, Z.pow_succ_r in Hx, Hy by lia.
    rewrite IH by (split; [apply Z.div_pos; lia | apply Z.div_lt_upper_bound; lia]).
    cbn [String.compare].
    pose proof (Z.mod_pos_bound x 10 ltac:(lia)) as Hmx.
    pose proof (Z.mod_pos_bound y 10 ltac:(lia)) as Hmy.
    rewrite digit_compare by lia.
    pose proof (Z.div_mod x 10 ltac:(lia)) as Hdx.
    pose proof (Z.div_mod y 10 ltac:(lia)) as Hdy.
    destruct (Z.compare_spec (x / 10) (y / 10)) as [He | Hl | Hg];
      destruct (Z.compare_spec (x mod 10) (y mod 10)) as [He' | Hl' | Hg'];
      cbn; symmetry.
    all: first [apply Z.compare_eq_iff; lia | apply Z.compare_lt_iff; lia
               | apply Z.compare_gt_iff; lia].
Qed.

Lemma put_width_2_digits (z : Z) : 0 <= z <= 99 -> put_width 2 z = digits 2 z.
Proof.
  intros Hz.
  assert (forallb (fun z => String.eqb (put_width 2 z) (digits 2 z)) (range 0 100) = true)
    as H by (vm_compute; reflexivity).
  apply String.eqb_eq, (forallb_range _ 0 100 H). lia.
Qed.

Lemma put_width_3_digits (z : Z) : 0 <= z <= 999 -> put_width 3 z = digits 3 z.
Proof.
  intros Hz.
  assert (forallb (fun z => String.eqb (put_width 3 z) (digits 3 z)) (range 0 (Z.to_nat 1000)) = true)
    as H by (vm_compute; reflexivity).
  apply String.eqb_eq, (forallb_range _ 0 (Z.to_nat 1000) H). lia.
Qed.

Lemma dec_4_digits (z : Z) : 1000 <= z <= 9999 -> dec z = digits 4 z.
Proof.
  intros Hz.
  assert (forallb (fun z => String.eqb (dec z) (digits 4 z)) (range 1000 (Z.to_nat 9000)) = true)
    as H by (vm_compute; reflexivity).
  apply String.eqb_eq, (forallb_range _ 1000 (Z.to_nat 9000) H). lia.
Qed.

(** The timestamp of a reading in range, numeral by numeral. *)
Lemma getCurrentTimestamp_digits (c : Clock) :
  clock_in_range c ->
  getCurrentTimestamp c
  = digits 4 (year c) +:+ "-" +:+ digits 2 (month c) +:+ "-" +:+ digits 2 (day c)
    +:+ "T" +:+ digits 2 (hour c) +:+ ":" +:+ digits 2 (minute c)
    +:+ ":" +:+ digits 2 (second c) +:+ "." +:+ digits 3 (millis c) +:+ "Z".
Proof.
  intros (Hy & Hmo & Hd & Hh & Hmi & Hs & Hms). unfold getCurrentTimestamp.
  by rewrite dec_4_digits, !put_width_2_digits, put_width_3_digits.
Qed.

Lemma getCurrentTimestamp_compare (c1 c2 : Clock) :
  clock_in_range c1 -> clock_in_range c2 ->
  String.compare (getCurrentTimestamp c1) (getCurrentTimestamp c2) = clock_compare c1 c2.
Proof.
  intros H1 H2.
  rewrite !getCurrentTimestamp_digits by done.
  destruct H1 as (Hy1 & Hmo1 & Hd1 & Hh1 & Hmi1 & Hs1 & Hms1).
  destruct H2 as (Hy2 & Hmo2 & Hd2 & Hh2 & Hmi2 & Hs2 & Hms2).
  unfold clock_compare.
  repeat first
    [ rewrite (compare_append (digits _ _) (digits _ _)) by (by rewrite !digits_length)
    | rewrite (compare_append "-" "-") by done
    | rewrite (compare_append "T" "T") by done
    | rewrite (compare_append ":" ":") by done
    | rewrite (compare_append "." ".") by done ].
  rewrite !digits_compare by (cbn; lia).
  cbn [String.compare Ascii.compare]. 
  repeat (f_equal; []). 
  destruct (millis c1 ?= millis c2); reflexivity.
Qed.

End FixedWidthNumerals.
Section TimestampFacts.

Implicit Types (c : Clock).

Lemma compare_refl (s : string) : String.compare s s = Eq.
Proof.
  induction s as [|a s IH]; [done |]. cbn [String.compare].
  unfold Ascii.compare. by rewrite N.compare_refl.
Qed.

Lemma clock_compare_eq c1 c2 : clock_compare c1 c2 = Eq <-> c1 = c2.
Proof.
  unfold clock_compare. rewrite !lex_eq, !Z.compare_eq_iff. split.
  - destruct c1, c2. cbn. intros (-> & -> & -> & -> & -> & -> & ->). done.
  - by intros ->.
Qed.

Lemma getCurrentTimestamp_shape c :
  clock_in_range c ->
  String.length (getCurrentTimestamp c) = 24%nat
  /\ String.get 4 (getCurrentTimestamp c) = Some "-"%char
  /\ String.get 7 (getCurrentTimestamp c) = Some "-"%char
  /\ String.get 10 (getCurrentTimestamp c) = Some "T"%char.
Proof.
  intros Hc. rewrite getCurrentTimestamp_digits by done.
  repeat split; reflexivity.
Qed.

End TimestampFacts.

(** X24.  For readings of the clock whose year has four digits, the
    timestamps of [getCurrentTimestamp] are ordered, as strings, as the
    readings are ordered in time, and different readings give different
    timestamps. *)
Theorem timestamps_order_as_clock (c1 c2 : Clock) :
  clock_in_range c1 -> clock_in_range c2 ->
  String.compare (getCurrentTimestamp c1) (getCurrentTimestamp c2) = clock_compare c1 c2
  /\ (Str.ltb (getCurrentTimestamp c1) (getCurrentTimestamp c2) = true
      <-> clock_compare c1 c2 = Lt)
  /\ (String.le (getCurrentTimestamp c1) (getCurrentTimestamp c2)
      <-> clock_compare c1 c2 <> Gt)
  /\ (getCurrentTimestamp c1 = getCurrentTimestamp c2 <-> c1 = c2).
Proof.
  intros H1 H2.
  pose proof (getCurrentTimestamp_compare c1 c2 H1 H2) as Hcmp.
  split; [done |]. split; [| split].
  - unfold Str.ltb, String.ltb. rewrite Hcmp. by destruct (clock_compare c1 c2).
  - unfold String.le, String.leb. rewrite Hcmp.
    destruct (clock_compare c1 c2); cbn; intuition congruence.
  - rewrite <- clock_compare_eq, <- Hcmp. split.
    + intros ->. apply compare_refl.
    + apply String.compare_eq_iff.
Qed.

Lemma timestamps_order_as_clock_witness :
  Str.ltb (getCurrentTimestamp sample_clock) (getCurrentTimestamp sample_clock_later)
  = true.
Proof.
  apply (timestamps_order_as_clock sample_clock sample_clock_later).
  - unfold clock_in_range. cbn. lia.
  - unfold clock_in_range. cbn. lia.
  - reflexivity.
Defined.

(** After the year 9999 the order of the timestamps is not the order of
    the readings. *)
Example timestamp_order_after_9999 :
  clock_compare clock_9999 clock_10000 = Lt
  /\ Str.ltb (getCurrentTimestamp clock_10000) (getCurrentTimestamp clock_9999) = true.
Proof. vm_compute. done. Qed.

(** X25.  When the clock does not go back between the calls of a run and
    its years have four digits, the times of the writes are in order for
    every tenant, which is what the validation at the next construction
    examines. *)
Theorem monotone_clock_orders_write_times (ops : list (Env * string * Transaction)) :
  Forall (fun op => clock_in_range (clock op.1.1)) ops ->
  StronglySorted
    (fun a b : Env * string * Transaction =>
       clock_compare (clock a.1.1) (clock b.1.1) <> Gt) ops ->
  write_times_in_order ops.
Proof.
  intros Hrange Hsorted manager_id. unfold ops_of.
  apply (StronglySorted_fmap_on
           (fun op : Env * string * Transaction => clock_in_range (clock op.1.1))
           (fun op => now op.1.1)
           (fun a b : Env * string * Transaction =>
              clock_compare (clock a.1.1) (clock b.1.1) <> Gt)).
  - intros a b Ha Hb Hab. unfold now.
    unfold String.le, String.leb.
    rewrite (getCurrentTimestamp_compare _ _ Ha Hb).
    by destruct (clock_compare _ _).
  - eapply Forall_sublist; [apply sublist_filter | done].
  - eapply StronglySorted_sublist; [apply sublist_filter | done].
Qed.

Lemma monotone_clock_orders_write_times_witness : write_times_in_order sample_ops.
Proof.
  apply (monotone_clock_orders_write_times sample_ops).
  - repeat constructor; cbn; lia.
  - repeat constructor; cbn; discriminate.
Defined.

(** X26.  A timestamp that [getCurrentTimestamp] makes from a reading
    whose year has four digits has 24 characters and passes
    [isValidTimeFormat]. *)
Theorem written_timestamps_are_well_formed (c : Clock) :
  clock_in_range c ->
  String.length (getCurrentTimestamp c) = 24%nat
  /\ isValidTimeFormat (getCurrentTimestamp c) = true.
Proof.
  intros (Hlen & H4 & H7 & H10)%getCurrentTimestamp_shape.
  split; [done |]. unfold isValidTimeFormat.
  rewrite Hlen, H4, H7, H10. reflexivity.
Qed.

Lemma written_timestamps_are_well_formed_witness :
  isValidTimeFormat (getCurrentTimestamp sample_clock) = true.
Proof.
  apply (written_timestamps_are_well_formed sample_clock).
  unfold clock_in_range. cbn. lia.
Defined.

Example isValidTimeFormat_samples :
  isValidTimeFormat "2024-01-15T10:30:00" = true
  /\ isValidTimeFormat "2024-01-15 10:30:00" = false
  /\ isValidTimeFormat "2024-01-15T10:30" = false
  /\ isValidTimeFormat "abcd-ef-ghTrubbish..." = true
  /\ isValidTimeFormat (getCurrentTimestamp clock_10000) = false.
Proof. vm_compute. done. Qed.

(** ** The items over the warehouses *)

Section ItemTotals.

Implicit Types (trans : Transaction) (transactions : list Transaction).
Implicit Types (inventory_map : gmap (string * string) InventoryRecord.t).
Implicit Types (item : string).

Lemma wrap_int_add_r (a b : Z) : wrap_int (a + wrap_int b) = wrap_int (a + b).
Proof. by rewrite Z.add_comm, wrap_int_add_l, Z.add_comm. Qed.

Lemma quantity_sum_perm (l1 l2 : list ((string * string) * InventoryRecord.t)) :
  l1 ≡ₚ l2 ->
  foldr (fun p total => InventoryRecord.quantity p.2 + total) 0 l1
  = foldr (fun p total => InventoryRecord.quantity p.2 + total) 0 l2.
Proof. induction 1; cbn; lia. Qed.

Lemma wrap_int_replace (t o x : Z) :
  wrap_int (t + (wrap_int (o + x) - o)) = wrap_int (t + x).
Proof.
  replace (t + (wrap_int (o + x) - o)) with ((t - o) + wrap_int (o + x)) by lia.
  rewrite wrap_int_add_r. f_equal. lia.
Qed.

(** The total of an item after one position was written. *)
Lemma item_total_insert item inventory_map (k : string * string) (r : InventoryRecord.t) :
  item_total item (<[k := r]> inventory_map)
  = item_total item inventory_map
    + (if decide (k.2 = item)
       then InventoryRecord.quantity r
            - from_option InventoryRecord.quantity 0 (inventory_map !! k)
       else 0).
Proof.
  unfold item_total.
  rewrite <- (insert_delete_eq inventory_map).
  rewrite (quantity_sum_perm _ _
             (filter_Permutation _ _ _
                (map_to_list_insert _ _ r (lookup_delete_eq inventory_map k)))).
  rewrite filter_cons. cbn [fst snd].
  destruct (inventory_map !! k) as [old|] eqn:Hk; cbn [from_option].
  - assert (map_to_list inventory_map
            ≡ₚ (k, old) :: map_to_list (delete k inventory_map)) as Hperm.
    { rewrite <- (insert_delete_id inventory_map k old Hk) at 1.
      apply map_to_list_insert, lookup_delete_eq. }
    rewrite (quantity_sum_perm _ _ (filter_Permutation _ _ _ Hperm)).
    rewrite filter_cons. cbn [fst snd].
    destruct (decide (k.2 = item)); cbn; lia.
  - rewrite (delete_id inventory_map k Hk).
    destruct (decide (k.2 = item)); cbn; lia.
Qed.

(** The total of an item over its positions agrees, within [int], with the
    net quantity of the events of the item. *)
Lemma item_total_net transactions item :
  wrap_int (item_total item (fold_left inventory_step transactions ∅))
  = wrap_int (net_quantity (events_of_item item transactions)).
Proof.
  induction transactions as [|trans transactions IH] using rev_ind.
  - cbn. unfold item_total. by rewrite map_to_list_empty.
  - rewrite fold_left_app, events_of_item_snoc. cbn [fold_left].
    set (m := fold_left inventory_step transactions ∅) in *.
    pose proof (inventory_step_key m trans) as Hstep.
    assert (inventory_step m trans
            = <[position_key trans :=
                  default (InventoryRecord.mk "" "" 0 d_zero)
                    (inventory_step m trans !! position_key trans)]> m) as ->.
    { rewrite Hstep. cbn [from_option id]. unfold inventory_step, position_before.
      fold (position_key trans).
      by destruct (m !! position_key trans), (TransactionRecord.isInbound trans). }
    rewrite item_total_insert, Hstep. cbn [from_option id].
    change (position_key trans).2 with (TransactionRecord.item_id trans).
    destruct (decide (TransactionRecord.item_id trans = item)) as [Hi | Hi].
    + rewrite net_quantity_snoc.
      rewrite <- (wrap_int_add_l (net_quantity _)), <- IH, wrap_int_add_l.
      unfold position_before, signed_quantity, int_add, int_sub.
      destruct (m !! position_key trans) as [old|]; cbn [from_option id];
        destruct (TransactionRecord.isInbound trans); cbn [InventoryRecord.quantity].
      * apply wrap_int_replace.
      * apply (wrap_int_replace _ _ (- TransactionRecord.quantity trans)).
      * apply wrap_int_replace.
      * apply (wrap_int_replace _ _ (- TransactionRecord.quantity trans)).
    + by rewrite Z.add_0_r, app_nil_r.
Qed.

End ItemTotals.
(** X27.  The quantity of the summary of an item is, within [int], the
    sum of the quantities of the positions of the item over all
    warehouses, the positions that are not positive included.
    [calculateInventory] drops those, so the quantities it lists for an
    item can add up to more than [getCurrentItems] reports. *)
Theorem item_quantity_is_sum_of_positions
    (db : MemoryDatabase.t) (manager_id item : string) (s : ItemSummary.t) :
  buildItemSummaryMap (getTransactions db manager_id) !! item = Some s ->
  ItemSummary.total_quantity s
  = wrap_int (item_total item (positions_of db manager_id)).
Proof.
  intros Hs.
  pose proof (buildItemSummaryMap_quantity (getTransactions db manager_id) item) as H.
  rewrite Hs in H. destruct H as (_ & _ & ->).
  unfold positions_of. by rewrite item_total_net.
Qed.

Lemma item_quantity_is_sum_of_positions_witness :
  ItemSummary.total_quantity
    (ItemSummary.mk "I1" "Widget" "tools" "W-1" "pcs" price_2 7 "2024-01-16T10:30:00")
  = wrap_int (item_total "I1" (positions_of split_store "manager001")).
Proof.
  apply (item_quantity_is_sum_of_positions split_store "manager001" "I1").
  vm_compute. reflexivity.
Defined.

Example split_item_views :
  map ItemSummary.total_quantity (getCurrentItems split_store "manager001") = [7]
  /\ calculateInventory split_store "manager001"
     = {[ "WH1" := [InventoryRecord.mk "I1" "WH1" 10 price_2] ]}
  /\ item_total "I1" (positions_of split_store "manager001") = 7.
Proof. vm_compute. done. Qed.
(** ** Generated ids *)

Section GeneratedIds.

Implicit Types (c : Clock).

Lemma generateTransactionId_digits c :
  clock_in_range c ->
  generateTransactionId c
  = "TXN" +:+ digits 4 (year c) +:+ digits 2 (month c) +:+ digits 2 (day c)
    +:+ digits 2 (hour c) +:+ digits 2 (minute c) +:+ digits 2 (second c)
    +:+ digits 3 (millis c).
Proof.
  intros (Hy & Hmo & Hd & Hh & Hmi & Hs & Hms). unfold generateTransactionId.
  by rewrite dec_4_digits, !put_width_2_digits, put_width_3_digits.
Qed.

Lemma generateTransactionId_compare c1 c2 :
  clock_in_range c1 -> clock_in_range c2 ->
  String.compare (generateTransactionId c1) (generateTransactionId c2)
  = clock_compare c1 c2.
Proof.
  intros H1 H2.
  rewrite !generateTransactionId_digits by done.
  destruct H1 as (Hy1 & Hmo1 & Hd1 & Hh1 & Hmi1 & Hs1 & Hms1).
  destruct H2 as (Hy2 & Hmo2 & Hd2 & Hh2 & Hmi2 & Hs2 & Hms2).
  unfold clock_compare.
  rewrite (compare_append "TXN" "TXN") by done.
  repeat rewrite (compare_append (digits _ _) (digits _ _))
    by (by rewrite !digits_length).
  rewrite !digits_compare by (cbn; lia).
  reflexivity.
Qed.

End GeneratedIds.

(** X28.  For readings of the local clock whose year has four digits,
    [generateTransactionId] gives [TXN] and seventeen digits; the ids are
    ordered as the readings, so different readings give different ids and
    one reading gives one id; and an id holds neither the delimiter of the
    WAL line nor a line feed. *)
Theorem generated_ids_follow_clock (c1 c2 : Clock) :
  clock_in_range c1 -> clock_in_range c2 ->
  String.compare (generateTransactionId c1) (generateTransactionId c2)
  = clock_compare c1 c2
  /\ (generateTransactionId c1 = generateTransactionId c2 <-> c1 = c2)
  /\ String.length (generateTransactionId c1) = 20%nat
  /\ String.prefix "TXN" (generateTransactionId c1) = true
  /\ Str.contains bar (generateTransactionId c1) = false
  /\ Str.contains newline (generateTransactionId c1) = false.
Proof.
  intros H1 H2.
  pose proof (generateTransactionId_compare c1 c2 H1 H2) as Hcmp.
  split; [done |]. split; [| split; [| split; [| split]]].
  - rewrite <- clock_compare_eq, <- Hcmp. split.
    + intros ->. apply compare_refl.
    + apply String.compare_eq_iff.
  - by rewrite generateTransactionId_digits.
  - by rewrite generateTransactionId_digits.
  - unfold generateTransactionId.
    by rewrite !contains_append, !contains_put_width, contains_dec.
  - unfold generateTransactionId.
    by rewrite !contains_append, !contains_put_width, contains_dec.
Qed.

Lemma generated_ids_follow_clock_witness :
  generateTransactionId sample_clock = "TXN20240601080000000"
  /\ String.compare (generateTransactionId sample_clock)
       (generateTransactionId sample_clock_later) = Lt.
Proof.
  split; [reflexivity |].
  etrans; [apply (generated_ids_follow_clock sample_clock sample_clock_later) |].
  - unfold clock_in_range. cbn. lia.
  - unfold clock_in_range. cbn. lia.
  - reflexivity.
Defined.

(** ** The order of the segments *)

Section SegmentOrder.

Implicit Types (fs : Dir) (manager_id : string).

Lemma omap_flat_map {A B C} (f : B -> option C) (g : A -> list B) (l : list A) :
  omap f (flat_map g l) = flat_map (fun x => omap f (g x)) l.
Proof.
  induction l as [|x l IH]; [done |]. cbn [flat_map]. by rewrite omap_app, IH.
Qed.

End SegmentOrder.

(** X29.  Recovery reads every file whose name ends in [.wal] or [.log]
    once, in the increasing order of the names, and each file line by
    line: the recovered sequence of a tenant is the concatenation, in this
    order of the files, of the events of the accepted lines of the tenant
    in each file. *)
Theorem segments_are_read_in_name_order (fs : Dir) (manager_id : string) :
  StronglySorted String.le (getWALFiles fs)
  /\ NoDup (getWALFiles fs)
  /\ (forall f, f ∈ getWALFiles fs <-> is_wal_name f = true /\ is_Some (fs !! f))
  /\ default [] (recoverFromWAL fs !! manager_id)
     = flat_map
         (fun wal_file =>
            omap (parsed_for manager_id) (file_lines (default "" (fs !! wal_file))))
         (getWALFiles fs).
Proof.
  split; [apply getWALFiles_sorted |].
  split; [apply getWALFiles_NoDup |].
  split; [apply elem_of_getWALFiles |].
  rewrite recoverFromWAL_lookup. unfold wal_lines. apply omap_flat_map.
Qed.

(** ** Rejected events *)

(** X30.  An event that does not pass the checks of [appendTransaction],
    or whose id is published for the tenant, is answered with an error
    whose code is [INVALID_PARAMETER], [INVALID_TRANSACTION_TYPE] or
    [DUPLICATE_TRANSACTION_ID]; the store and the data directory are what
    they were: nothing is written to the WAL. *)
Theorem rejected_event_changes_nothing
    (env : Env) (manager_id : string) (trans : Transaction)
    (db : MemoryDatabase.t) (fs : Dir) :
  ~ valid_event manager_id trans
  \/ TransactionRecord.trans_id trans ∈ published_ids db manager_id ->
  exists code message,
    appendTransaction env manager_id trans db fs = (Error code message, db, fs)
    /\ (code = INVALID_PARAMETER \/ code = INVALID_TRANSACTION_TYPE
        \/ code = DUPLICATE_TRANSACTION_ID).
Proof.
  intros H. unfold appendTransaction.
  destruct (Str.empty manager_id) eqn:H1; [by eauto 6 |].
  destruct (_ || _) eqn:H2; [by eauto 6 |].
  destruct (_ && _) eqn:H3; [by eauto 6 |].
  destruct (_ <=? 0) eqn:H4; [by eauto 6 |].
  destruct (match MemoryDatabase.managers_ db !! manager_id with
            | Some data => has_trans_id data (TransactionRecord.trans_id trans)
            | None => false
            end) eqn:H5; [by eauto 7 |].
  exfalso. destruct H as [H | H].
  - apply H, valid_event_guards. done.
  - by apply duplicate_guard_false in H5.
Qed.

Lemma rejected_event_changes_nothing_witness :
  exists code message,
    appendTransaction sample_env_later "manager001" sample_dup_zero
      sample_store1.1 sample_store1.2
    = (Error code message, sample_store1.1, sample_store1.2)
    /\ (code = INVALID_PARAMETER \/ code = INVALID_TRANSACTION_TYPE
        \/ code = DUPLICATE_TRANSACTION_ID).
Proof.
  apply (rejected_event_changes_nothing sample_env_later "manager001" sample_dup_zero
           sample_store1.1 sample_store1.2).
  left. intros (_ & _ & _ & _ & Hq). vm_compute in Hq. discriminate Hq.
Defined.
